(** * H5P library management: a shallow embedding

    The development follows the TypeScript sources, class by class:
    - [LibraryName]           class LibraryName (src/LibraryName.ts)
    - [LibraryManager]        class LibraryManager (the second source of
                              src/helpers/StreamHelpers.ts)
    - [CachedLibraryStorage]  src/implementation/cache/CachedLibraryStorage.ts
    - [PackageManager]        src/PackageManager.ts
    - [DirectoryTemporaryFileStorage]
                              src/implementation/fs/DirectoryTemporaryFileStorage.ts
    - [RemoveRedundantFontUrls]
                              src/helpers/postCssRemoveRedundantFontUrls.ts

    An asynchronous method is a state-passing function that returns an
    [outcome] (the resolved value or the error thrown) together with the new
    state; every awaited call is one step.  Strings are sequences of code units
    below 256.  A version number is a JavaScript number that holds an integer
    (a double) or an infinity; patch numbers, ids and sizes are integers that
    are only compared. *)

From Stdlib Require Import ZArith NArith Lia Ascii String.
From stdpp Require Import base option list strings gmap.

Local Open Scope Z_scope.

(** ** JavaScript values, strings and exceptions *)

Module Js.

(** The classes of errors the sources throw or let through. *)
Inductive ErrorClass :=
| PlainError        (* new Error(...) *)
| H5pError          (* helpers/H5pError *)
| ValidationError   (* helpers/ValidationError *)
| StructuralError   (* fatal archive errors (spec, section 7) *)
| SyntaxError       (* JSON.parse *)
| TypeError         (* property access on undefined *)
| StorageError.     (* whatever a storage backend rejects with *)

Record Exception := mkException { ex_class : ErrorClass; ex_message : string }.

Inductive outcome (A : Type) :=
| Ok (a : A)
| Throw (e : Exception).
Arguments Ok {A} a.
Arguments Throw {A} e.

(** [\s] of a regular expression, and the white space [parseInt] skips. *)
Definition is_space (c : ascii) : bool :=
  match N_of_ascii c with
  | 9 | 10 | 11 | 12 | 13 | 32 | 160 => true
  | _ => false
  end%N.

(** [\d] of a regular expression. *)
Definition is_digit (c : ascii) : bool :=
  ((48 <=? N_of_ascii c) && (N_of_ascii c <=? 57))%N.

Definition digit_value (c : ascii) : N := (N_of_ascii c - 48)%N.
Definition digit_char (d : N) : ascii := ascii_of_N (48 + d).

(** The value of the longest prefix of decimal digits, continuing [acc]. *)
Fixpoint digits_value (acc : N) (s : string) : N :=
  match s with
  | String c s' =>
      if is_digit c then digits_value (10 * acc + digit_value c) s' else acc
  | EmptyString => acc
  end.

Fixpoint skip_space (s : string) : string :=
  match s with
  | String c s' => if is_space c then skip_space s' else s
  | EmptyString => s
  end.

(** *** Numbers

    The numbers the sources print and parse are doubles that hold an integer,
    and the infinities [parseInt] returns for a very long run of digits.
    [Finite z] is the double whose value is the integer [z]; an integer that is
    no double (it needs more than 53 significant bits) is not a value of a
    program, and [parseInt] returns none.  Zero has no sign here. *)
Inductive number :=
| Finite (z : Z)
| Infinity
| NegInfinity.

Coercion Finite : Z >-> number.

(** [Number.MAX_SAFE_INTEGER], 2^53 - 1. *)
Definition MAX_SAFE_INTEGER : Z := 9007199254740991.

(** [Number.isSafeInteger(x)] *)
Definition isSafeInteger (x : number) : bool :=
  match x with
  | Finite z => (- MAX_SAFE_INTEGER <=? z) && (z <=? MAX_SAFE_INTEGER)
  | Infinity | NegInfinity => false
  end.

(** [a === b] on numbers. *)
Definition strictEquals (a b : number) : bool :=
  match a, b with
  | Finite x, Finite y => x =? y
  | Infinity, Infinity => true
  | NegInfinity, NegInfinity => true
  | _, _ => false
  end.

(** The double nearest to the integer [n]: [n] itself when 53 bits hold it,
    else its first 53 bits rounded, a tie going to the even neighbour; [None]
    when the result is beyond the largest double (2^1024 and more). *)
Definition roundToDouble (n : N) : option N :=
  let bits := N.size n in
  if (bits <=? 53)%N then Some n
  else
    let e := (bits - 53)%N in
    let q := N.shiftr n e in
    let r := N.land n (N.ones e) in
    let half := N.shiftl 1 (e - 1) in
    let q' := if (half <? r)%N || ((r =? half)%N && N.odd q) then (q + 1)%N else q in
    let m := N.shiftl q' e in
    if (N.size m <=? 1024)%N then Some m else None.

(** The number value of the integer [z]. *)
Definition toNumber (z : Z) : number :=
  match roundToDouble (Z.abs_N z) with
  | Some m => Finite (if z <? 0 then - Z.of_N m else Z.of_N m)
  | None => if z <? 0 then NegInfinity else Infinity
  end.

(** [Number.parseInt(s, 10)]; [None] is NaN.  The digits are read as far as
    they go and their value is rounded to a double. *)
Definition parseInt (s : string) : option number :=
  let s1 := skip_space s in
  let '(neg, s2) :=
    match s1 with
    | String "-" r => (true, r)
    | String "+" r => (false, r)
    | _ => (false, s1)
    end in
  match s2 with
  | String c _ =>
      if is_digit c
      then let n := Z.of_N (digits_value 0 s2) in
           Some (toNumber (if neg then - n else n))
      else None
  | EmptyString => None
  end.

(** Decimal digits of [n], most significant first, in front of [acc]. *)
Fixpoint N_to_string_aux (fuel : nat) (n : N) (acc : string) : string :=
  let acc' := String (digit_char (n mod 10)) acc in
  match fuel with
  | O => acc'
  | S f => if (n <? 10)%N then acc' else N_to_string_aux f (n / 10) acc'
  end.

Definition N_to_string (n : N) : string :=
  N_to_string_aux (N.to_nat (N.log2 n)) n "".

(** [v] is a decimal that stands for the double [x]: it rounds to it. *)
Definition rounds_to (x v : N) : bool :=
  match roundToDouble v with
  | Some m => (m =? x)%N
  | None => false
  end.

(** Of the two multiples of [unit] around [x], the one that stands for [x];
    when both do, the nearer one, and the even one when they are as near. *)
Definition nearest (x unit : N) : option N :=
  let lo := (x / unit * unit)%N in
  let hi := (lo + unit)%N in
  match rounds_to x lo, rounds_to x hi with
  | true, true =>
      Some (if (x - lo <? hi - x)%N then lo
            else if (hi - x <? x - lo)%N then hi
            else if N.even (lo / unit) then lo else hi)
  | true, false => Some lo
  | false, true => Some hi
  | false, false => None
  end.

(** The decimal with the fewest significant digits that stands for [x]
    (Number::toString, step 5): one digit is tried first, then one more at a
    time, [unit] being the weight of the last digit tried. *)
Fixpoint shortest (fuel : nat) (x unit : N) : N :=
  match nearest x unit with
  | Some v => v
  | None =>
      match fuel with
      | O => x
      | S f => shortest f x (unit / 10)
      end
  end.

Fixpoint strip_zeros (s : string) : string :=
  match s with
  | EmptyString => EmptyString
  | String c s' =>
      match strip_zeros s' with
      | EmptyString => if Ascii.eqb c "0" then EmptyString else String c EmptyString
      | rest => String c rest
      end
  end.

(** The exponential notation of [v], like [1.5e+21]. *)
Definition exponential (v : N) : string :=
  let digits := N_to_string v in
  let e := N_to_string (N.of_nat (String.length digits - 1)%nat) in
  match strip_zeros digits with
  | String c EmptyString => String c ("e+" +:+ e)
  | String c rest => String c ("." +:+ rest +:+ "e+" +:+ e)
  | EmptyString => digits
  end.

(** Number::toString of a double that holds the integer [x]: its shortest
    decimal, written out in full below 10^21 and with an exponent from there
    on. *)
Definition N_to_js_string (x : N) : string :=
  let places := String.length (N_to_string x) in
  let v := shortest (places - 1)%nat x (10 ^ N.of_nat (places - 1)%nat)%N in
  if (v <? 10 ^ 21)%N then N_to_string v else exponential v.

(** [String(x)] / template interpolation of a number. *)
Definition number_to_string (x : number) : string :=
  match x with
  | Finite z =>
      if z <? 0 then String "-" (N_to_js_string (Z.abs_N z))
      else N_to_js_string (Z.to_N z)
  | Infinity => "Infinity"
  | NegInfinity => "-Infinity"
  end.

(** [s.startsWith(p)] *)
Fixpoint startsWith (p s : string) : bool :=
  match p, s with
  | EmptyString, _ => true
  | String a p', String b s' => if Ascii.eqb a b then startsWith p' s' else false
  | String _ _, EmptyString => false
  end.

(** [s] without its prefix [p], when it starts with [p]. *)
Fixpoint stripPrefix (p s : string) : option string :=
  match p, s with
  | EmptyString, _ => Some s
  | String a p', String b s' => if Ascii.eqb a b then stripPrefix p' s' else None
  | String _ _, EmptyString => None
  end.

(** [s.includes(p)] *)
Fixpoint includes (p s : string) : bool :=
  startsWith p s ||
  match s with
  | EmptyString => false
  | String _ s' => includes p s'
  end.

(** [parts.join(sep)] *)
Fixpoint join (sep : string) (parts : list string) : string :=
  match parts with
  | [] => ""
  | [x] => x
  | x :: rest => x +:+ sep +:+ join sep rest
  end.

(** [s.split(c)] for a one-character separator. *)
Fixpoint split_on (c : ascii) (s : string) : list string :=
  match s with
  | EmptyString => [""]
  | String a s' =>
      if Ascii.eqb a c then "" :: split_on c s'
      else match split_on c s' with
           | seg :: segs => String a seg :: segs
           | [] => [String a ""]
           end
  end.

(** The last character of [s], or [d] when [s] is empty. *)
Fixpoint last_char (d : ascii) (s : string) : ascii :=
  match s with
  | EmptyString => d
  | String c s' => last_char c s'
  end.

(** [s.split('').every(p)] *)
Fixpoint every (p : ascii -> bool) (s : string) : bool :=
  match s with
  | EmptyString => true
  | String c s' => p c && every p s'
  end.

(** The line feed of the error messages. *)
Definition nl : string := String (ascii_of_nat 10) "".

(** *** Asynchronous code over a store [S]

    An awaited call is a step of the state; a rejected promise is [Throw]. *)
Definition M (S A : Type) : Type := S -> outcome A * S.

Definition ret {S A : Type} (a : A) : M S A := fun s => (Ok a, s).

Definition throw {S A : Type} (e : Exception) : M S A := fun s => (Throw e, s).

Definition bind {S A B : Type} (m : M S A) (f : A -> M S B) : M S B :=
  fun s =>
    match m s with
    | (Ok a, s') => f a s'
    | (Throw e, s') => (Throw e, s')
    end.

(** [try { m } catch (error) { h error }] *)
Definition try_catch {S A : Type} (m : M S A) (h : Exception -> M S A) : M S A :=
  fun s =>
    match m s with
    | (Ok a, s') => (Ok a, s')
    | (Throw e, s') => h e s'
    end.

(** A call that only reads the store. *)
Definition read {S A : Type} (f : S -> outcome A) : M S A := fun s => (f s, s).

(** [await Promise.all(ps)].  The calls of the array have all been started,
    in its order, and each is an atomic step of the store.  The model is one
    run of them: they settle in the order of the array and the caller goes on
    once the last has settled, so every call takes effect and a rejection is
    that of the first call rejected.  JavaScript hands the first rejection to
    the caller at once, while the other calls are still in flight.  For calls
    that only read the store, and whenever no call is rejected, the caller
    finds the same store either way; where calls that write can be rejected,
    the statements below say that they speak of this run. *)
Fixpoint promise_all {S A : Type} (ps : list (M S A)) : M S (list A) :=
  fun s =>
    match ps with
    | [] => (Ok [], s)
    | p :: ps' =>
        let '(r, s1) := p s in
        let '(rs, s2) := promise_all ps' s1 in
        (match r, rs with
         | Ok a, Ok l => Ok (a :: l)
         | Throw e, _ => Throw e
         | Ok _, Throw e => Throw e
         end, s2)
    end.

(** A computation that leaves the store as it found it. *)
Definition readonly {S A : Type} (m : M S A) : Prop := forall s, snd (m s) = s.

(** JavaScript truthiness of an optional number ([undefined] and [0] are
    falsy). *)
Definition truthy (v : option Z) : bool :=
  match v with
  | Some z => negb (z =? 0)
  | None => false
  end.

End Js.
Export Js.

Notation "'let*' x ':=' m 'in' k" := (bind m (fun x => k))
  (at level 10, x name, m at level 100, k at level 200).
Notation "m '>>' k" := (bind m (fun _ => k))
  (at level 100, k at level 200, right associativity).

(** ** src/LibraryName.ts *)

Module LibraryName.

Record ILibraryName := mkLibraryName {
  machineName : string;
  majorVersion : number;
  minorVersion : number
}.

(** The options object; an absent flag is [false]. *)
Record Options := mkOptions { useHyphen : bool; useWhitespace : bool }.

Definition defaultOptions : Options :=
  {| useHyphen := true; useWhitespace := false |}.

(** A greedy [X+] followed by the rest of the pattern [k]: the longest run of
    characters of class [p] is tried first, then shorter ones (backtracking).
    [acc] is the text captured so far. *)
Fixpoint many1 {R : Type} (p : ascii -> bool) (s : string) (acc : string)
    (k : string -> string -> option R) : option R :=
  match s with
  | EmptyString => None
  | String c s' =>
      if p c then
        match many1 p s' (acc +:+ String c "") k with
        | Some r => Some r
        | None => k (acc +:+ String c "") s'
        end
      else None
  end.

Definition not_space (c : ascii) : bool := negb (is_space c).

(** The separator class of the three expressions:
    [-] , [\s] or [[-\s]]. *)
Definition separator (o : Options) (c : ascii) : bool :=
  if useHyphen o && useWhitespace o then Ascii.eqb c "-" || is_space c
  else if useHyphen o then Ascii.eqb c "-"
  else is_space c.

(** [([^\s]+)SEP(\d+)\.(\d+)] matched at the start of [s]. *)
Definition match_here (o : Options) (s : string) : option (string * string * string) :=
  many1 not_space s ""
    (fun g1 r1 =>
       match r1 with
       | String c r2 =>
           if separator o c then
             many1 is_digit r2 ""
               (fun g2 r3 =>
                  match r3 with
                  | String "." r4 =>
                      many1 is_digit r4 "" (fun g3 _ => Some (g1, g2, g3))
                  | _ => None
                  end)
           else None
       | EmptyString => None
       end).

(** [nameRegex.exec(s)]: the match at the leftmost position that has one. *)
Fixpoint exec (o : Options) (s : string) : option (string * string * string) :=
  match match_here o s with
  | Some r => Some r
  | None =>
      match s with
      | EmptyString => None
      | String _ s' => exec o s'
      end
  end.

(** [LibraryName.fromUberName]; [Ok None] is [undefined].  A group matched by
    [\d+] always parses (lemma [parseInt_digits]), so the last branch is never
    taken. *)
Definition fromUberName (libraryName : string) (options : Options)
  : outcome (option ILibraryName) :=
  if negb (useHyphen options) && negb (useWhitespace options) then
    Throw (mkException H5pError
      "You must call fromUberName with either the useHyphen or useWhitespace option, or both!")
  else
    match exec options libraryName with
    | None => Ok None
    | Some (g1, g2, g3) =>
        match parseInt g2, parseInt g3 with
        | Some major, Some minor => Ok (Some (mkLibraryName g1 major minor))
        | _, _ => Ok None
        end
    end.

(** [LibraryName.toUberName] *)
Definition toUberName (libraryName : ILibraryName) (options : Options) : string :=
  if useHyphen options then
    machineName libraryName +:+ "-" +:+ number_to_string (majorVersion libraryName)
      +:+ "." +:+ number_to_string (minorVersion libraryName)
  else if useWhitespace options then
    machineName libraryName +:+ " " +:+ number_to_string (majorVersion libraryName)
      +:+ "." +:+ number_to_string (minorVersion libraryName)
  else "".

(** Modelled from the spec: [LibraryName.toDirName], which the manager calls
    for its messages and which the class of the sources does not have; a
    library directory is named [<machineName>-<major>.<minor>], the uber name
    with the hyphen. *)
Definition toDirName (libraryName : ILibraryName) : string :=
  toUberName libraryName defaultOptions.

End LibraryName.
Export LibraryName.

(** ** src/types.ts: the data of a library *)

Module Types.

(** An entry of [preloadedJs] / [preloadedCss]. *)
Record IPath := mkPath { path : string }.

(** The descriptor [library.json]; an absent asset list is [None]. *)
Record ILibraryMetadata := mkMetadata {
  name : ILibraryName;
  patchVersion : Z;
  runnable : bool;
  title : string;
  preloadedJs : option (list IPath);
  preloadedCss : option (list IPath)
}.

(** A descriptor with the identifier the storage gave it and its install-time
    permission flag. *)
Record IInstalledLibrary := mkLoaded {
  info : ILibraryMetadata;
  libraryId : option Z;
  restricted : bool
}.

(** What [InstalledLibrary.fromName] creates and [getInstalled] fills in. *)
Record InstalledLibrary := mkInstalled {
  il_name : ILibraryName;
  il_patchVersion : Z;
  il_id : option Z;
  il_runnable : bool;
  il_title : string
}.

(** The contents of a file: its text, and the library descriptor that
    [JSON.parse] reads from it ([None]: parsing the text fails). *)
Record FileData := mkFile {
  text : string;
  json : option ILibraryMetadata
}.

(** What a path of the local disk names: a file or a directory. *)
Inductive Node :=
| File (data : FileData)
| Folder.

(** A directory of the local disk: what is below it, by relative path, in
    the order the model lists it.  The directory above a listed path is there
    whether it is listed or not. *)
Definition Directory : Type := list (string * Node).

(** A readable stream: the data it delivers, or the error it emits when it
    is read. *)
Inductive Readable :=
| Delivers (data : FileData)
| Fails (error : Exception).

End Types.
Export Types.

(** ** class LibraryManager (src/helpers/StreamHelpers.ts) *)

Module LibraryManager.

(** The part of [ILibraryStorage] (types.ts) the manager calls.  Queries leave
    the store as it is. *)
Module Storage.
Record t (S : Type) := mk {
  getId : ILibraryName -> S -> outcome (option Z);
  getInstalled : list string -> S -> outcome (list ILibraryName);
  getFileStream : ILibraryName -> string -> S -> outcome FileData;
  fileExists : ILibraryName -> string -> S -> outcome bool;
  installLibrary : ILibraryMetadata -> bool -> M S IInstalledLibrary;
  updateLibrary : ILibraryMetadata -> M S unit;
  removeLibrary : ILibraryName -> M S unit;
  clearLibraryFiles : ILibraryName -> M S unit;
  addLibraryFile : ILibraryName -> string -> Readable -> M S bool
}.
Arguments getId {S} _ _ _.
Arguments getInstalled {S} _ _ _.
Arguments getFileStream {S} _ _ _ _.
Arguments fileExists {S} _ _ _ _.
Arguments installLibrary {S} _ _ _ _.
Arguments updateLibrary {S} _ _ _.
Arguments removeLibrary {S} _ _ _.
Arguments clearLibraryFiles {S} _ _ _.
Arguments addLibraryFile {S} _ _ _ _ _.
End Storage.

(** *** The local directory: fs-extra and glob *)

(** The directories above a relative path, the nearest last:
    [a] and [a/b] for [a/b/c]. *)
Definition parents (relative : string) : list string :=
  let segments := removelast (split_on "/" relative) in
  map (fun n => join "/" (firstn n segments)) (seq 1 (length segments)).

Fixpoint dedup (names : list string) : list string :=
  match names with
  | [] => []
  | x :: rest =>
      if existsb (String.eqb x) rest then dedup rest else x :: dedup rest
  end.

(** All that is below a directory: what is listed, and the directories above
    a listed path that are not listed themselves. *)
Definition walk (directory : Directory) : Directory :=
  directory ++
  map (fun p => (p, Folder))
      (List.filter (fun p => negb (existsb (String.eqb p) (map fst directory)))
                   (dedup (flat_map (fun f => parents (fst f)) directory))).

(** What a relative path names in the directory. *)
Definition nodeAt (directory : Directory) (relative : string) : option Node :=
  option_map snd (List.find (fun f => String.eqb (fst f) relative) (walk directory)).

(** [fsExtra.createReadStream(path)]: the stream is created whatever the
    path names, and reading a directory fails. *)
Definition createReadStream (relative : string) (node : Node) : Readable :=
  match node with
  | File data => Delivers data
  | Folder =>
      Fails (mkException PlainError
               ("EISDIR: illegal operation on a directory, read '" +:+ relative +:+ "'"))
  end.

(** [fsExtra.readJSON(`${directory}/library.json`)] *)
Definition readJSON (directory : Directory) : outcome ILibraryMetadata :=
  match nodeAt directory "library.json" with
  | Some (File file) =>
      match json file with
      | Some metadata => Ok metadata
      | None => Throw (mkException SyntaxError "library.json: Unexpected token in JSON")
      end
  | Some Folder =>
      Throw (mkException PlainError "EISDIR: illegal operation on a directory, read")
  | None =>
      Throw (mkException PlainError "ENOENT: no such file or directory, open 'library.json'")
  end.

(** A path segment that [*] and [**] may match: glob does not match a leading
    dot (option [dot] is off). *)
Definition visible (segment : string) : bool := negb (startsWith "." segment).

(** The pattern [**/*.*] on a relative path: any visible directories, then a
    visible name with a dot in it. *)
Definition matches_pattern (relative : string) : bool :=
  let segments := split_on "/" relative in
  forallb visible segments && includes "." (List.last segments "").

(** [globPromise(`${fromDirectory}/**/*.*`)]: the paths below the directory
    that match, files and directories alike (option [nodir] is off). *)
Definition globPromise (fromDirectory : Directory) : Directory :=
  List.filter (fun f => matches_pattern (fst f)) (walk fromDirectory).

(** The properties every object inherits from [Object.prototype]. *)
Definition objectPrototypeKeys : list string :=
  ["constructor"; "__defineGetter__"; "__defineSetter__"; "hasOwnProperty";
   "__lookupGetter__"; "__lookupSetter__"; "isPrototypeOf";
   "propertyIsEnumerable"; "toString"; "valueOf"; "__proto__"; "toLocaleString"].

Definition inherited (key : string) : bool :=
  existsb (String.eqb key) objectPrototypeKeys.

(** What [returnObject[machineName]] finds in the object [getInstalled]
    returns: the versions of the machine name, nothing, or what the object
    inherits under that name (a function or [Object.prototype], truthy and
    not iterable). *)
Inductive Property :=
| Versions (libraries : list InstalledLibrary)
| Undefined
| Inherited.

Section Manager.

Context {S : Type} (libraryStorage : Storage.t S).

(** [Array.prototype.sort] with [InstalledLibrary.compare], which is not part
    of the sources at hand: some rearrangement of the array. *)
Context (sort : list InstalledLibrary -> list InstalledLibrary).

Definition getId (library : ILibraryName) : M S (option Z) :=
  read (Storage.getId libraryStorage library).

(** [getJsonFile]: read the stream and [JSON.parse] it. *)
Definition getJsonFile (library : ILibraryName) (file : string)
  : M S ILibraryMetadata :=
  let* stream := read (Storage.getFileStream libraryStorage library file) in
  match json stream with
  | Some metadata => ret metadata
  | None => throw (mkException SyntaxError "Unexpected token in JSON")
  end.

(** [loadLibrary]; [None] is [undefined]. *)
Definition loadLibrary (library : ILibraryName) : M S (option IInstalledLibrary) :=
  try_catch
    (let* libraryMetadata := getJsonFile library "library.json" in
     let* id := getId library in
     ret (Some (mkLoaded libraryMetadata id false)))
    (fun _ => ret None).

(** The callback of [libraries.map] in [getInstalled]. *)
Definition loadInstalled (libName : ILibraryName) : M S InstalledLibrary :=
  let* loaded := loadLibrary libName in
  match loaded with
  | Some l =>
      ret (mkInstalled libName (patchVersion (info l)) (libraryId l)
             (runnable (info l)) (title (info l)))
  | None =>
      throw (mkException TypeError "Cannot read property 'patchVersion' of undefined")
  end.

(** [getInstalled]: the sorted libraries, which the loop at the end groups by
    machine name in [returnObject = {}].  A machine name that [{}] inherits
    from [Object.prototype] finds a value there that is no array, and [push]
    is no function of it.  What is returned is the sorted array; [versionsOf]
    reads the object off it. *)
Definition getInstalled (machineNames : list string) : M S (list InstalledLibrary) :=
  let* libraries := read (Storage.getInstalled libraryStorage machineNames) in
  let* loaded := promise_all (map loadInstalled libraries) in
  let libraries := sort loaded in
  if existsb (fun library => inherited (machineName (il_name library))) libraries then
    throw (mkException TypeError
             "returnObject[library.machineName].push is not a function")
  else ret libraries.

(** [returnObject[machineName]] *)
Definition versionsOf (machine : string) (libraries : list InstalledLibrary)
  : Property :=
  if inherited machine then Inherited
  else
    match List.filter (fun l => String.eqb (machineName (il_name l)) machine) libraries with
    | [] => Undefined
    | versions => Versions versions
    end.

(** The loop of [isPatchedLibrary]: the first entry of the same major and
    minor version decides. *)
Fixpoint isPatchOfAny (library : ILibraryMetadata) (libraryInfos : list InstalledLibrary)
  : bool :=
  match libraryInfos with
  | [] => false
  | lib :: rest =>
      if strictEquals (majorVersion (il_name lib)) (majorVersion (name library))
         && strictEquals (minorVersion (il_name lib)) (minorVersion (name library))
      then il_patchVersion lib <? patchVersion library
      else isPatchOfAny library rest
  end.

Definition isPatchedLibrary (library : ILibraryMetadata) : M S bool :=
  let* wrappedLibraryInfos := getInstalled [machineName (name library)] in
  match versionsOf (machineName (name library)) wrappedLibraryInfos with
  | Undefined => ret false
  | Inherited => throw (mkException TypeError "libraryInfos is not iterable")
  | Versions libraryInfos => ret (isPatchOfAny library libraryInfos)
  end.

Definition missingMessage (library : ILibraryName) (missingFiles : list string) : string :=
  "Error(s) in library " +:+ toDirName library +:+ ":" +:+ nl +:+
  join nl (map (fun file => file +:+ " is missing.") missingFiles).

Definition checkFiles (library : ILibraryName) (requiredFiles : list string) : M S bool :=
  let* statuses :=
    promise_all
      (map (fun file =>
              let* status := read (Storage.fileExists libraryStorage library file) in
              ret (file, status))
           requiredFiles) in
  let missingFiles :=
    map fst (List.filter (fun file => negb (snd file)) statuses) in
  if (0 <? length missingFiles)%nat
  then throw (mkException PlainError (missingMessage library missingFiles))
  else ret true.

Definition checkConsistency (library : ILibraryName) : M S bool :=
  let* id := read (Storage.getId libraryStorage library) in
  if negb (truthy id) then
    throw (mkException PlainError
             ("Error in library " +:+ toDirName library +:+ ": not installed."))
  else
    let* metadata :=
      try_catch (getJsonFile library "library.json")
        (fun error =>
           throw (mkException PlainError
                    ("Error in library " +:+ toDirName library
                     +:+ ": library.json not readable: " +:+ ex_message error +:+ "."))) in
    match preloadedJs metadata with
    | Some js => checkFiles library (map path js)
    | None => ret true
    end >>
    match preloadedCss metadata with
    | Some css => checkFiles library (map path css)
    | None => ret true
    end >>
    ret true.

Definition copyLibraryFiles (fromDirectory : Directory) (libraryInfo : ILibraryName)
  : M S unit :=
  let files := globPromise fromDirectory in
  promise_all
    (map (fun file =>
            let fileLocalPath := fst file in
            if String.eqb fileLocalPath "library.json" then ret true
            else
              let readStream := createReadStream fileLocalPath (snd file) in
              Storage.addLibraryFile libraryStorage libraryInfo
                fileLocalPath readStream)
         files) >>
  ret tt.

Definition installLibrary (fromDirectory : Directory)
    (libraryMetadata : ILibraryMetadata) (restricted : bool) : M S IInstalledLibrary :=
  let* newLibraryInfo := Storage.installLibrary libraryStorage libraryMetadata restricted in
  try_catch
    (copyLibraryFiles fromDirectory (name (info newLibraryInfo)) >>
     checkConsistency (name libraryMetadata) >>
     ret tt)
    (fun error =>
       Storage.removeLibrary libraryStorage (name libraryMetadata) >>
       throw error) >>
  ret newLibraryInfo.

Definition updateLibrary (newLibraryMetadata : ILibraryMetadata)
    (filesDirectory : Directory) : M S unit :=
  try_catch
    (Storage.updateLibrary libraryStorage newLibraryMetadata >>
     Storage.clearLibraryFiles libraryStorage (name newLibraryMetadata) >>
     copyLibraryFiles filesDirectory (name newLibraryMetadata) >>
     checkConsistency (name newLibraryMetadata) >>
     ret tt)
    (fun error =>
       Storage.removeLibrary libraryStorage (name newLibraryMetadata) >>
       throw error).

Definition installFromDirectory (directory : Directory) (restricted : bool) : M S bool :=
  let* newLibraryMetadata := read (fun _ => readJSON directory) in
  let* id := getId (name newLibraryMetadata) in
  if truthy id then
    let* patched := isPatchedLibrary newLibraryMetadata in
    if patched then
      updateLibrary newLibraryMetadata directory >>
      ret true
    else ret false
  else
    installLibrary directory newLibraryMetadata restricted >>
    ret true.

(** *** What the statements about the manager speak of *)

(** The files of [requiredFiles] the storage does not have. *)
Definition absent (library : ILibraryName) (s : S) (requiredFiles : list string)
  : list string :=
  List.filter
    (fun file => match Storage.fileExists libraryStorage library file s with
                 | Ok true => false
                 | _ => true
                 end)
    requiredFiles.

(** The storage answers whether [file] exists. *)
Definition answered (library : ILibraryName) (s : S) (file : string) : Prop :=
  exists b, Storage.fileExists libraryStorage library file s = Ok b.


End Manager.

End LibraryManager.

(** ** src/implementation/cache/CachedLibraryStorage.ts *)

Module CachedLibraryStorage.

(** [Partial<IAdditionalLibraryMetadata>] *)
Record IAdditionalLibraryMetadata := mkAdditional { setRestricted : option bool }.

(** [ILibraryStorage] (types.ts) as the decorator calls it.  [listAddons] is
    optional: [None] when the backend does not implement it.  A JSON document
    of the model is a library descriptor. *)
Module Storage.
Record t (S : Type) := mk {
  addFile : ILibraryName -> string -> FileData -> M S bool;
  addLibrary : ILibraryMetadata -> bool -> M S IInstalledLibrary;
  clearFiles : ILibraryName -> M S unit;
  deleteLibrary : ILibraryName -> M S unit;
  fileExists : ILibraryName -> string -> S -> outcome bool;
  getFileAsJson : ILibraryName -> string -> S -> outcome ILibraryMetadata;
  getFileAsString : ILibraryName -> string -> S -> outcome string;
  getInstalledLibraryNames : option string -> S -> outcome (list ILibraryName);
  getLanguages : ILibraryName -> S -> outcome (list string);
  getLibrary : ILibraryName -> S -> outcome IInstalledLibrary;
  isInstalled : ILibraryName -> S -> outcome bool;
  listAddons : option (S -> outcome (list ILibraryMetadata));
  listFiles : ILibraryName -> S -> outcome (list string);
  updateAdditionalMetadata : ILibraryName -> IAdditionalLibraryMetadata -> M S bool;
  updateLibrary : ILibraryMetadata -> M S IInstalledLibrary
}.
Arguments addFile {S} _ _ _ _ _.
Arguments addLibrary {S} _ _ _ _.
Arguments clearFiles {S} _ _ _.
Arguments deleteLibrary {S} _ _ _.
Arguments fileExists {S} _ _ _ _.
Arguments getFileAsJson {S} _ _ _ _.
Arguments getFileAsString {S} _ _ _ _.
Arguments getInstalledLibraryNames {S} _ _ _.
Arguments getLanguages {S} _ _ _.
Arguments getLibrary {S} _ _ _.
Arguments isInstalled {S} _ _ _.
Arguments listAddons {S} _.
Arguments listFiles {S} _ _ _.
Arguments updateAdditionalMetadata {S} _ _ _ _.
Arguments updateLibrary {S} _ _ _.
End Storage.

(** What the cache holds: the result of any of the cached queries. *)
Inductive value :=
| VBoolean (b : bool)
| VString (s : string)
| VJson (j : ILibraryMetadata)
| VStrings (l : list string)
| VNames (l : list ILibraryName)
| VLibrary (l : IInstalledLibrary)
| VAddons (l : list ILibraryMetadata).

(** The writing methods of the backing storage. *)
Inductive Write :=
| WAddFile
| WAddLibrary
| WClearFiles
| WDeleteLibrary
| WUpdateAdditionalMetadata
| WUpdateLibrary.

(** What a method does, in program order: a call of a writing method of the
    backing storage, the point where the promise of that call is awaited (only
    from there on is the write known to have completed), and a [cache.del]. *)
Inductive Event :=
| BackingCalled (w : Write)
| BackingSettled (w : Write)
| CacheDel (key : string).

(** The decorator's world: the backing storage, the cache (cache-manager's
    [Cache], a map from keys to values) and the events so far. *)
Record State (S : Type) := mkState {
  backing : S;
  cache : gmap string value;
  trace : list Event
}.
Arguments mkState {S} _ _ _.
Arguments backing {S} _.
Arguments cache {S} _.
Arguments trace {S} _.

(** The promise of a call that has been made and not awaited yet.  The backing
    storage works asynchronously: from the call on the write is under way, and
    it is known to have completed only where its promise is awaited; that is
    where the model lets it take effect. *)
Definition Promise (S A : Type) : Type := Write * M S A.

Definition ADDONS_CACHE_KEY : string := "addons".
Definition FILE_EXISTS_CACHE_KEY : string := "exists".
Definition INSTALLED_LIBRARY_NAMES_CACHE_KEY : string := "installed-library-names".
Definition JSON_CACHE_KEY : string := "json".
Definition LANGUAGES_CACHE_KEY : string := "languages".
Definition LIBRARY_IS_INSTALLED_CACHE_KEY : string := "is-installed".
Definition METADATA_CACHE_KEY : string := "metadata".
Definition STRING_CACHE_KEY : string := "string".

Definition getCacheKeyForFile (library : ILibraryName) (filename usage : string)
  : string :=
  toUberName library defaultOptions +:+ "/" +:+ filename +:+ "-" +:+ usage.

Definition getCacheKeyForLibraryListByMachineName (machineName : string) : string :=
  INSTALLED_LIBRARY_NAMES_CACHE_KEY +:+ "-" +:+ machineName.

Definition getCacheKeyForMetadata (library : ILibraryName) (usage : string) : string :=
  toUberName library defaultOptions +:+ "-" +:+ usage.

(** The cached queries, with their arguments, and the key each one wraps. *)
Inductive Query :=
| QFileExists (library : ILibraryName) (filename : string)
| QGetFileAsJson (library : ILibraryName) (file : string)
| QGetFileAsString (library : ILibraryName) (file : string)
| QGetLanguages (library : ILibraryName)
| QGetLibrary (library : ILibraryName)
| QIsInstalled (library : ILibraryName)
| QGetInstalledLibraryNames (machineName : option string)
| QListAddons.

Definition keyOf (q : Query) : string :=
  match q with
  | QFileExists library filename =>
      getCacheKeyForFile library filename FILE_EXISTS_CACHE_KEY
  | QGetFileAsJson library file => getCacheKeyForFile library file JSON_CACHE_KEY
  | QGetFileAsString library file => getCacheKeyForFile library file STRING_CACHE_KEY
  | QGetLanguages library => getCacheKeyForMetadata library LANGUAGES_CACHE_KEY
  | QGetLibrary library => getCacheKeyForMetadata library METADATA_CACHE_KEY
  | QIsInstalled library =>
      getCacheKeyForMetadata library LIBRARY_IS_INSTALLED_CACHE_KEY
  | QGetInstalledLibraryNames (Some (String c m)) =>
      getCacheKeyForLibraryListByMachineName (String c m)
  | QGetInstalledLibraryNames _ => INSTALLED_LIBRARY_NAMES_CACHE_KEY
  | QListAddons => ADDONS_CACHE_KEY
  end.

(** The library a query is about, if it is about one. *)
Definition libraryOf (q : Query) : option ILibraryName :=
  match q with
  | QFileExists library _ | QGetFileAsJson library _ | QGetFileAsString library _
  | QGetLanguages library | QGetLibrary library | QIsInstalled library => Some library
  | QGetInstalledLibraryNames _ | QListAddons => None
  end.

(** In a trace, the write [w] has settled before the first invalidation. *)
Definition settled_before_invalidation (w : Write) (events : list Event) : Prop :=
  forall before key after,
    events = before ++ CacheDel key :: after -> In (BackingSettled w) before.

Section Cached.

Context {S : Type} (storage : Storage.t S).

Definition log (e : Event) (c : State S) : State S :=
  mkState (backing c) (cache c) (trace c ++ [e]).

(** [this.storage.m(...)], not awaited. *)
Definition call {A : Type} (w : Write) (m : M S A) : M (State S) (Promise S A) :=
  fun c => (Ok (w, m), log (BackingCalled w) c).

(** [await promise] (or [return promise] from an async method). *)
Definition await {A : Type} (promise : Promise S A) : M (State S) A :=
  fun c =>
    let '(r, s') := snd promise (backing c) in
    (r, mkState s' (cache c) (trace c ++ [BackingSettled (fst promise)])).

(** An awaited query of the backing storage. *)
Definition query {A : Type} (f : S -> outcome A) : M (State S) A :=
  fun c => (f (backing c), c).

(** [this.cache.del(key)] *)
Definition del (key : string) : M (State S) unit :=
  fun c => (Ok tt, mkState (backing c) (delete key (cache c)) (trace c ++ [CacheDel key])).

(** [this.cache.wrap(key, producer)]: the cached value, or the producer's
    result, stored before it is returned; an error is not stored. *)
Definition wrap (key : string) (producer : M (State S) value) : M (State S) value :=
  fun c =>
    match cache c !! key with
    | Some v => (Ok v, c)
    | None =>
        match producer c with
        | (Ok v, c') => (Ok v, mkState (backing c') (<[key := v]> (cache c')) (trace c'))
        | (Throw e, c') => (Throw e, c')
        end
    end.

(** [this.cache.reset()] *)
Definition reset : M (State S) unit :=
  fun c => (Ok tt, mkState (backing c) ∅ (trace c)).

Definition deleteFileCache (library : ILibraryName) (filename : string)
  : M (State S) unit :=
  promise_all
    [del (getCacheKeyForFile library filename JSON_CACHE_KEY);
     del (getCacheKeyForFile library filename STRING_CACHE_KEY);
     del (getCacheKeyForFile library filename FILE_EXISTS_CACHE_KEY)] >>
  ret tt.

Definition addFile (library : ILibraryName) (filename : string) (readStream : FileData)
  : M (State S) bool :=
  let* promise := call WAddFile (Storage.addFile storage library filename readStream) in
  let* result := await promise in
  deleteFileCache library filename >>
  ret result.

(** The call of [this.storage.addLibrary] is not awaited; its promise is
    what the method returns. *)
Definition addLibrary (libraryData : ILibraryMetadata) (restricted : bool)
  : M (State S) IInstalledLibrary :=
  let* result := call WAddLibrary (Storage.addLibrary storage libraryData restricted) in
  del INSTALLED_LIBRARY_NAMES_CACHE_KEY >>
  del ADDONS_CACHE_KEY >>
  del (getCacheKeyForMetadata (name libraryData) LIBRARY_IS_INSTALLED_CACHE_KEY) >>
  del (getCacheKeyForLibraryListByMachineName (machineName (name libraryData))) >>
  await result.

Definition clearCache : M (State S) unit := reset.

Definition clearFiles (library : ILibraryName) : M (State S) unit :=
  let* files := query (Storage.listFiles storage library) in
  let* promise := call WClearFiles (Storage.clearFiles storage library) in
  await promise >>
  promise_all (map (fun file => deleteFileCache library file) files) >>
  ret tt.

Definition deleteLibrary (library : ILibraryName) : M (State S) unit :=
  let* files := query (Storage.listFiles storage library) in
  let* promise := call WDeleteLibrary (Storage.deleteLibrary storage library) in
  await promise >>
  promise_all
    (map (fun file => deleteFileCache library file) files
     ++ [del (getCacheKeyForMetadata library METADATA_CACHE_KEY);
         del (getCacheKeyForMetadata library LANGUAGES_CACHE_KEY);
         del (getCacheKeyForMetadata library LIBRARY_IS_INSTALLED_CACHE_KEY);
         del INSTALLED_LIBRARY_NAMES_CACHE_KEY;
         del (getCacheKeyForLibraryListByMachineName (machineName library));
         del ADDONS_CACHE_KEY]) >>
  ret tt.

Definition fileExists (library : ILibraryName) (filename : string) : M (State S) value :=
  wrap (getCacheKeyForFile library filename FILE_EXISTS_CACHE_KEY)
    (let* b := query (Storage.fileExists storage library filename) in ret (VBoolean b)).

Definition getFileAsJson (library : ILibraryName) (file : string) : M (State S) value :=
  wrap (getCacheKeyForFile library file JSON_CACHE_KEY)
    (let* j := query (Storage.getFileAsJson storage library file) in ret (VJson j)).

Definition getFileAsString (library : ILibraryName) (file : string) : M (State S) value :=
  wrap (getCacheKeyForFile library file STRING_CACHE_KEY)
    (let* t := query (Storage.getFileAsString storage library file) in ret (VString t)).

(** [if (machineName)]: an absent and an empty name are both falsy. *)
Definition getInstalledLibraryNames (machineName : option string) : M (State S) value :=
  match machineName with
  | Some (String c m) =>
      wrap (getCacheKeyForLibraryListByMachineName (String c m))
        (let* l := query (Storage.getInstalledLibraryNames storage (Some (String c m))) in
         ret (VNames l))
  | _ =>
      wrap INSTALLED_LIBRARY_NAMES_CACHE_KEY
        (let* l := query (Storage.getInstalledLibraryNames storage None) in
         ret (VNames l))
  end.

Definition getLanguages (library : ILibraryName) : M (State S) value :=
  wrap (getCacheKeyForMetadata library LANGUAGES_CACHE_KEY)
    (let* l := query (Storage.getLanguages storage library) in ret (VStrings l)).

Definition getLibrary (library : ILibraryName) : M (State S) value :=
  wrap (getCacheKeyForMetadata library METADATA_CACHE_KEY)
    (let* l := query (Storage.getLibrary storage library) in ret (VLibrary l)).

Definition isInstalled (library : ILibraryName) : M (State S) value :=
  wrap (getCacheKeyForMetadata library LIBRARY_IS_INSTALLED_CACHE_KEY)
    (let* b := query (Storage.isInstalled storage library) in ret (VBoolean b)).

Definition listAddons : M (State S) value :=
  match Storage.listAddons storage with
  | Some backingListAddons =>
      wrap ADDONS_CACHE_KEY (let* l := query backingListAddons in ret (VAddons l))
  | None => ret (VAddons [])
  end.

Definition listFiles (library : ILibraryName) : M (State S) (list string) :=
  query (Storage.listFiles storage library).

Definition updateAdditionalMetadata (library : ILibraryName)
    (additionalMetadata : IAdditionalLibraryMetadata) : M (State S) bool :=
  let* promise :=
    call WUpdateAdditionalMetadata
      (Storage.updateAdditionalMetadata storage library additionalMetadata) in
  let* result := await promise in
  del (getCacheKeyForMetadata library METADATA_CACHE_KEY) >>
  ret result.

Definition updateLibrary (libraryMetadata : ILibraryMetadata)
  : M (State S) IInstalledLibrary :=
  let* promise := call WUpdateLibrary (Storage.updateLibrary storage libraryMetadata) in
  let* result := await promise in
  del (getCacheKeyForMetadata (name libraryMetadata) METADATA_CACHE_KEY) >>
  del INSTALLED_LIBRARY_NAMES_CACHE_KEY >>
  del ADDONS_CACHE_KEY >>
  del (getCacheKeyForLibraryListByMachineName (machineName (name libraryMetadata))) >>
  ret result.

(** The state after the keys have been deleted, one [cache.del] each. *)
Definition deletes (keys : list string) (c : State S) : State S :=
  mkState (backing c)
    (foldl (fun m k => delete k m) (cache c) keys)
    (trace c ++ map CacheDel keys).

(** A computation that succeeds and does nothing but delete [keys]. *)
Definition invalidates {A : Type} (keys : list string) (m : M (State S) A) : Prop :=
  forall c, exists a, m c = (Ok a, deletes keys c).

(** The state once the write [op] has been called and awaited. *)
Definition written {A : Type} (w : Write) (op : M S A) (c : State S) : State S :=
  mkState (snd (op (backing c))) (cache c)
    (trace c ++ [BackingCalled w; BackingSettled w]).

(** The events a method adds to the trace of [c]. *)
Definition events {A : Type} (m : M (State S) A) (c : State S) : list Event :=
  drop (length (trace c)) (trace (snd (m c))).

(** *** Writes, their invalidation sets, and the queries behind the cache *)

(** A call of one of the six writing methods. *)
Inductive WriteCall :=
| CAddFile (library : ILibraryName) (filename : string) (readStream : FileData)
| CAddLibrary (libraryData : ILibraryMetadata) (restricted : bool)
| CClearFiles (library : ILibraryName)
| CDeleteLibrary (library : ILibraryName)
| CUpdateAdditionalMetadata (library : ILibraryName)
    (additionalMetadata : IAdditionalLibraryMetadata)
| CUpdateLibrary (libraryMetadata : ILibraryMetadata).

Definition perform (w : WriteCall) : M (State S) unit :=
  match w with
  | CAddFile library filename readStream =>
      addFile library filename readStream >> ret tt
  | CAddLibrary libraryData restricted => addLibrary libraryData restricted >> ret tt
  | CClearFiles library => clearFiles library
  | CDeleteLibrary library => deleteLibrary library
  | CUpdateAdditionalMetadata library additionalMetadata =>
      updateAdditionalMetadata library additionalMetadata >> ret tt
  | CUpdateLibrary libraryMetadata => updateLibrary libraryMetadata >> ret tt
  end.

(** The keys [deleteFileCache] deletes. *)
Definition fileKeys (library : ILibraryName) (filename : string) : list string :=
  [getCacheKeyForFile library filename JSON_CACHE_KEY;
   getCacheKeyForFile library filename STRING_CACHE_KEY;
   getCacheKeyForFile library filename FILE_EXISTS_CACHE_KEY].

(** The files the backing storage lists for the library of a [clearFiles] or
    [deleteLibrary], before the write. *)
Definition listed (w : WriteCall) (s : S) : list string :=
  match w with
  | CClearFiles library | CDeleteLibrary library =>
      match Storage.listFiles storage library s with
      | Ok files => files
      | Throw _ => []
      end
  | _ => []
  end.

(** The keys a write deletes, in the order it deletes them. *)
Definition invalidationSet (w : WriteCall) (files : list string) : list string :=
  match w with
  | CAddFile library filename _ => fileKeys library filename
  | CAddLibrary libraryData _ =>
      [INSTALLED_LIBRARY_NAMES_CACHE_KEY;
       ADDONS_CACHE_KEY;
       getCacheKeyForMetadata (name libraryData) LIBRARY_IS_INSTALLED_CACHE_KEY;
       getCacheKeyForLibraryListByMachineName (machineName (name libraryData))]
  | CClearFiles library => concat (map (fileKeys library) files)
  | CDeleteLibrary library =>
      concat (map (fileKeys library) files)
      ++ [getCacheKeyForMetadata library METADATA_CACHE_KEY;
          getCacheKeyForMetadata library LANGUAGES_CACHE_KEY;
          getCacheKeyForMetadata library LIBRARY_IS_INSTALLED_CACHE_KEY;
          INSTALLED_LIBRARY_NAMES_CACHE_KEY;
          getCacheKeyForLibraryListByMachineName (machineName library);
          ADDONS_CACHE_KEY]
  | CUpdateAdditionalMetadata library _ =>
      [getCacheKeyForMetadata library METADATA_CACHE_KEY]
  | CUpdateLibrary libraryMetadata =>
      [getCacheKeyForMetadata (name libraryMetadata) METADATA_CACHE_KEY;
       INSTALLED_LIBRARY_NAMES_CACHE_KEY;
       ADDONS_CACHE_KEY;
       getCacheKeyForLibraryListByMachineName (machineName (name libraryMetadata))]
  end.

Definition answerWith {A : Type} (inj : A -> value) (r : outcome A) : outcome value :=
  match r with
  | Ok x => Ok (inj x)
  | Throw e => Throw e
  end.

(** What the backing storage answers to a query. *)
Definition answer (q : Query) (s : S) : outcome value :=
  match q with
  | QFileExists library filename =>
      answerWith VBoolean (Storage.fileExists storage library filename s)
  | QGetFileAsJson library file =>
      answerWith VJson (Storage.getFileAsJson storage library file s)
  | QGetFileAsString library file =>
      answerWith VString (Storage.getFileAsString storage library file s)
  | QGetLanguages library => answerWith VStrings (Storage.getLanguages storage library s)
  | QGetLibrary library => answerWith VLibrary (Storage.getLibrary storage library s)
  | QIsInstalled library => answerWith VBoolean (Storage.isInstalled storage library s)
  | QGetInstalledLibraryNames (Some (String c m)) =>
      answerWith VNames (Storage.getInstalledLibraryNames storage (Some (String c m)) s)
  | QGetInstalledLibraryNames _ =>
      answerWith VNames (Storage.getInstalledLibraryNames storage None s)
  | QListAddons =>
      match Storage.listAddons storage with
      | Some backingListAddons => answerWith VAddons (backingListAddons s)
      | None => Ok (VAddons [])
      end
  end.

(** The cached method of a query. *)
Definition ask (q : Query) : M (State S) value :=
  match q with
  | QFileExists library filename => fileExists library filename
  | QGetFileAsJson library file => getFileAsJson library file
  | QGetFileAsString library file => getFileAsString library file
  | QGetLanguages library => getLanguages library
  | QGetLibrary library => getLibrary library
  | QIsInstalled library => isInstalled library
  | QGetInstalledLibraryNames machineName => getInstalledLibraryNames machineName
  | QListAddons => listAddons
  end.

End Cached.

End CachedLibraryStorage.

(** ** Node's [path] (POSIX) *)

Module Path.

Definition isEmpty (s : string) : bool :=
  match s with EmptyString => true | String _ _ => false end.

(** [normalizeString]: resolve [.] and [..] segments; [res] is the stack of
    the segments kept, innermost first. *)
Fixpoint normalizeArray (segments : list string) (allowAboveRoot : bool)
    (res : list string) : list string :=
  match segments with
  | [] => rev res
  | segment :: rest =>
      if isEmpty segment || String.eqb segment "." then
        normalizeArray rest allowAboveRoot res
      else if String.eqb segment ".." then
        match res with
        | top :: res' =>
            if String.eqb top ".."
            then normalizeArray rest allowAboveRoot (".." :: res)
            else normalizeArray rest allowAboveRoot res'
        | [] =>
            if allowAboveRoot
            then normalizeArray rest allowAboveRoot [".."]
            else normalizeArray rest allowAboveRoot []
        end
      else normalizeArray rest allowAboveRoot (segment :: res)
  end.

Definition isAbsolute (p : string) : bool := startsWith "/" p.

(** [path.normalize] *)
Definition normalize (p : string) : string :=
  if isEmpty p then "."
  else
    let absolute := isAbsolute p in
    let trailingSeparator := Ascii.eqb (last_char " " p) "/" in
    let body := join "/" (normalizeArray (split_on "/" p) (negb absolute) []) in
    if isEmpty body then
      if absolute then "/" else if trailingSeparator then "./" else "."
    else
      let body := if trailingSeparator then body +:+ "/" else body in
      if absolute then "/" +:+ body else body.

(** [path.join(a, b)] *)
Definition join2 (a b : string) : string :=
  if isEmpty a then normalize b
  else if isEmpty b then normalize a
  else normalize (a +:+ "/" +:+ b).

(** [path.basename(p)]: the last segment that is not empty. *)
Definition basename (p : string) : string :=
  List.last (List.filter (fun seg => negb (isEmpty seg)) (split_on "/" p)) "".

Fixpoint skip_slashes (s : string) : string :=
  match s with
  | String "/" s' => skip_slashes s'
  | _ => s
  end.

Fixpoint skip_name (s : string) : string :=
  match s with
  | String c s' => if Ascii.eqb c "/" then s else skip_name s'
  | EmptyString => s
  end.

(** [path.dirname(p)]: the path is read from its end; the slashes at the end
    and the last name are dropped, and the slash before that name. *)
Definition dirname (p : string) : string :=
  match p with
  | EmptyString => "."
  | String first rest =>
      let hasRoot := Ascii.eqb first "/" in
      match skip_name (skip_slashes (String.rev rest)) with
      | EmptyString => if hasRoot then "/" else "."
      | String _ EmptyString => if hasRoot then "//" else String first ""
      | String _ before => String first (String.rev before)
      end
  end.

End Path.

(** ** src/PackageManager.ts *)

Module PackageManager.

(** An entry of the archive: its name as the archive has it, its size and
    what its stream delivers. *)
Record Entry := mkEntry {
  fileName : string;
  uncompressedSize : Z;
  contents : FileData
}.

Definition ContentId : Type := Z.

(** *** The zip reader (yauzl)

    The reader replaces the backslashes of a file name by slashes and refuses
    to go on at a name that is absolute or has a [..] segment; the entries
    before that one have been handed over by then. *)

Definition backslash : ascii := ascii_of_nat 92.

(** [fileName.replace(/\\/g, "/")] *)
Fixpoint slashes (fileName : string) : string :=
  match fileName with
  | EmptyString => EmptyString
  | String c rest =>
      String (if Ascii.eqb c backslash then "/"%char else c) (slashes rest)
  end.

Definition is_letter (c : ascii) : bool :=
  ((65 <=? N_of_ascii c) && (N_of_ascii c <=? 90)
   || (97 <=? N_of_ascii c) && (N_of_ascii c <=? 122))%N.

(** [validateFileName]: the error message, [None] when the name is good. *)
Definition validateFileName (fileName : string) : option string :=
  if includes (String backslash "") fileName then
    Some ("invalid characters in fileName: " +:+ fileName)
  else if match fileName with
          | String c (String ":" _) => is_letter c
          | _ => false
          end || startsWith "/" fileName then
    Some ("absolute path: " +:+ fileName)
  else if existsb (String.eqb "..") (split_on "/" fileName) then
    Some ("invalid relative path: " +:+ fileName)
  else None.

(** The entry as the callback of [walkEntries] gets it. *)
Definition readEntry (entry : Entry) : outcome Entry :=
  let fileName := slashes (fileName entry) in
  match validateFileName fileName with
  | Some message => Throw (mkException PlainError message)
  | None => Ok (mkEntry fileName (uncompressedSize entry) (contents entry))
  end.

Record ValidationIssue := mkIssue {
  issue_kind : string;
  issue_path : string;
  issue_message : string
}.

(** The local disk and the persistent storage: the files of the disk by
    absolute path, and its directories.  Paths are told apart as texts. *)
Record World (S : Type) := mkWorld {
  disk : gmap string FileData;
  folders : gset string;
  persistent : S
}.
Arguments mkWorld {S} _ _ _.
Arguments disk {S} _.
Arguments folders {S} _.
Arguments persistent {S} _.

(** A step of the persistent storage, in the world. *)
Definition onStorage {S A : Type} (m : M S A) : M (World S) A :=
  fun w =>
    let '(r, s') := m (persistent w) in
    (r, mkWorld (disk w) (folders w) s').

(** *** The validator *)

(** Modelled from the spec: an entry escapes the extraction root when its
    normalized path is absolute or starts with a [..] segment (section 4.1,
    step 1, and the glossary entry of zip-slip). *)
Definition escapesRoot (entryName : string) : bool :=
  let normalized := Path.normalize entryName in
  Path.isAbsolute normalized
  || String.eqb normalized ".."
  || startsWith "../" normalized.

Section Validator.

(** The configured ceilings, and the issues that steps 2 to 5 of the
    validation accumulate for an archive. *)
Context (maxFileSize maxTotalSize : Z).
Context (issues : list Entry -> bool -> bool -> list ValidationIssue).

(** Modelled from the spec: [PackageValidator.validatePackage], of which the
    sources at hand have only the call.  Section 4.1: an entry that escapes the
    extraction root, or a size over the ceiling, is fatal and stops the
    validation at once with a structural error; the issues of the remaining
    steps are accumulated and the package is rejected wholesale when there is
    any. *)
Definition validatePackage (archive : list Entry) (checkLibraries checkContent : bool)
  : outcome unit :=
  if existsb (fun entry => escapesRoot (fileName entry)) archive then
    Throw (mkException StructuralError
             "The package contains a path outside of the extraction root.")
  else if existsb (fun entry => maxFileSize <? uncompressedSize entry) archive
          || (maxTotalSize <? fold_right Z.add 0 (map uncompressedSize archive)) then
    Throw (mkException StructuralError "The package or one of its files is too large.")
  else
    match issues archive checkLibraries checkContent with
    | [] => Ok tt
    | found => Throw (mkException ValidationError (join nl (map issue_message found)))
    end.

End Validator.

(** *** The package manager *)

Record ExtractOptions := mkExtract {
  includeLibraries : bool;
  includeContent : bool;
  includeMetadata : bool
}.

(** The condition under which [extractPackage] writes an entry. *)
Definition extracted (options : ExtractOptions) (entry : Entry) : bool :=
  let basename := Path.basename (fileName entry) in
  negb (startsWith "." basename)
  && negb (startsWith "_" basename)
  && ((includeContent options && startsWith "content/" (fileName entry))
      || (includeLibraries options
          && includes "/" (fileName entry)
          && negb (startsWith "content/" (fileName entry)))
      || (includeMetadata options && String.eqb (fileName entry) "h5p.json")).

(** The path of [file] relative to the directory [directory], when [file] is
    below it. *)
Definition below (directory file : string) : option string :=
  stripPrefix (directory +:+ "/") file.

Definition isFile {S : Type} (p : string) (w : World S) : bool :=
  match disk w !! p with
  | Some _ => true
  | None => false
  end.

Definition isFolder {S : Type} (p : string) (w : World S) : bool :=
  bool_decide (p ∈ folders w).

(** The directories from the first name of a path down to the path itself:
    [/a] and [/a/b] for [/a/b]. *)
Definition lineage (p : string) : list string :=
  let segments := split_on "/" p in
  List.filter (fun q => negb (Path.isEmpty q))
    (map (fun n => join "/" (firstn n segments)) (seq 1 (length segments))).

(** [fsExtra.mkdirp(p)]: the directory and those above it are created unless
    they are there; a file in the way is an error. *)
Definition mkdirp {S : Type} (p : string) : M (World S) unit :=
  fun w =>
    match List.find (fun q => isFile q w) (lineage p) with
    | Some q =>
        (Throw (mkException PlainError
                  ((if String.eqb q p then "EEXIST: file already exists, mkdir '"
                    else "ENOTDIR: not a directory, mkdir '") +:+ p +:+ "'")), w)
    | None =>
        (Ok tt, mkWorld (disk w) (folders w ∪ list_to_set (lineage p)) (persistent w))
    end.

(** [fsExtra.createWriteStream(p)] with [promisepipe]: the file is opened in
    its directory, which has to be there, and written.  A path that names a
    directory, or ends with a slash, cannot be opened as a file. *)
Definition writeFile {S : Type} (p : string) (data : FileData) : M (World S) unit :=
  fun w =>
    if isFolder p w || Ascii.eqb (last_char " " p) "/" then
      (Throw (mkException PlainError
                ("EISDIR: illegal operation on a directory, open '" +:+ p +:+ "'")), w)
    else if isFolder (Path.dirname p) w then
      (Ok tt, mkWorld (<[p := data]> (disk w)) (folders w) (persistent w))
    else if isFile (Path.dirname p) w then
      (Throw (mkException PlainError
                ("ENOTDIR: not a directory, open '" +:+ p +:+ "'")), w)
    else
      (Throw (mkException PlainError
                ("ENOENT: no such file or directory, open '" +:+ p +:+ "'")), w).

(** [PackageManager.extractPackage]: [walkEntries] reads the entries one after
    the other and waits for the callback of each. *)
Fixpoint extractPackage {S : Type} (archive : list Entry) (directoryPath : string)
    (options : ExtractOptions) : M (World S) unit :=
  match archive with
  | [] => ret tt
  | next :: rest =>
      let* entry := read (fun _ => readEntry next) in
      (if extracted options entry then
         let writePath := Path.join2 directoryPath (fileName entry) in
         mkdirp (Path.dirname writePath) >>
         writeFile writePath (contents entry)
       else ret tt) >>
      extractPackage rest directoryPath options
  end.

(** What is below [directory], by relative path. *)
Definition directoryAt {S : Type} (w : World S) (directory : string) : Directory :=
  omap (fun kv => match below directory (fst kv) with
                  | Some relative => Some (relative, File (snd kv))
                  | None => None
                  end)
       (map_to_list (disk w))
  ++ omap (fun k => match below directory k with
                    | Some relative => Some (relative, Folder)
                    | None => None
                    end)
          (elements (folders w)).

Fixpoint dedup_names (names : list string) : list string :=
  match names with
  | [] => []
  | x :: rest =>
      if existsb (String.eqb x) rest then dedup_names rest else x :: dedup_names rest
  end.

(** [fsExtra.readdir(directory)]: the names right below [directory]. *)
Definition readdir {S : Type} (directory : string) : M (World S) (list string) :=
  fun w =>
    if isFolder directory w then
      (Ok (dedup_names
             (map (fun f => List.hd "" (split_on "/" (fst f)))
                  (directoryAt w directory))), w)
    else if isFile directory w then
      (Throw (mkException PlainError
                ("ENOTDIR: not a directory, scandir '" +:+ directory +:+ "'")), w)
    else
      (Throw (mkException PlainError
                ("ENOENT: no such file or directory, scandir '" +:+ directory +:+ "'")), w).

(** [fsExtra.remove(p)]: a directory goes with all that is below it, a file
    alone; nothing happens when the path names nothing. *)
Definition remove {S : Type} (p : string) : M (World S) unit :=
  fun w =>
    if isFolder p w then
      (Ok tt,
       mkWorld
         (list_to_map
            (List.filter (fun kv => match below p (fst kv) with
                                    | Some _ => false
                                    | None => true
                                    end)
                         (map_to_list (disk w))))
         (filter (fun q => q <> p /\ below p q = None) (folders w))
         (persistent w))
    else (Ok tt, mkWorld (delete p (disk w)) (folders w) (persistent w)).

(** [dir()] of tmp-promise makes a new directory and returns its path. *)
Definition dir {S : Type} (tempDirPath : string) : M (World S) string :=
  fun w => (Ok tempDirPath, mkWorld (disk w) (folders w ∪ {[tempDirPath]}) (persistent w)).

(** [try { body } catch (error) { throw error } finally { cleanup }] *)
Definition try_finally {S A : Type} (body : M S A) (cleanup : M S unit) : M S A :=
  fun s =>
    let '(r, s1) := body s in
    match cleanup s1 with
    | (Ok _, s2) => (r, s2)
    | (Throw e, s2) => (Throw e, s2)
    end.

Section Manager.

Context {S : Type}.
(** The library manager of the constructor. *)
Context (libraryStorage : LibraryManager.Storage.t S).
Context (sort : list InstalledLibrary -> list InstalledLibrary).
(** The validator's configuration. *)
Context (maxFileSize maxTotalSize : Z).
Context (issues : list Entry -> bool -> bool -> list ValidationIssue).
(** [contentManager.copyContentFromDirectory], when a content manager was
    given to the constructor; the content manager is not among the sources. *)
Context (copyContentFromDirectory :
           option (Directory -> option ContentId -> M S ContentId)).
(** The path of the directory [dir()] of tmp-promise creates. *)
Context (tempDirPath : string).

(** [PackageManager.processPackage]; [None] is [undefined]. *)
Definition processPackage (packagePath : list Entry)
    (installLibraries copyContent : bool) (contentId : option ContentId)
  : M (World S) (option ContentId) :=
  try_catch
    (read (fun _ => validatePackage maxFileSize maxTotalSize issues packagePath false true) >>
     let* tempDirPath := dir tempDirPath in
     try_finally
       (extractPackage packagePath tempDirPath
          (mkExtract installLibraries copyContent copyContent) >>
        let* dirContent := readdir tempDirPath in
        (if installLibraries then
           promise_all
             (map (fun dirEntry =>
                     fun w =>
                       onStorage
                         (LibraryManager.installFromDirectory libraryStorage sort
                            (directoryAt w (Path.join2 tempDirPath dirEntry))
                            false) w)
                  (List.filter
                     (fun dirEntry => negb (String.eqb dirEntry "h5p.json")
                                      && negb (String.eqb dirEntry "content"))
                     dirContent)) >> ret tt
         else ret tt) >>
        (if copyContent then
           match copyContentFromDirectory with
           | None =>
               throw (mkException PlainError
                        ("PackageManager was initialized with a ContentManager, "
                         +:+ "but you want to copy content from a package. "
                         +:+ "Pass a ContentManager object to the the constructor!"))
           | Some copy =>
               let* newContentId :=
                 (fun w => onStorage (copy (directoryAt w tempDirPath) contentId) w) in
               ret (Some newContentId)
           end
         else ret None))
       (remove tempDirPath))
    (fun error =>
       match ex_class error with
       | ValidationError => throw (mkException H5pError (ex_message error))
       | _ => throw error
       end).

Definition installLibrariesFromPackage (packagePath : list Entry)
  : M (World S) (option ContentId) :=
  processPackage packagePath true false None.

Definition addPackageLibrariesAndContent (packagePath : list Entry)
    (canUpdateAndInstallLibraries : bool) (contentId : option ContentId)
  : M (World S) (option ContentId) :=
  processPackage packagePath canUpdateAndInstallLibraries true contentId.

End Manager.

End PackageManager.

(** ** A storage in memory *)

Module MemoryStorage.

(** Modelled from the spec: the Library Storage contract of section 6 (identity
    lookup, installation lifecycle, file lifecycle), as a map from the directory
    name of a library to its files.  The storage backends of the repository are
    not among the sources; this one instantiates the interface where a
    statement is evaluated. *)
Record Library := mkLibrary {
  lib_name : ILibraryName;
  lib_id : Z;
  lib_restricted : bool;
  lib_files : gmap string FileData
}.

Definition key (library : ILibraryName) : string := toDirName library.

(** The descriptor as the storage writes it. *)
Definition descriptor (metadata : ILibraryMetadata) : FileData :=
  mkFile "library.json" (Some metadata).

Definition notInstalled (library : ILibraryName) : Exception :=
  mkException StorageError ("Library " +:+ key library +:+ " is not installed.").

Definition getId (library : ILibraryName) (s : gmap string Library)
  : outcome (option Z) :=
  Ok (lib_id <$> s !! key library).

Definition getInstalled (machineNames : list string) (s : gmap string Library)
  : outcome (list ILibraryName) :=
  Ok (List.filter
        (fun l => match machineNames with
                  | [] => true
                  | _ => existsb (String.eqb (machineName l)) machineNames
                  end)
        (map (fun kv => lib_name (snd kv)) (map_to_list s))).

Definition getFileStream (library : ILibraryName) (file : string)
    (s : gmap string Library) : outcome FileData :=
  match s !! key library with
  | Some lib =>
      match lib_files lib !! file with
      | Some data => Ok data
      | None => Throw (mkException StorageError ("ENOENT: " +:+ file))
      end
  | None => Throw (notInstalled library)
  end.

Definition fileExists (library : ILibraryName) (file : string)
    (s : gmap string Library) : outcome bool :=
  Ok match s !! key library with
     | Some lib => match lib_files lib !! file with Some _ => true | None => false end
     | None => false
     end.

Definition installLibrary (metadata : ILibraryMetadata) (restricted : bool)
  : M (gmap string Library) IInstalledLibrary :=
  fun s =>
    match s !! key (name metadata) with
    | Some _ =>
        (Throw (mkException StorageError
                  ("Library " +:+ key (name metadata) +:+ " has already been installed.")), s)
    | None =>
        let id := Z.of_nat (String.length (key (name metadata))) in
        (Ok (mkLoaded metadata (Some id) restricted),
         <[key (name metadata) :=
             mkLibrary (name metadata) id restricted
               {["library.json" := descriptor metadata]}]> s)
    end.

Definition updateLibrary (metadata : ILibraryMetadata)
  : M (gmap string Library) unit :=
  fun s =>
    match s !! key (name metadata) with
    | Some lib =>
        (Ok tt,
         <[key (name metadata) :=
             mkLibrary (lib_name lib) (lib_id lib) (lib_restricted lib)
               (<["library.json" := descriptor metadata]> (lib_files lib))]> s)
    | None => (Throw (notInstalled (name metadata)), s)
    end.

Definition removeLibrary (library : ILibraryName) : M (gmap string Library) unit :=
  fun s =>
    match s !! key library with
    | Some _ => (Ok tt, delete (key library) s)
    | None => (Throw (notInstalled library), s)
    end.

(** Every file but the descriptor goes. *)
Definition clearLibraryFiles (library : ILibraryName) : M (gmap string Library) unit :=
  fun s =>
    match s !! key library with
    | Some lib =>
        (Ok tt,
         <[key library :=
             mkLibrary (lib_name lib) (lib_id lib) (lib_restricted lib)
               (match lib_files lib !! "library.json" with
                | Some d => {["library.json" := d]}
                | None => ∅
                end)]> s)
    | None => (Throw (notInstalled library), s)
    end.

Definition addFile (library : ILibraryName) (file : string) (data : FileData)
  : M (gmap string Library) bool :=
  fun s =>
    match s !! key library with
    | Some lib =>
        if includes ".." file then
          (Throw (mkException StorageError
                    "Relative paths in filenames are not allowed."), s)
        else
          (Ok true,
           <[key library :=
               mkLibrary (lib_name lib) (lib_id lib) (lib_restricted lib)
                 (<[file := data]> (lib_files lib))]> s)
    | None => (Throw (notInstalled library), s)
    end.

(** The stream is piped into the file: a stream that fails leaves no file
    and its error is that of the call. *)
Definition addLibraryFile (library : ILibraryName) (file : string) (stream : Readable)
  : M (gmap string Library) bool :=
  match stream with
  | Delivers data => addFile library file data
  | Fails error => throw error
  end.

(** The store behind the interface the library manager calls. *)
Definition storage : LibraryManager.Storage.t (gmap string Library) :=
  LibraryManager.Storage.mk _ getId getInstalled getFileStream fileExists
    installLibrary updateLibrary removeLibrary clearLibraryFiles addLibraryFile.



(** The scenario of the spec, section 8: [H5P.Test-1.0]. *)
Definition H5P_Test : ILibraryName := mkLibraryName "H5P.Test" 1 0.

Definition h5pTest (patch : Z) : ILibraryMetadata :=
  mkMetadata H5P_Test patch true "Test"
    (Some [mkPath "main.js"]) (Some [mkPath "main.css"]).

Definition script : FileData := mkFile "H5P.Test = {};" None.
Definition style : FileData := mkFile ".h5p-test {}" None.

(** A complete directory of patch 1, and one of patch 2 that lacks
    [main.css]. *)
Definition directory1 : Directory :=
  [("library.json", File (descriptor (h5pTest 1))); ("main.js", File script);
   ("main.css", File style)].

Definition directory2 : Directory :=
  [("library.json", File (descriptor (h5pTest 2))); ("main.js", File script)].

(** A directory with a file that has no extension. *)
Definition directory3 : Directory :=
  [("library.json", File (descriptor (h5pTest 1))); ("main.js", File script);
   ("main.css", File style); ("LICENSE", File (mkFile "MIT" None))].

Definition unsorted (l : list InstalledLibrary) : list InstalledLibrary := l.

(** The store after [directory1] has been installed into the empty one. *)
Definition installed1 : gmap string Library :=
  snd (LibraryManager.installFromDirectory storage unsorted directory1 false ∅).

(** The store right after the storage has reserved [H5P.Test-1.0], before
    any file is copied. *)
Definition reserved1 : gmap string Library :=
  snd (installLibrary (h5pTest 1) false ∅).






(** *** The same store behind the decorator's interface *)

Definition getFileAsJson (library : ILibraryName) (file : string)
    (s : gmap string Library) : outcome ILibraryMetadata :=
  match getFileStream library file s with
  | Ok data =>
      match json data with
      | Some j => Ok j
      | None => Throw (mkException SyntaxError "Unexpected token in JSON")
      end
  | Throw e => Throw e
  end.

Definition getFileAsString (library : ILibraryName) (file : string)
    (s : gmap string Library) : outcome string :=
  match getFileStream library file s with
  | Ok data => Ok (text data)
  | Throw e => Throw e
  end.

Definition getInstalledLibraryNames (machineName : option string)
    (s : gmap string Library) : outcome (list ILibraryName) :=
  getInstalled (match machineName with Some m => [m] | None => [] end) s.

(** [de] for [language/de.json]. *)
Definition languageCode (file : string) : option string :=
  match stripPrefix "language/" file with
  | Some rest =>
      match stripPrefix (String.rev ".json") (String.rev rest) with
      | Some code => if includes "/" code then None else Some (String.rev code)
      | None => None
      end
  | None => None
  end.

Definition listFiles (library : ILibraryName) (s : gmap string Library)
  : outcome (list string) :=
  match s !! key library with
  | Some lib => Ok (map fst (map_to_list (lib_files lib)))
  | None => Throw (notInstalled library)
  end.

(** Modelled from the spec: the translations of a library are its files
    [language/<code>.json] (section 6, package format); the storage lists
    their codes. *)
Definition getLanguages (library : ILibraryName) (s : gmap string Library)
  : outcome (list string) :=
  match listFiles library s with
  | Ok files => Ok (omap languageCode files)
  | Throw e => Throw e
  end.

Definition getLibrary (library : ILibraryName) (s : gmap string Library)
  : outcome IInstalledLibrary :=
  match s !! key library with
  | Some lib =>
      match getFileAsJson library "library.json" s with
      | Ok metadata => Ok (mkLoaded metadata (Some (lib_id lib)) (lib_restricted lib))
      | Throw e => Throw e
      end
  | None => Throw (notInstalled library)
  end.

Definition isInstalled (library : ILibraryName) (s : gmap string Library)
  : outcome bool :=
  Ok match s !! key library with Some _ => true | None => false end.

Definition updateAdditionalMetadata (library : ILibraryName)
    (additional : CachedLibraryStorage.IAdditionalLibraryMetadata)
  : M (gmap string Library) bool :=
  fun s =>
    match s !! key library, CachedLibraryStorage.setRestricted additional with
    | Some lib, Some r =>
        (Ok (negb (Bool.eqb r (lib_restricted lib))),
         <[key library := mkLibrary (lib_name lib) (lib_id lib) r (lib_files lib)]> s)
    | Some _, None => (Ok false, s)
    | None, _ => (Throw (notInstalled library), s)
    end.

Definition updateInstalled (metadata : ILibraryMetadata)
  : M (gmap string Library) IInstalledLibrary :=
  updateLibrary metadata >> read (getLibrary (name metadata)).

(** The backend has no [listAddons]. *)
Definition cachedStorage : CachedLibraryStorage.Storage.t (gmap string Library) :=
  CachedLibraryStorage.Storage.mk _ addFile installLibrary clearLibraryFiles
    removeLibrary fileExists getFileAsJson getFileAsString getInstalledLibraryNames
    getLanguages getLibrary isInstalled None listFiles updateAdditionalMetadata
    updateInstalled.

(** [H5P.Test-1.0] with a German translation, behind an empty cache. *)
Definition translated : gmap string Library :=
  snd (addFile H5P_Test "language/de.json" (mkFile "semantics: []" None)
         installed1).

Definition cold : CachedLibraryStorage.State (gmap string Library) :=
  CachedLibraryStorage.mkState translated ∅ [].

(** The cache once the languages of [H5P.Test-1.0] have been asked for. *)
Definition warm : CachedLibraryStorage.State (gmap string Library) :=
  snd (CachedLibraryStorage.getLanguages cachedStorage H5P_Test cold).

End MemoryStorage.

(** ** Paths that need no resolving *)

Module Resolved.

(** A segment that [path.normalize] keeps as it is: a name, not empty and
    neither [.] nor [..]. *)
Definition plain (segment : string) : bool :=
  negb (Path.isEmpty segment)
  && negb (String.eqb segment ".")
  && negb (String.eqb segment "..")
  && every (fun c => negb (Ascii.eqb c "/")) segment.

Definition slashFree (segment : string) : Prop :=
  every (fun c => negb (Ascii.eqb c "/")) segment = true.

(** The absolute path of the given segments, like [/tmp/tmp-1]. *)
Definition absolutePath (segments : list string) : string :=
  "/" +:+ join "/" segments.

End Resolved.

(** ** What the proofs about the package manager speak of *)

Module Frame.

(** A step that leaves the disk alone, files and directories. *)
Definition keeps_disk {S A : Type} (m : M (PackageManager.World S) A) : Prop :=
  forall w, PackageManager.disk (snd (m w)) = PackageManager.disk w
            /\ PackageManager.folders (snd (m w)) = PackageManager.folders w.

(** A step that leaves the persistent storage alone. *)
Definition keeps_storage {S A : Type} (m : M (PackageManager.World S) A) : Prop :=
  forall w, PackageManager.persistent (snd (m w)) = PackageManager.persistent w.

(** A step that removes no directory. *)
Definition keeps_folders {S A : Type} (m : M (PackageManager.World S) A) : Prop :=
  forall w p, PackageManager.isFolder p w = true ->
              PackageManager.isFolder p (snd (m w)) = true.

(** A step that leaves the file at [p] as it is. *)
Definition keeps_file {S A : Type} (p : string) (m : M (PackageManager.World S) A)
  : Prop :=
  forall w, PackageManager.disk (snd (m w)) !! p = PackageManager.disk w !! p.

End Frame.

(** ** Library names as H5P has them *)

Module WellFormed.

(** A version number: an integer that is not negative and that a number holds
    exactly (a safe integer). *)
Definition version (x : number) : bool :=
  match x with
  | Finite z => (0 <=? z) && (z <=? MAX_SAFE_INTEGER)
  | Infinity | NegInfinity => false
  end.

(** A machine name is not empty and has neither white space nor a slash in
    it; the versions are version numbers. *)
Definition wellFormed (library : ILibraryName) : bool :=
  negb (Path.isEmpty (machineName library))
  && every (fun c => not_space c && negb (Ascii.eqb c "/")) (machineName library)
  && version (majorVersion library)
  && version (minorVersion library).

End WellFormed.

(** ** The usages of the keys about a library's metadata *)

Module KeyUsages.

Definition usages : list string :=
  [CachedLibraryStorage.METADATA_CACHE_KEY;
   CachedLibraryStorage.LANGUAGES_CACHE_KEY;
   CachedLibraryStorage.LIBRARY_IS_INSTALLED_CACHE_KEY].

End KeyUsages.

(** ** More scenarios on the storage in memory *)

Module Scenarios.

Import MemoryStorage.

(** [H5P.Test-1.0] installed, its descriptor overwritten with text that is
    no JSON. *)
Definition unreadable : gmap string Library :=
  snd (addFile H5P_Test "library.json" (mkFile "{" None) installed1).

(** The package of [H5P.Test-1.0]. *)
Definition package : list PackageManager.Entry :=
  [PackageManager.mkEntry "h5p.json" 10 (mkFile "mainLibrary: H5P.Test" None);
   PackageManager.mkEntry "H5P.Test-1.0/library.json" 10 (descriptor (h5pTest 1));
   PackageManager.mkEntry "H5P.Test-1.0/main.js" 10 script;
   PackageManager.mkEntry "H5P.Test-1.0/main.css" 10 style].

(** A validator that finds nothing, and one that misses [h5p.json]. *)
Definition noIssues (archive : list PackageManager.Entry) (checkLibraries checkContent : bool)
  : list PackageManager.ValidationIssue := [].

Definition oneIssue (archive : list PackageManager.Entry) (checkLibraries checkContent : bool)
  : list PackageManager.ValidationIssue :=
  [PackageManager.mkIssue "missing-file" "h5p.json" "The package has no h5p.json."].

Definition emptyWorld : PackageManager.World (gmap string Library) :=
  PackageManager.mkWorld ∅ ∅ ∅.

(** A library named like the key of the list of installed libraries, and a
    cache that holds its languages. *)
Definition namesake : ILibraryName := mkLibraryName "installed-library-names-X" 1 0.

Definition namesakeCached : CachedLibraryStorage.State (gmap string Library) :=
  CachedLibraryStorage.mkState ∅
    {[ CachedLibraryStorage.getCacheKeyForMetadata namesake
         CachedLibraryStorage.LANGUAGES_CACHE_KEY
       := CachedLibraryStorage.VStrings ["de"] ]}
    [].

End Scenarios.

(** ** fs-extra, on a disk with directories *)

Module FsExtra.

(** The [expiresAt] of an object that [JSON.parse] has read: a number,
    [null], or nothing ([undefined]). *)
Inductive ExpiresAt :=
| Time (t : Z)
| Null
| Missing.

(** A [Date]: its time value in milliseconds, [None] for an invalid date
    (the time value is NaN). *)
Definition Date : Type := option Z.

(** The time value of a [Date] object is one that TimeClip accepts. *)
Definition isDate (date : Date) : bool :=
  match date with
  | Some t => Z.abs t <=? 8640000000000000
  | None => true
  end.

(** TimeClip: a time value is at most 8.64e15 milliseconds from the epoch. *)
Definition timeClip (t : Z) : Date :=
  if Z.abs t <=? 8640000000000000 then Some t else None.

(** [new Date(v)]: [null] is the number 0, [undefined] is NaN. *)
Definition newDate (v : ExpiresAt) : Date :=
  match v with
  | Time t => timeClip t
  | Null => Some 0
  | Missing => None
  end.

(** [date.getTime()] as [JSON.stringify] writes it: NaN is written as
    [null]. *)
Definition getTime (date : Date) : ExpiresAt :=
  match date with
  | Some t => Time t
  | None => Null
  end.

(** What a file holds: its bytes and, as far as the sources look at it, what
    [JSON.parse] makes of them: [Some e] for an object whose [expiresAt] is
    [e], [None] for text that is no JSON. *)
Record Content := mkContent {
  bytes : string;
  parsed : option ExpiresAt
}.

(** A place on the disk: the names from the root down. *)
Definition Location : Type := list string.

Record Disk := mkDisk {
  files : gmap Location Content;
  directories : gset Location
}.

(** How the operating system finds the place of a path: segment by segment,
    [.] and an empty segment staying where they are, [..] going up (not above
    the root).  A relative path starts at the working directory, which is
    taken to be the root; there are no links, and a slash at the end of a
    path is not told apart (it matters only where the path names a file). *)
Definition locate (p : string) : Location :=
  Path.normalizeArray (split_on "/" p) false [].

Definition isDirectory (loc : Location) (d : Disk) : bool :=
  match loc with
  | [] => true
  | _ => bool_decide (loc ∈ directories d)
  end.

Definition isFile (loc : Location) (d : Disk) : bool :=
  match files d !! loc with
  | Some _ => true
  | None => false
  end.

Definition ENOENT (p : string) : Exception :=
  mkException PlainError ("ENOENT: no such file or directory, " +:+ p).
Definition ENOTDIR (p : string) : Exception :=
  mkException PlainError ("ENOTDIR: not a directory, " +:+ p).
Definition EISDIR (p : string) : Exception :=
  mkException PlainError ("EISDIR: illegal operation on a directory, " +:+ p).
Definition EEXIST (p : string) : Exception :=
  mkException PlainError ("EEXIST: file already exists, " +:+ p).
Definition ENOTEMPTY (p : string) : Exception :=
  mkException PlainError ("ENOTEMPTY: directory not empty, " +:+ p).

(** The places from the first name of [loc] down to [loc] itself. *)
Fixpoint prefixes (loc : Location) : list Location :=
  match loc with
  | [] => []
  | x :: rest => [x] :: map (cons x) (prefixes rest)
  end.

(** [loc] without its first names [base], when it is at or below [base]. *)
Fixpoint after (base loc : Location) : option Location :=
  match base, loc with
  | [], _ => Some loc
  | x :: base', y :: loc' => if String.eqb x y then after base' loc' else None
  | _ :: _, [] => None
  end.

(** The name of [loc] in the directory [base], when it is right below it. *)
Definition childName (base loc : Location) : option string :=
  match after base loc with
  | Some [n] => Some n
  | _ => None
  end.

(** The names in a directory, in the order the disk lists them. *)
Definition children (loc : Location) (d : Disk) : list string :=
  omap (childName loc) ((map_to_list (files d)).*1 ++ elements (directories d)).

(** [fsExtra.pathExists(p)] *)
Definition pathExists (p : string) (d : Disk) : outcome bool :=
  Ok (isDirectory (locate p) d || isFile (locate p) d).

(** [fsExtra.ensureDir(p)]: the directory and those above it are created
    unless they exist; a file in the way is an error. *)
Definition ensureDir (p : string) : M Disk unit :=
  fun d =>
    if existsb (fun loc => isFile loc d) (prefixes (locate p)) then
      (Throw (EEXIST p), d)
    else
      (Ok tt, mkDisk (files d) (directories d ∪ list_to_set (prefixes (locate p)))).

(** Writing a file ([createWriteStream] and [promisepipe], [writeJSON]): the
    directory of the file has to exist. *)
Definition writeFile (p : string) (content : Content) : M Disk unit :=
  fun d =>
    let loc := locate p in
    if isDirectory loc d then (Throw (EISDIR p), d)
    else if isDirectory (removelast loc) d then
      (Ok tt, mkDisk (<[loc := content]> (files d)) (directories d))
    else if isFile (removelast loc) d then (Throw (ENOTDIR p), d)
    else (Throw (ENOENT p), d).

(** [fsExtra.remove(p)]: the file, or the directory with all that is below
    it; nothing happens when there is none. *)
Definition remove (p : string) : M Disk unit :=
  fun d =>
    let loc := locate p in
    (Ok tt,
     mkDisk (filter (fun kv => ~ loc `prefix_of` fst kv) (files d))
            (filter (fun k => ~ loc `prefix_of` k) (directories d))).

(** [fsExtra.readdir(p)] *)
Definition readdir (p : string) (d : Disk) : outcome (list string) :=
  let loc := locate p in
  if isDirectory loc d then Ok (children loc d)
  else if isFile loc d then Throw (ENOTDIR p)
  else Throw (ENOENT p).

(** [fsExtra.rmdir(p)] *)
Definition rmdir (p : string) : M Disk unit :=
  fun d =>
    let loc := locate p in
    if isDirectory loc d then
      match children loc d with
      | [] => (Ok tt, mkDisk (files d) (directories d ∖ {[loc]}))
      | _ => (Throw (ENOTEMPTY p), d)
      end
    else if isFile loc d then (Throw (ENOTDIR p), d)
    else (Throw (ENOENT p), d).

(** A readable stream: what it delivers, or the error it emits when read. *)
Inductive ReadStream :=
| Delivering (content : Content)
| Failing (error : Exception).

(** [fsExtra.createReadStream(p)]: the stream is created in any case. *)
Definition createReadStream (p : string) (d : Disk) : ReadStream :=
  match files d !! locate p with
  | Some content => Delivering content
  | None =>
      if isDirectory (locate p) d then Failing (EISDIR p) else Failing (ENOENT p)
  end.

(** [fsExtra.readJSON(p)]: the [expiresAt] of the object in the file. *)
Definition readJSON (p : string) (d : Disk) : outcome ExpiresAt :=
  match files d !! locate p with
  | Some content =>
      match parsed content with
      | Some object => Ok object
      | None => Throw (mkException SyntaxError "Unexpected token in JSON")
      end
  | None => if isDirectory (locate p) d then Throw (EISDIR p) else Throw (ENOENT p)
  end.

Definition quote : string := String (ascii_of_nat 34) "".

(** [fsExtra.writeJSON(p, { expiresAt })] *)
Definition writeJSON (p : string) (expiresAt : ExpiresAt) : M Disk unit :=
  writeFile p
    (mkContent (match expiresAt with
                | Time t =>
                    "{" +:+ quote +:+ "expiresAt" +:+ quote +:+ ":"
                    +:+ number_to_string t +:+ "}" +:+ nl
                | Null =>
                    "{" +:+ quote +:+ "expiresAt" +:+ quote +:+ ":null}" +:+ nl
                | Missing => "{}" +:+ nl
                end)
       (Some expiresAt)).

(** [path.join(...parts)] *)
Definition joinAll (parts : list string) : string :=
  let joined :=
    join "/" (List.filter (fun part => negb (Path.isEmpty part)) parts) in
  if Path.isEmpty joined then "." else Path.normalize joined.

(** [s.endsWith(suffix)] *)
Fixpoint endsWith (suffix s : string) : bool :=
  String.eqb suffix s ||
  match s with
  | EmptyString => false
  | String _ s' => endsWith suffix s'
  end.

End FsExtra.

(** A place that is the same on two disks: the same file, or none, and a
    directory on both or on neither. *)
Module Untouched.

Definition sameAt (loc : FsExtra.Location) (d d' : FsExtra.Disk) : Prop :=
  FsExtra.files d' !! loc = FsExtra.files d !! loc
  /\ (loc ∈ FsExtra.directories d' <-> loc ∈ FsExtra.directories d).

(** A step that leaves the place alone, whatever its result. *)
Definition leaves {A : Type} (loc : FsExtra.Location) (m : M FsExtra.Disk A) : Prop :=
  forall d, sameAt loc d (snd (m d)).

End Untouched.

(** ** src/implementation/fs/DirectoryTemporaryFileStorage.ts *)

Module DirectoryTemporaryFileStorage.

Import FsExtra.

(** [IUser], of which the class reads the [id]. *)
Record IUser := mkUser { id : string }.

(** [ITemporaryFile] *)
Record ITemporaryFile := mkTemporaryFile {
  expiresAt : Date;
  filename : string;
  ownedByUserId : string
}.

Section Storage.

(** The directory of the constructor. *)
Context (directory : string).

Definition getAbsoluteFilePath (userId filename : string) : string :=
  joinAll [directory; userId; filename].

Definition getAbsoluteUserDirectoryPath (userId : string) : string :=
  joinAll [directory; userId].

Definition deleteFile (filename userId : string) : M Disk unit :=
  let filePath := getAbsoluteFilePath userId filename in
  remove filePath >>
  remove (filePath +:+ ".metadata") >>
  let directoryPath := getAbsoluteUserDirectoryPath userId in
  let* userFiles := read (readdir directoryPath) in
  if (length userFiles =? 0)%nat then rmdir directoryPath else ret tt.

Definition fileExists (filename : string) (user : IUser) : M Disk bool :=
  let filePath := getAbsoluteFilePath (id user) filename in
  read (pathExists filePath).

Definition getFileStream (filename : string) (user : IUser) : M Disk ReadStream :=
  let filePath := getAbsoluteFilePath (id user) filename in
  let* found := read (pathExists filePath) in
  if negb found then
    throw (mkException H5pError
             ("The file " +:+ filename +:+ " is not accessible for user "
              +:+ id user +:+ " or does not exist."))
  else read (fun d => Ok (createReadStream filePath d)).

Definition getTemporaryFileInfo (filename userId : string) : M Disk ITemporaryFile :=
  let* metadata :=
    read (readJSON (getAbsoluteFilePath userId filename +:+ ".metadata")) in
  ret (mkTemporaryFile (newDate metadata) filename userId).

Definition listFiles (user : option IUser) : M Disk (list ITemporaryFile) :=
  let* users :=
    match user with
    | Some u => ret [id u]
    | None => read (readdir directory)
    end in
  let* perUser :=
    promise_all
      (map (fun u =>
              let* filesOfUser := read (readdir (getAbsoluteUserDirectoryPath u)) in
              promise_all
                (map (fun f => getTemporaryFileInfo f u)
                     (List.filter (fun f => negb (endsWith ".metadata" f))
                                  filesOfUser)))
           users) in
  ret (fold_left (fun prev curr => prev ++ curr) perUser []).

Definition saveFile (filename : string) (dataStream : Content) (user : IUser)
    (expirationTime : Date) : M Disk ITemporaryFile :=
  ensureDir (getAbsoluteUserDirectoryPath (id user)) >>
  let filePath := getAbsoluteFilePath (id user) filename in
  writeFile filePath dataStream >>
  writeJSON (filePath +:+ ".metadata") (getTime expirationTime) >>
  ret (mkTemporaryFile expirationTime filename (id user)).

End Storage.

End DirectoryTemporaryFileStorage.

(** ** Scenarios of the temporary file storage *)

Module TemporaryScenarios.

Import FsExtra DirectoryTemporaryFileStorage.

Definition tempSegments : list string := ["tmp"; "h5p"].

(** The storage works in [/tmp/h5p]. *)
Definition tempDirectory : string := Resolved.absolutePath tempSegments.

Definition picture : Content := mkContent "PNG" None.

Definition emptyDisk : Disk := mkDisk ∅ ∅.

(** The disk after alice has saved [image.png], and after she has deleted it
    again. *)
Definition saved : Disk :=
  snd (saveFile tempDirectory "image.png" picture (mkUser "alice") (Some 1000) emptyDisk).

Definition deleted : Disk :=
  snd (deleteFile tempDirectory "image.png" "alice" saved).

End TemporaryScenarios.

(** ** src/helpers/postCssRemoveRedundantFontUrls.ts: the font that is kept *)

Module RemoveRedundantFontUrls.

(** The default of [fontPreference]. *)
Definition defaultFontPreference : list string :=
  ["woff"; "woff2"; "truetype"; "svg"; "opentype"; "embedded-opentype"].

(** An entry of [fonts]; the node is the index of its [src] declaration. *)
Record Font := mkFont {
  format : string;
  node : nat;
  sourceText : string
}.

(** [fontPreference.indexOf(format)] *)
Fixpoint indexOf (fontPreference : list string) (format : string) : Z :=
  match fontPreference with
  | [] => -1
  | candidate :: rest =>
      if String.eqb candidate format then 0
      else
        let index := indexOf rest format in
        if index =? -1 then -1 else index + 1
  end.

Section Preference.

Context (fontPreference : list string).

(** [index === -1 ? fontPreference.length : index] *)
Definition rank (font : Font) : Z :=
  let index := indexOf fontPreference (format font) in
  if index =? -1 then Z.of_nat (length fontPreference) else index.

(** The compare function given to [sort]. *)
Definition compare (a b : Font) : Z := rank a - rank b.

(** [Array.prototype.sort] is stable (ECMAScript 2019): with a compare
    function that is consistent, as this one is, the result is the one of
    inserting each element in front of the first element that does not
    compare below it. *)
Fixpoint insert (font : Font) (sorted : list Font) : list Font :=
  match sorted with
  | [] => [font]
  | other :: rest =>
      if compare other font <? 0 then other :: insert font rest
      else font :: other :: rest
  end.

Definition sort (fonts : list Font) : list Font := fold_right insert [] fonts.

(** [fonts.sort(...)[0]]; [None] is [undefined]. *)
Definition fontToKeep (fonts : list Font) : option Font :=
  List.hd_error (sort fonts).

End Preference.

Definition scenarioFonts : list Font :=
  [mkFont "embedded-opentype" 0 "url(a.eot),";
   mkFont "woff2" 0 "url(a.woff2) format('woff2'),";
   mkFont "woff" 1 "url(a.woff) format('woff'),";
   mkFont "truetype" 1 "url(a.ttf)"].

End RemoveRedundantFontUrls.

(** * Proofs *)

(** ** Strings *)

Section StringFacts.

Lemma sapp_nil_l (s : string) : "" +:+ s = s.
Proof. reflexivity. Qed.

Lemma sapp_cons (c : ascii) (s t : string) :
  String c s +:+ t = String c (s +:+ t).
Proof. reflexivity. Qed.

Lemma sapp_nil_r (s : string) : s +:+ "" = s.
Proof. induction s as [|c s IH]; [reflexivity|]. now rewrite sapp_cons, IH. Qed.

Lemma sapp_assoc (s t u : string) : (s +:+ t) +:+ u = s +:+ (t +:+ u).
Proof. induction s as [|c s IH]; [reflexivity|]. now rewrite !sapp_cons, IH. Qed.

Lemma sapp_length (s t : string) :
  String.length (s +:+ t) = (String.length s + String.length t)%nat.
Proof.
  induction s as [|c s IH]; [reflexivity|]. rewrite sapp_cons. cbn. now rewrite IH.
Qed.

Lemma sapp_inv_tail (s1 s2 t : string) : s1 +:+ t = s2 +:+ t -> s1 = s2.
Proof.
  revert s2. induction s1 as [|c s1 IH]; intros [|d s2] H;
    rewrite ?sapp_cons, ?sapp_nil_l in H.
  - reflexivity.
  - apply (f_equal String.length) in H. cbn in H. rewrite sapp_length in H. lia.
  - apply (f_equal String.length) in H. cbn in H. rewrite sapp_length in H. lia.
  - injection H as -> H. f_equal. now apply IH.
Qed.

Lemma every_app (p : ascii -> bool) (s t : string) :
  every p (s +:+ t) = every p s && every p t.
Proof.
  induction s as [|c s IH]; [reflexivity|]. rewrite sapp_cons. cbn. rewrite IH.
  now rewrite andb_assoc.
Qed.

End StringFacts.

(** Push appends under the leading characters of literal prefixes. *)
Ltac snorm := repeat (progress rewrite ?sapp_cons, ?sapp_nil_l).
Ltac snorm_in H := repeat (progress rewrite ?sapp_cons, ?sapp_nil_l in H).

(** ** Decimal printing and parsing *)

Section Decimal.

Lemma digit_char_spec (d : N) :
  (d < 10)%N -> is_digit (digit_char d) = true /\ digit_value (digit_char d) = d.
Proof.
  intros Hd.
  assert (d = 0 \/ d = 1 \/ d = 2 \/ d = 3 \/ d = 4 \/ d = 5 \/ d = 6 \/ d = 7
          \/ d = 8 \/ d = 9)%N as Hc by lia.
  repeat (destruct Hc as [-> | Hc]; [split; reflexivity|]).
  subst d. split; reflexivity.
Qed.

Lemma is_digit_ordinary (c : ascii) :
  is_digit c = true ->
  is_space c = false /\ Ascii.eqb c "-" = false /\ Ascii.eqb c "+" = false
  /\ Ascii.eqb c "." = false.
Proof.
  destruct c as [[] [] [] [] [] [] [] []]; vm_compute; intros H;
    first [discriminate H | repeat split; reflexivity].
Qed.

Lemma N_to_string_aux_digits (fuel : nat) (n : N) (acc : string) :
  every is_digit acc = true -> every is_digit (N_to_string_aux fuel n acc) = true.
Proof.
  revert n acc. induction fuel as [|f IH]; intros n acc Hacc; cbn.
  - rewrite Hacc, andb_true_r. apply digit_char_spec, N.mod_lt. lia.
  - assert (every is_digit (String (digit_char (n mod 10)) acc) = true) as H.
    { cbn. rewrite Hacc, andb_true_r. apply digit_char_spec, N.mod_lt. lia. }
    destruct (n <? 10)%N; [exact H|]. now apply IH.
Qed.

Lemma N_to_string_aux_nonempty (fuel : nat) (n : N) (acc : string) :
  N_to_string_aux fuel n acc <> "".
Proof.
  revert n acc. induction fuel as [|f IH]; intros n acc; cbn; [discriminate|].
  destruct (n <? 10)%N; [discriminate|]. apply IH.
Qed.

Lemma N_to_string_aux_value (fuel : nat) (n : N) (acc : string) :
  (n < 10 * 2 ^ N.of_nat fuel)%N ->
  digits_value 0 (N_to_string_aux fuel n acc) = digits_value n acc.
Proof.
  revert n acc. induction fuel as [|f IH]; intros n acc Hn.
  - cbn [N_to_string_aux digits_value]. change (2 ^ N.of_nat 0)%N with 1%N in Hn.
    assert (n mod 10 = n)%N as -> by (apply N.mod_small; lia).
    destruct (digit_char_spec n) as [-> ->]; [lia|]. f_equal.
  - cbn [N_to_string_aux]. destruct (N.ltb_spec n 10) as [Hlt|Hge].
    + cbn [digits_value].
      assert (n mod 10 = n)%N as -> by (apply N.mod_small; lia).
      destruct (digit_char_spec n) as [-> ->]; [lia|]. f_equal.
    + rewrite IH.
      * cbn [digits_value].
        destruct (digit_char_spec (n mod 10)) as [-> ->];
          [apply N.mod_lt; lia|].
        f_equal. pose proof (N.div_mod n 10). lia.
      * rewrite Nat2N.inj_succ, N.pow_succ_r' in Hn.
        assert (n / 10 < 2 * 2 ^ N.of_nat f)%N
          by (apply N.Div0.div_lt_upper_bound; lia).
        lia.
Qed.

Lemma N_to_string_digits (n : N) :
  every is_digit (N_to_string n) = true /\ N_to_string n <> ""
  /\ digits_value 0 (N_to_string n) = n.
Proof.
  unfold N_to_string. split; [|split].
  - now apply N_to_string_aux_digits.
  - apply N_to_string_aux_nonempty.
  - rewrite N_to_string_aux_value; [reflexivity|].
    rewrite N2Nat.id. destruct (N.eq_dec n 0%N) as [->|Hn]; [reflexivity|].
    pose proof (N.log2_spec n ltac:(lia)) as [_ Hlt].
    rewrite N.pow_succ_r' in Hlt. lia.
Qed.

(** [parseInt] of a non-empty string of digits is its decimal value, as a
    number. *)
Lemma parseInt_digits (s : string) :
  every is_digit s = true -> s <> "" ->
  parseInt s = Some (toNumber (Z.of_N (digits_value 0 s))).
Proof.
  destruct s as [|c s]; [congruence|]. intros H _. cbn in H.
  apply andb_true_iff in H as [Hc _].
  destruct (is_digit_ordinary c Hc) as (Hs & Hm & Hp & _).
  unfold parseInt. cbn [skip_space]. rewrite Hs.
  destruct (Ascii.eqb_spec c "-") as [->|_]; [discriminate|].
  destruct (Ascii.eqb_spec c "+") as [->|_]; [discriminate|].
  assert ((let '(neg, s2) :=
             match String c s with
             | String "-" r => (true, r)
             | String "+" r => (false, r)
             | _ => (false, String c s)
             end in
           match s2 with
           | String c0 _ =>
               if is_digit c0
               then let n := Z.of_N (digits_value 0 s2) in
                    Some (toNumber (if neg then - n else n))
               else None
           | EmptyString => None
           end) = Some (toNumber (Z.of_N (digits_value 0 (String c s))))) as E.
  { destruct c as [[] [] [] [] [] [] [] []]; try discriminate Hc; reflexivity. }
  exact E.
Qed.

End Decimal.

(** ** Numbers *)

Section Doubles.

(** An integer of at most 53 bits is a double. *)
Lemma roundToDouble_exact (n : N) :
  (N.size n <= 53)%N -> roundToDouble n = Some n.
Proof.
  intros H. unfold roundToDouble.
  now destruct (N.leb_spec (N.size n) 53); [|lia].
Qed.

(** What more than 53 bits round to is at least 2^53. *)
Lemma roundToDouble_large (v m : N) :
  (53 < N.size v)%N -> roundToDouble v = Some m -> (2 ^ 53 <= m)%N.
Proof.
  intros Hv. unfold roundToDouble.
  destruct (N.leb_spec (N.size v) 53) as [|_]; [lia|].
  set (e := (N.size v - 53)%N).
  set (q := N.shiftr v e).
  match goal with
  | |- context [if ?c then (q + 1)%N else q] =>
      set (q' := if c then (q + 1)%N else q)
  end.
  destruct (N.size (N.shiftl q' e) <=? 1024)%N; [|discriminate].
  intros [= <-]. rewrite N.shiftl_mul_pow2.
  assert (2 ^ 52 <= q)%N as Hq.
  { subst q. rewrite N.shiftr_div_pow2.
    apply N.div_le_lower_bound; [apply N.pow_nonzero; lia|].
    rewrite N.mul_comm, <- N.pow_add_r.
    pose proof (N.size_le v) as Hle.
    replace (N.size v) with (N.succ (52 + e)) in Hle by lia.
    rewrite N.pow_succ_r' in Hle. unfold N.succ_double in Hle.
    destruct v; lia. }
  assert (q <= q')%N as Hq' by (subst q'; destruct (_ || _); lia).
  assert (2 ^ 1 <= 2 ^ e)%N as He by (apply N.pow_le_mono_r; lia).
  change (2 ^ 53)%N with (2 ^ 52 * 2 ^ 1)%N.
  apply N.mul_le_mono; lia.
Qed.

Lemma size_safe (n : N) :
  (n <= 9007199254740991)%N -> (N.size n <= 53)%N.
Proof.
  intros H. destruct (N.le_gt_cases (N.size n) 53) as [|Hgt]; [assumption|].
  exfalso. pose proof (N.size_le n) as Hle.
  assert (2 ^ 54 <= 2 ^ N.size n)%N as Hp by (apply N.pow_le_mono_r; lia).
  unfold N.succ_double in Hle. destruct n; lia.
Qed.

Lemma size_large (m : N) : (2 ^ 53 <= m)%N -> (53 < N.size m)%N.
Proof.
  intros H. pose proof (N.size_gt m) as Hgt.
  destruct (N.le_gt_cases (N.size m) 53) as [Hle|]; [|assumption].
  exfalso. assert (2 ^ N.size m <= 2 ^ 53)%N by (apply N.pow_le_mono_r; lia). lia.
Qed.

(** Only a safe integer itself stands for it. *)
Lemma rounds_to_safe (x v : N) :
  (x <= 9007199254740991)%N -> rounds_to x v = true -> v = x.
Proof.
  intros Hx. unfold rounds_to.
  destruct (roundToDouble v) as [m|] eqn:Hv; [|discriminate].
  intros ->%N.eqb_eq.
  destruct (N.le_gt_cases (N.size v) 53) as [Hs|Hs].
  - rewrite (roundToDouble_exact v Hs) in Hv. congruence.
  - apply (roundToDouble_large v x Hs) in Hv. change (2^53)%N with 9007199254740992%N in Hv. lia.
Qed.

Lemma nearest_safe (x unit v : N) :
  (x <= 9007199254740991)%N -> nearest x unit = Some v -> v = x.
Proof.
  intros Hx. unfold nearest.
  destruct (rounds_to x (x / unit * unit)) eqn:Hlo,
           (rounds_to x (x / unit * unit + unit)) eqn:Hhi;
    try discriminate; intros [= <-].
  - apply (rounds_to_safe _ _ Hx) in Hlo, Hhi.
    repeat match goal with |- context [if ?c then _ else _] => destruct c end;
      assumption.
  - now apply rounds_to_safe.
  - now apply rounds_to_safe.
Qed.

Lemma shortest_safe (fuel : nat) (x unit : N) :
  (x <= 9007199254740991)%N -> shortest fuel x unit = x.
Proof.
  intros Hx. revert unit. induction fuel as [|f IH]; intros unit; cbn [shortest];
    destruct (nearest x unit) as [v|] eqn:Hn;
    try (now apply (nearest_safe x unit)); auto.
Qed.

(** A safe integer is printed digit by digit. *)
Lemma N_to_js_string_safe (x : N) :
  (x <= 9007199254740991)%N -> N_to_js_string x = N_to_string x.
Proof.
  intros Hx. unfold N_to_js_string. rewrite shortest_safe by assumption.
  destruct (N.ltb_spec x (10 ^ 21)) as [|Hge]; [reflexivity|].
  change (10 ^ 21)%N with 1000000000000000000000%N in Hge. lia.
Qed.

Lemma toNumber_safe (z : Z) :
  - MAX_SAFE_INTEGER <= z <= MAX_SAFE_INTEGER -> toNumber z = Finite z.
Proof.
  unfold MAX_SAFE_INTEGER. intros Hz. unfold toNumber.
  rewrite roundToDouble_exact by (apply size_safe; lia).
  destruct (Z.ltb_spec z 0); f_equal; lia.
Qed.

End Doubles.

Section NumberText.

(** A safe integer that is not negative is printed as its digits. *)
Lemma number_to_string_safe (z : Z) :
  0 <= z <= MAX_SAFE_INTEGER ->
  number_to_string z = N_to_string (Z.to_N z).
Proof.
  unfold MAX_SAFE_INTEGER. intros Hz. unfold number_to_string.
  destruct (Z.ltb_spec z 0); [lia|].
  apply N_to_js_string_safe. lia.
Qed.

Lemma parseInt_number_to_string (z : Z) :
  0 <= z <= MAX_SAFE_INTEGER -> parseInt (number_to_string z) = Some (Finite z).
Proof.
  intros Hz. rewrite number_to_string_safe by assumption.
  destruct (N_to_string_digits (Z.to_N z)) as (Hd & Hne & Hv).
  rewrite parseInt_digits by assumption. rewrite Hv.
  rewrite toNumber_safe by (unfold MAX_SAFE_INTEGER in *; lia).
  do 2 f_equal. lia.
Qed.

End NumberText.

(** ** The name expression of [fromUberName] *)

Section Regex.

Context {R : Type} (p : ascii -> bool) (k : string -> string -> option R).

(** No split of [s] is accepted by the continuation: the match fails. *)
Lemma many1_stuck (s acc : string) :
  (forall a b, a <> "" -> s = a +:+ b -> k (acc +:+ a) b = None) ->
  many1 p s acc k = None.
Proof.
  revert acc. induction s as [|c s IH]; intros acc H; [reflexivity|].
  cbn [many1]. destruct (p c); [|reflexivity].
  rewrite IH.
  - apply (H (String c "") s); [discriminate|reflexivity].
  - intros a b Ha ->. rewrite sapp_assoc.
    apply H; [rewrite sapp_cons; discriminate|reflexivity].
Qed.

(** The longest split the continuation accepts is the one returned. *)
Lemma many1_longest (a b acc : string) (r : R) :
  every p a = true -> a <> "" ->
  many1 p b (acc +:+ a) k = None ->
  k (acc +:+ a) b = Some r ->
  many1 p (a +:+ b) acc k = Some r.
Proof.
  revert acc. induction a as [|c a IH]; intros acc Hp Hne Hstuck Hk; [congruence|].
  cbn in Hp. apply andb_true_iff in Hp as [Hc Ha].
  rewrite sapp_cons. cbn [many1]. rewrite Hc.
  destruct a as [|d a].
  - rewrite sapp_nil_l, Hstuck. exact Hk.
  - rewrite (IH (acc +:+ String c "")); auto; try discriminate;
      rewrite sapp_assoc; assumption.
Qed.

End Regex.

Lemma every_first (p : ascii -> bool) (c : ascii) (s : string) :
  every p (String c s) = true -> p c = true.
Proof. cbn. now intros [? _]%andb_true_iff. Qed.


Lemma digits_not_space (s : string) :
  every is_digit s = true -> every not_space s = true.
Proof.
  induction s as [|c s IH]; [reflexivity|]. cbn.
  intros [Hc Hs]%andb_true_iff. rewrite IH by assumption.
  unfold not_space. destruct (is_digit_ordinary c Hc) as (-> & _). reflexivity.
Qed.


Lemma exec_here (o : Options) (s : string) r :
  match_here o s = Some r -> exec o s = Some r.
Proof. intros H. destruct s; cbn [exec]; now rewrite H. Qed.

Lemma number_to_string_nonneg (z : Z) :
  0 <= z <= MAX_SAFE_INTEGER ->
  every is_digit (number_to_string z) = true /\ number_to_string z <> "".
Proof.
  intros Hz. rewrite number_to_string_safe by assumption.
  destruct (N_to_string_digits (Z.to_N z)) as (? & ? & _). now split.
Qed.





(** ** The monad of asynchronous code *)

Section MonadFacts.

Context {S : Type}.

Lemma readonly_ret {A : Type} (a : A) : readonly (@ret S A a).
Proof. intros s. reflexivity. Qed.

Lemma readonly_throw {A : Type} (e : Exception) : readonly (@throw S A e).
Proof. intros s. reflexivity. Qed.

Lemma readonly_read {A : Type} (f : S -> outcome A) : readonly (read f).
Proof. intros s. reflexivity. Qed.

Lemma readonly_bind {A B : Type} (m : M S A) (f : A -> M S B) :
  readonly m -> (forall a, readonly (f a)) -> readonly (bind m f).
Proof.
  intros Hm Hf s. unfold bind. specialize (Hm s).
  destruct (m s) as [[a|e] s']; cbn in Hm; subst s'; [apply Hf|reflexivity].
Qed.

Lemma readonly_try_catch {A : Type} (m : M S A) (h : Exception -> M S A) :
  readonly m -> (forall e, readonly (h e)) -> readonly (try_catch m h).
Proof.
  intros Hm Hh s. unfold try_catch. specialize (Hm s).
  destruct (m s) as [[a|e] s']; cbn in Hm; subst s'; [reflexivity|apply Hh].
Qed.

Lemma readonly_promise_all {A : Type} (ps : list (M S A)) :
  Forall readonly ps -> readonly (promise_all ps).
Proof.
  induction 1 as [|p ps Hp _ IH]; intros s; [reflexivity|].
  cbn [promise_all]. specialize (Hp s). destruct (p s) as [r s1].
  cbn in Hp. subst s1. specialize (IH s).
  destruct (promise_all ps s) as [rs s2]. cbn in IH. subst s2. reflexivity.
Qed.

Lemma readonly_run {A : Type} (m : M S A) (s : S) (r : outcome A) :
  readonly m -> fst (m s) = r -> m s = (r, s).
Proof. intros Hm <-. rewrite <- (Hm s) at 3. now destruct (m s). Qed.

Lemma bind_ok {A B : Type} (m : M S A) (f : A -> M S B) (s s' : S) (a : A) :
  m s = (Ok a, s') -> bind m f s = f a s'.
Proof. intros H. unfold bind. now rewrite H. Qed.

Lemma bind_throw {A B : Type} (m : M S A) (f : A -> M S B) (s s' : S) e :
  m s = (Throw e, s') -> bind m f s = (Throw e, s').
Proof. intros H. unfold bind. now rewrite H. Qed.

Lemma bind_ok_inv {A B : Type} (m : M S A) (f : A -> M S B) (s s' : S) (b : B) :
  bind m f s = (Ok b, s') ->
  exists a s1, m s = (Ok a, s1) /\ f a s1 = (Ok b, s').
Proof.
  unfold bind. destruct (m s) as [[a|e] s1]; [|discriminate].
  intros H. now exists a, s1.
Qed.

Lemma readonly_state {A : Type} (m : M S A) (s s' : S) (r : outcome A) :
  readonly m -> m s = (r, s') -> s' = s.
Proof. intros Hm H. specialize (Hm s). now rewrite H in Hm. Qed.

(** [Promise.all] over calls that only read: the first rejection, or all the
    results. *)
Lemma promise_all_reads {A B : Type} (f : A -> M S B) (l : list A) (s : S) :
  (forall a, readonly (f a)) ->
  promise_all (map f l) s
  = (match List.find (fun a => match fst (f a s) with Throw _ => true | Ok _ => false end) l with
     | Some a => match fst (f a s) with
                 | Throw e => Throw e
                 | Ok _ => Ok []
                 end
     | None => Ok (omap (fun a => match fst (f a s) with
                                  | Ok b => Some b
                                  | Throw _ => None
                                  end) l)
     end, s).
Proof.
  intros Hf. induction l as [|a l IH]; [reflexivity|].
  cbn [map promise_all].
  pose proof (Hf a s) as Ha. destruct (f a s) as [[b|e] s1] eqn:E;
    cbn in Ha; subst s1; rewrite IH; cbn [List.find omap list_omap fst];
    rewrite E; cbn [fst].
  - destruct (List.find _ l) as [a'|] eqn:Hfind; [|reflexivity].
    apply find_some in Hfind as [_ Hbad].
    destruct (fst (f a' s)); [discriminate|reflexivity].
  - destruct (List.find _ l) as [a'|]; [destruct (fst (f a' s))|];
      rewrite ?E; reflexivity.
Qed.


End MonadFacts.

Create HintDb readonly.
#[local] Hint Resolve readonly_ret readonly_throw readonly_read : readonly.

(** ** The library manager *)

Section ManagerFacts.

Import LibraryManager.

Context {S : Type} (st : Storage.t S).
Context (sort : list InstalledLibrary -> list InstalledLibrary).

Lemma readonly_getJsonFile library file : readonly (getJsonFile st library file).
Proof.
  apply readonly_bind; [apply readonly_read|]. intros d.
  destruct (json d); auto with readonly.
Qed.

Lemma readonly_loadInstalled libName : readonly (loadInstalled st libName).
Proof.
  apply readonly_bind.
  - apply readonly_try_catch; [|auto with readonly].
    apply readonly_bind; [apply readonly_getJsonFile|]. intros md.
    apply readonly_bind; [apply readonly_read|]. auto with readonly.
  - intros [l|]; auto with readonly.
Qed.

Lemma readonly_getInstalled machineNames :
  readonly (getInstalled st sort machineNames).
Proof.
  apply readonly_bind; [apply readonly_read|]. intros libs.
  apply readonly_bind.
  - apply readonly_promise_all, List.Forall_forall. intros m Hm.
    apply in_map_iff in Hm as (l & <- & _). apply readonly_loadInstalled.
  - intros loaded. cbv zeta. destruct (existsb _ _); auto with readonly.
Qed.

Lemma loadLibrary_total library s :
  exists r, loadLibrary st library s = (Ok r, s).
Proof.
  unfold loadLibrary, try_catch, getJsonFile, getId, bind, read, ret, throw.
  destruct (Storage.getFileStream st library "library.json" s) as [d|e];
    [|now eexists].
  destruct (json d); [|now eexists].
  destruct (Storage.getId st library s); now eexists.
Qed.

Lemma loadInstalled_run libName s :
  loadInstalled st libName s
  = (match fst (loadLibrary st libName s) with
     | Ok (Some l) =>
         Ok (mkInstalled libName (patchVersion (info l)) (libraryId l)
               (runnable (info l)) (title (info l)))
     | _ => Throw (mkException TypeError
                     "Cannot read property 'patchVersion' of undefined")
     end, s).
Proof.
  unfold loadInstalled, bind.
  destruct (loadLibrary_total libName s) as [[l|] ->]; reflexivity.
Qed.




End ManagerFacts.

Section StringSearch.

Lemma startsWith_app (p t : string) : startsWith p (p +:+ t) = true.
Proof.
  induction p as [|c p IH]; [reflexivity|]. rewrite sapp_cons. cbn.
  now rewrite Ascii.eqb_refl.
Qed.

Lemma includes_app_l (p t : string) : includes p (p +:+ t) = true.
Proof.
  destruct p as [|c p]; [now destruct t|].
  rewrite sapp_cons. cbn [includes]. rewrite <- sapp_cons.
  now rewrite startsWith_app.
Qed.

Lemma includes_app_r (p s t : string) :
  includes p t = true -> includes p (s +:+ t) = true.
Proof.
  intros H. induction s as [|c s IH]; [exact H|].
  rewrite sapp_cons. cbn [includes]. rewrite IH. apply orb_true_r.
Qed.

Lemma includes_join (sep suffix f : string) (l : list string) :
  In f l -> includes f (join sep (map (fun x => x +:+ suffix) l)) = true.
Proof.
  induction l as [|x rest IH]; intros Hin; [destruct Hin|].
  assert (forall y, includes y (y +:+ suffix) = true) as Hline
    by (intros; apply includes_app_l).
  destruct Hin as [->|Hin].
  - destruct rest as [|y rest]; cbn [map join]; [apply Hline|].
    rewrite sapp_assoc. apply includes_app_l.
  - destruct rest as [|y rest]; [destruct Hin|].
    cbn [map join]. cbn [map] in IH.
    now apply includes_app_r, includes_app_r, IH.
Qed.

End StringSearch.

Section ConsistencyFacts.

Import LibraryManager.

Context {S : Type} (st : Storage.t S).

Lemma statuses_run library s requiredFiles :
  Forall (answered st library s) requiredFiles ->
  exists statuses,
    promise_all
      (map (fun file =>
              let* status := read (Storage.fileExists st library file) in
              ret (file, status))
           requiredFiles) s = (Ok statuses, s)
    /\ map fst (List.filter (fun file => negb (snd file)) statuses)
       = absent st library s requiredFiles.
Proof.
  induction 1 as [|file rest [b Hb] _ (statuses & Hrun & Hmiss)].
  - exists []. split; reflexivity.
  - exists ((file, b) :: statuses). split.
    + cbn [map promise_all]. unfold bind at 1, read at 1. rewrite Hb.
      cbn [ret]. now rewrite Hrun.
    + cbn [List.filter absent snd]. unfold absent in *. cbn [List.filter].
      rewrite Hb. destruct b; cbn [negb map fst]; now rewrite Hmiss.
Qed.

Lemma checkFiles_run library s requiredFiles :
  Forall (answered st library s) requiredFiles ->
  checkFiles st library requiredFiles s
  = (match absent st library s requiredFiles with
     | [] => Ok true
     | missing => Throw (mkException PlainError (missingMessage library missing))
     end, s).
Proof.
  intros H. destruct (statuses_run library s requiredFiles H) as (statuses & Hrun & Hm).
  unfold checkFiles. rewrite (bind_ok _ _ _ _ _ Hrun), Hm.
  now destruct (absent st library s requiredFiles).
Qed.

End ConsistencyFacts.

Section ManagerClaims.

Import LibraryManager.

Context {S : Type} (st : Storage.t S).
Context (sort : list InstalledLibrary -> list InstalledLibrary).






(** C7 (as the code has it): when the identity is installed and its
    descriptor readable, the error of a failing consistency check lists every
    missing file of the first asset list that lacks one: all missing
    [preloadedJs] files, or, when no script is missing, all missing
    [preloadedCss] files. *)
Theorem checkConsistency_reports_first_list
    (library : ILibraryName) (s : S) (id : Z) (file : FileData)
    (metadata : ILibraryMetadata) :
  Storage.getId st library s = Ok (Some id) ->
  id <> 0 ->
  Storage.getFileStream st library "library.json" s = Ok file ->
  json file = Some metadata ->
  let js := map path (default [] (preloadedJs metadata)) in
  let css := map path (default [] (preloadedCss metadata)) in
  Forall (answered st library s) (js ++ css) ->
  let reported :=
    match absent st library s js with
    | [] => absent st library s css
    | missing => missing
    end in
  reported <> [] ->
  checkConsistency st library s
  = (Throw (mkException PlainError (missingMessage library reported)), s)
  /\ forall f, In f reported -> includes f (missingMessage library reported) = true.
Proof.
  intros Hid Hnz Hfile Hjson js css Hans reported Hrep.
  split.
  2:{ intros f Hf. unfold missingMessage.
      do 4 apply includes_app_r. now apply includes_join. }
  apply Forall_app in Hans as [Hjs Hcss].
  unfold checkConsistency.
  unfold bind at 1, read at 1. rewrite Hid.
  cbn [truthy]. destruct (Z.eqb_spec id 0) as [|_]; [contradiction|]. cbn [negb].
  assert (try_catch (getJsonFile st library "library.json")
            (fun error =>
               throw (mkException PlainError
                        ("Error in library " +:+ toDirName library
                         +:+ ": library.json not readable: "
                         +:+ ex_message error +:+ "."))) s = (Ok metadata, s)) as Hmd.
  { unfold try_catch, getJsonFile, bind, read. now rewrite Hfile, Hjson. }
  rewrite (bind_ok _ _ _ _ _ Hmd).
  assert ((match preloadedJs metadata with
           | Some js0 => checkFiles st library (map path js0)
           | None => ret true
           end) s
          = (match absent st library s js with
             | [] => Ok true
             | missing => Throw (mkException PlainError (missingMessage library missing))
             end, s)) as Hj.
  { subst js. destruct (preloadedJs metadata) as [l|]; [|reflexivity].
    now apply checkFiles_run. }
  assert ((match preloadedCss metadata with
           | Some css0 => checkFiles st library (map path css0)
           | None => ret true
           end) s
          = (match absent st library s css with
             | [] => Ok true
             | missing => Throw (mkException PlainError (missingMessage library missing))
             end, s)) as Hc.
  { subst css. destruct (preloadedCss metadata) as [l|]; [|reflexivity].
    now apply checkFiles_run. }
  subst reported.
  destruct (absent st library s js) as [|m ms].
  - rewrite (bind_ok _ _ _ _ _ Hj).
    destruct (absent st library s css) as [|m ms]; [congruence|].
    now apply bind_throw.
  - now apply bind_throw.
Qed.

End ManagerClaims.

(** ** The statements on the storage in memory *)

Section MemoryFacts.

Import MemoryStorage LibraryManager.






Lemma checkConsistency_reports_first_list_witness :
  checkConsistency storage H5P_Test reserved1
  = (Throw (mkException PlainError (missingMessage H5P_Test ["main.js"])), reserved1)
  /\ forall f, In f ["main.js"] ->
               includes f (missingMessage H5P_Test ["main.js"]) = true.
Proof.
  apply (checkConsistency_reports_first_list storage H5P_Test reserved1 12
           (descriptor (h5pTest 1)) (h5pTest 1)).
  - vm_compute; reflexivity.
  - discriminate.
  - vm_compute; reflexivity.
  - reflexivity.
  - repeat constructor; eexists; vm_compute; reflexivity.
  - vm_compute. discriminate.
Defined.

(** C7, against the claim as stated: [main.css] is referenced by
    [preloadedCss] and absent from the storage, yet the error of the failing
    check does not mention it; only the missing script is listed. *)
Lemma checkConsistency_omits_missing_css :
  fst (checkConsistency storage H5P_Test reserved1)
  = Throw (mkException PlainError
             ("Error(s) in library H5P.Test-1.0:" +:+ nl +:+ "main.js is missing."))
  /\ preloadedCss (h5pTest 1) = Some [mkPath "main.css"]
  /\ Storage.getFileStream storage H5P_Test "library.json" reserved1
     = Ok (descriptor (h5pTest 1))
  /\ Storage.fileExists storage H5P_Test "main.css" reserved1 = Ok false
  /\ includes "main.css"
       ("Error(s) in library H5P.Test-1.0:" +:+ nl +:+ "main.js is missing.") = false.
Proof. vm_compute. repeat split; reflexivity. Qed.

(** C8, at a directory with a file whose name has no dot: the copy succeeds,
    [main.js] and [main.css] arrive in the storage, [LICENSE] does not. *)
Theorem copyLibraryFiles_skips_name_without_dot :
  In "LICENSE" (map fst directory3)
  /\ fst (copyLibraryFiles storage directory3 H5P_Test reserved1) = Ok tt
  /\ Storage.fileExists storage H5P_Test "main.js"
       (snd (copyLibraryFiles storage directory3 H5P_Test reserved1)) = Ok true
  /\ Storage.fileExists storage H5P_Test "main.css"
       (snd (copyLibraryFiles storage directory3 H5P_Test reserved1)) = Ok true
  /\ Storage.fileExists storage H5P_Test "LICENSE"
       (snd (copyLibraryFiles storage directory3 H5P_Test reserved1)) = Ok false.
Proof. split; [cbn; tauto|]. vm_compute. repeat split; reflexivity. Qed.

End MemoryFacts.

(** ** The cache keys *)

Section KeyFacts.

Import CachedLibraryStorage.

Lemma last_char_app (d c : ascii) (s t : string) :
  last_char d (s +:+ String c t) = last_char c t.
Proof.
  revert d. induction s as [|x s IH]; intros d; [reflexivity|].
  rewrite sapp_cons. cbn [last_char]. apply IH.
Qed.

(** Two names with different last characters end different keys. *)
Lemma usage_differs (f1 f2 u1 u2 : string) (c1 c2 : ascii) :
  last_char c1 u1 <> last_char c2 u2 ->
  f1 +:+ String "-" (String c1 u1) <> f2 +:+ String "-" (String c2 u2).
Proof.
  intros Hne H. apply (f_equal (last_char " ")) in H.
  rewrite !last_char_app in H. cbn [last_char] in H. contradiction.
Qed.

Lemma usage_same (f1 f2 u : string) :
  f1 +:+ String "-" u = f2 +:+ String "-" u -> f1 = f2.
Proof. apply sapp_inv_tail. Qed.

End KeyFacts.

Ltac key_cases H :=
  cbn [CachedLibraryStorage.keyOf CachedLibraryStorage.getCacheKeyForFile
       CachedLibraryStorage.getCacheKeyForMetadata] in H;
  apply (inj (String.app _)) in H;
  unfold CachedLibraryStorage.FILE_EXISTS_CACHE_KEY,
    CachedLibraryStorage.JSON_CACHE_KEY, CachedLibraryStorage.STRING_CACHE_KEY,
    CachedLibraryStorage.LANGUAGES_CACHE_KEY, CachedLibraryStorage.METADATA_CACHE_KEY,
    CachedLibraryStorage.LIBRARY_IS_INSTALLED_CACHE_KEY in H;
  snorm_in H;
  first
    [ discriminate H
    | reflexivity
    | injection H as H;
      first [ apply usage_same in H; subst; reflexivity
            | exfalso; revert H; apply usage_differs; cbn; discriminate ] ].

(** C6: the key of a cached query is a function of the query, and two cached
    queries about the same library (whatever their files) that get the same
    key are the same query on the same file. *)
Theorem keyOf_deterministic_and_distinct :
  (forall q1 q2 : CachedLibraryStorage.Query,
      q1 = q2 -> CachedLibraryStorage.keyOf q1 = CachedLibraryStorage.keyOf q2)
  /\
  (forall (library : ILibraryName) (q1 q2 : CachedLibraryStorage.Query),
      CachedLibraryStorage.libraryOf q1 = Some library ->
      CachedLibraryStorage.libraryOf q2 = Some library ->
      CachedLibraryStorage.keyOf q1 = CachedLibraryStorage.keyOf q2 ->
      q1 = q2).
Proof.
  split; [now intros q1 q2 ->|].
  intros library q1 q2 H1 H2 H.
  destruct q1, q2; cbn in H1, H2; try discriminate;
    injection H1 as ->; injection H2 as ->; key_cases H.
Qed.

(** ** The decorator: invalidation *)

Section CacheFacts.

Import CachedLibraryStorage.

Context {S : Type} (storage : Storage.t S).

Lemma deletes_nil (c : State S) : deletes [] c = c.
Proof. destruct c. unfold deletes. cbn. now rewrite app_nil_r. Qed.

Lemma deletes_app keys1 keys2 (c : State S) :
  deletes keys2 (deletes keys1 c) = deletes (keys1 ++ keys2) c.
Proof.
  unfold deletes. cbn. now rewrite foldl_app, map_app, app_assoc.
Qed.

Lemma invalidates_ret {A : Type} (a : A) : invalidates [] (@ret (State S) A a).
Proof. intros c. exists a. now rewrite deletes_nil. Qed.

Lemma invalidates_del key : invalidates [key] (@del S key).
Proof. intros c. now exists tt. Qed.

Lemma invalidates_bind {A B : Type} keys1 keys2
    (m : M (State S) A) (f : A -> M (State S) B) :
  invalidates keys1 m -> (forall a, invalidates keys2 (f a)) ->
  invalidates (keys1 ++ keys2) (bind m f).
Proof.
  intros Hm Hf c. unfold bind. destruct (Hm c) as [a ->].
  destruct (Hf a (deletes keys1 c)) as [b ->]. exists b. now rewrite deletes_app.
Qed.

Lemma invalidates_promise_all {A : Type} (keyss : list (list string))
    (ps : list (M (State S) A)) :
  Forall2 invalidates keyss ps -> invalidates (concat keyss) (promise_all ps).
Proof.
  induction 1 as [|keys p keyss ps Hp _ IH]; intros c.
  - exists []. now rewrite deletes_nil.
  - cbn [promise_all concat]. destruct (Hp c) as [a ->].
    destruct (IH (deletes keys c)) as [l ->]. exists (a :: l).
    now rewrite deletes_app.
Qed.

Lemma invalidates_deleteFileCache library filename :
  invalidates (fileKeys library filename) (@deleteFileCache S library filename).
Proof.
  unfold deleteFileCache.
  rewrite <- (app_nil_r (fileKeys library filename)).
  apply invalidates_bind; [|intros; apply invalidates_ret].
  apply (invalidates_promise_all [[_]; [_]; [_]]).
  repeat constructor; apply invalidates_del.
Qed.

Lemma each_file_cache library (files : list string) :
  Forall2 invalidates (map (fileKeys library) files)
    (map (fun file => @deleteFileCache S library file) files).
Proof.
  induction files as [|file files IH]; cbn [map]; constructor; [|exact IH].
  apply invalidates_deleteFileCache.
Qed.

Lemma invalidates_file_caches library (files : list string) :
  invalidates (concat (map (fileKeys library) files))
    (promise_all (map (fun file => @deleteFileCache S library file) files)).
Proof. apply invalidates_promise_all, each_file_cache. Qed.

(** A write that is called, awaited, and followed by invalidations only. *)
Lemma awaited_write {A B : Type} (w : Write) (op : M S A) (k : A -> M (State S) B)
    (keys : list string) (c : State S) :
  (forall a, invalidates keys (k a)) ->
  match fst (op (backing c)) with
  | Ok _ =>
      exists b,
        (let* promise := call w op in let* result := await promise in k result) c
        = (Ok b, deletes keys (written w op c))
  | Throw e =>
      (let* promise := call w op in let* result := await promise in k result) c
      = (Throw e, written w op c)
  end.
Proof.
  intros Hk. unfold bind, call, await, log, written. cbn.
  destruct (op (backing c)) as [[a|e] s']; cbn.
  - destruct (Hk a (mkState s' (cache c) ((trace c ++ [BackingCalled w])
                                           ++ [BackingSettled w]))) as [b ->].
    exists b. unfold deletes. cbn. now rewrite <- !app_assoc.
  - now rewrite <- !app_assoc.
Qed.

Lemma query_first {A B : Type} (f : S -> outcome A) (k : A -> M (State S) B) c :
  (let* x := query f in k x) c
  = match f (backing c) with
    | Ok x => k x c
    | Throw e => (Throw e, c)
    end.
Proof. unfold bind, query. now destruct (f (backing c)). Qed.

Lemma bind_ret_tt {A : Type} (m : M (State S) A) (c : State S) :
  snd ((m >> ret tt) c) = snd (m c)
  /\ (fst ((m >> ret tt) c) = Ok tt <-> exists a, fst (m c) = Ok a).
Proof.
  unfold bind, ret. destruct (m c) as [[a|e] c']; cbn; split; try reflexivity.
  - split; eauto.
  - split; [discriminate|]. now intros [a Ha].
Qed.

(** What each of the five methods that await their write leaves: the write
    called and awaited, then the keys of the invalidation set deleted. *)
Lemma run_addFile library filename readStream c :
  match fst (Storage.addFile storage library filename readStream (backing c)) with
  | Ok _ =>
      exists b, addFile storage library filename readStream c
                = (Ok b, deletes (fileKeys library filename)
                           (written WAddFile
                              (Storage.addFile storage library filename readStream) c))
  | Throw e =>
      addFile storage library filename readStream c
      = (Throw e, written WAddFile
                    (Storage.addFile storage library filename readStream) c)
  end.
Proof.
  apply awaited_write. intros a.
  rewrite <- (app_nil_r (fileKeys library filename)).
  apply invalidates_bind; [apply invalidates_deleteFileCache|].
  intros; apply invalidates_ret.
Qed.

Lemma run_updateAdditionalMetadata library additional c :
  match fst (Storage.updateAdditionalMetadata storage library additional (backing c)) with
  | Ok _ =>
      exists b, updateAdditionalMetadata storage library additional c
                = (Ok b, deletes [getCacheKeyForMetadata library METADATA_CACHE_KEY]
                           (written WUpdateAdditionalMetadata
                              (Storage.updateAdditionalMetadata storage library additional)
                              c))
  | Throw e =>
      updateAdditionalMetadata storage library additional c
      = (Throw e, written WUpdateAdditionalMetadata
                    (Storage.updateAdditionalMetadata storage library additional) c)
  end.
Proof.
  apply awaited_write. intros a.
  apply (invalidates_bind [_] []); [apply invalidates_del|].
  intros; apply invalidates_ret.
Qed.

Lemma run_updateLibrary libraryMetadata c :
  match fst (Storage.updateLibrary storage libraryMetadata (backing c)) with
  | Ok _ =>
      exists b, updateLibrary storage libraryMetadata c
                = (Ok b, deletes (invalidationSet (CUpdateLibrary libraryMetadata) [])
                           (written WUpdateLibrary
                              (Storage.updateLibrary storage libraryMetadata) c))
  | Throw e =>
      updateLibrary storage libraryMetadata c
      = (Throw e, written WUpdateLibrary
                    (Storage.updateLibrary storage libraryMetadata) c)
  end.
Proof.
  apply awaited_write. intros a. cbn [invalidationSet].
  apply (invalidates_bind [_] [_; _; _]); [apply invalidates_del|intros _].
  apply (invalidates_bind [_] [_; _]); [apply invalidates_del|intros _].
  apply (invalidates_bind [_] [_]); [apply invalidates_del|intros _].
  apply (invalidates_bind [_] []); [apply invalidates_del|intros _].
  apply invalidates_ret.
Qed.

Lemma run_clearFiles library c :
  match Storage.listFiles storage library (backing c) with
  | Ok files =>
      match fst (Storage.clearFiles storage library (backing c)) with
      | Ok _ =>
          clearFiles storage library c
          = (Ok tt, deletes (invalidationSet (CClearFiles library) files)
                      (written WClearFiles (Storage.clearFiles storage library) c))
      | Throw e =>
          clearFiles storage library c
          = (Throw e, written WClearFiles (Storage.clearFiles storage library) c)
      end
  | Throw e => clearFiles storage library c = (Throw e, c)
  end.
Proof.
  unfold clearFiles. rewrite query_first.
  destruct (Storage.listFiles storage library (backing c)) as [files|e];
    [|reflexivity].
  pose proof (awaited_write WClearFiles (Storage.clearFiles storage library)
                (fun _ => promise_all
                            (map (fun file => deleteFileCache library file) files)
                          >> ret tt)
                (invalidationSet (CClearFiles library) files) c) as H.
  destruct (fst (Storage.clearFiles storage library (backing c))).
  - destruct H as [[] H]; [|exact H].
    intros _. cbn [invalidationSet].
    rewrite <- (app_nil_r (concat _)).
    apply invalidates_bind; [apply invalidates_file_caches|].
    intros; apply invalidates_ret.
  - apply H. intros _. cbn [invalidationSet].
    rewrite <- (app_nil_r (concat _)).
    apply invalidates_bind; [apply invalidates_file_caches|].
    intros; apply invalidates_ret.
Qed.

Lemma invalidates_deleteLibrary_keys library (files : list string) :
  invalidates (invalidationSet (CDeleteLibrary library) files)
    (promise_all
       (map (fun file => @deleteFileCache S library file) files
        ++ [del (getCacheKeyForMetadata library METADATA_CACHE_KEY);
            del (getCacheKeyForMetadata library LANGUAGES_CACHE_KEY);
            del (getCacheKeyForMetadata library LIBRARY_IS_INSTALLED_CACHE_KEY);
            del INSTALLED_LIBRARY_NAMES_CACHE_KEY;
            del (getCacheKeyForLibraryListByMachineName (machineName library));
            del ADDONS_CACHE_KEY]) >> ret tt).
Proof.
  cbn [invalidationSet].
  rewrite <- (app_nil_r (concat _ ++ _)).
  apply invalidates_bind; [|intros; apply invalidates_ret].
  assert (forall keys : list string,
             concat (map (fileKeys library) files) ++ keys
             = concat (map (fileKeys library) files ++ map (fun k => [k]) keys)) as E.
  { intros keys. rewrite concat_app. f_equal.
    induction keys as [|k keys IH]; [reflexivity|]. cbn. now rewrite <- IH. }
  rewrite E. apply invalidates_promise_all, Forall2_app.
  - apply each_file_cache.
  - repeat constructor; apply invalidates_del.
Qed.

Lemma run_deleteLibrary library c :
  match Storage.listFiles storage library (backing c) with
  | Ok files =>
      match fst (Storage.deleteLibrary storage library (backing c)) with
      | Ok _ =>
          deleteLibrary storage library c
          = (Ok tt, deletes (invalidationSet (CDeleteLibrary library) files)
                      (written WDeleteLibrary (Storage.deleteLibrary storage library) c))
      | Throw e =>
          deleteLibrary storage library c
          = (Throw e, written WDeleteLibrary (Storage.deleteLibrary storage library) c)
      end
  | Throw e => deleteLibrary storage library c = (Throw e, c)
  end.
Proof.
  unfold deleteLibrary. rewrite query_first.
  destruct (Storage.listFiles storage library (backing c)) as [files|e];
    [|reflexivity].
  pose proof (awaited_write WDeleteLibrary (Storage.deleteLibrary storage library)
                (fun _ => promise_all _ >> ret tt)
                (invalidationSet (CDeleteLibrary library) files) c
                (fun _ => invalidates_deleteLibrary_keys library files)) as H.
  destruct (fst (Storage.deleteLibrary storage library (backing c)));
    [destruct H as [[] H]|]; exact H.
Qed.

(** [addLibrary]: the keys are deleted first, the write settles last. *)
Lemma run_addLibrary libraryData restricted c :
  addLibrary storage libraryData restricted c
  = (fst (Storage.addLibrary storage libraryData restricted (backing c)),
     mkState (snd (Storage.addLibrary storage libraryData restricted (backing c)))
       (foldl (fun m k => delete k m) (cache c)
          (invalidationSet (CAddLibrary libraryData restricted) []))
       (trace c ++ BackingCalled WAddLibrary
          :: map CacheDel (invalidationSet (CAddLibrary libraryData restricted) [])
          ++ [BackingSettled WAddLibrary])).
Proof.
  unfold addLibrary, bind, call, del, await, log. cbn.
  destruct (Storage.addLibrary storage libraryData restricted (backing c)) as [r s'].
  cbn. now rewrite <- !app_assoc.
Qed.

(** In the trace of a write that was awaited, the write has settled before
    any key is deleted. *)
Lemma written_settles_first {A : Type} (w : Write) (op : M S A) keys c :
  settled_before_invalidation w
    (drop (length (trace c)) (trace (deletes keys (written w op c)))).
Proof.
  unfold deletes, written. cbn. rewrite <- app_assoc, drop_app_length.
  intros before key after H.
  destruct before as [|e1 [|e2 before]]; cbn in H; try discriminate H.
  injection H as _ <- _. right. now left.
Qed.

Lemma absent_key_stays_absent (keys : list string) (m : gmap string value)
    (key : string) :
  m !! key = None -> foldl (fun m k => delete k m) m keys !! key = None.
Proof.
  revert m. induction keys as [|k keys IH]; intros m H; [exact H|].
  cbn [foldl]. apply IH, lookup_delete_None. now right.
Qed.

Lemma deleted_key_absent (keys : list string) (m : gmap string value) (key : string) :
  In key keys -> foldl (fun m k => delete k m) m keys !! key = None.
Proof.
  revert m. induction keys as [|k keys IH]; intros m Hin; [destruct Hin|].
  cbn [foldl]. destruct Hin as [->|Hin]; [|now apply IH].
  apply absent_key_stays_absent, lookup_delete_eq.
Qed.

(** A key that is not in the cache is read from the backing storage. *)
Lemma wrap_miss {A : Type} (key : string) (f : S -> outcome A) (inj : A -> value) c :
  cache c !! key = None ->
  fst (wrap key (let* x := query f in ret (inj x)) c) = answerWith inj (f (backing c)).
Proof.
  intros H. unfold wrap, bind, query, ret, answerWith. rewrite H.
  now destruct (f (backing c)).
Qed.

(** A query whose key is not in the cache gets the answer of the backing
    storage. *)
Lemma ask_miss (q : Query) (c : State S) :
  cache c !! keyOf q = None -> fst (ask storage q c) = answer storage q (backing c).
Proof.
  destruct q as [l f|l f|l f|l|l|l|[[|ch m]|]|]; cbn [keyOf ask answer]; intros H;
    try (now apply wrap_miss).
  unfold listAddons. destruct (Storage.listAddons storage); [|reflexivity].
  now apply wrap_miss.
Qed.

(** A query whose key is in the cache gets the cached value: [keyOf] is the
    key each cached method wraps. *)
Lemma ask_hit (q : Query) (c : State S) (v : value) :
  q <> QListAddons \/ Storage.listAddons storage <> None ->
  cache c !! keyOf q = Some v -> ask storage q c = (Ok v, c).
Proof.
  intros Hq.
  destruct q as [l f|l f|l f|l|l|l|[[|ch m]|]|]; cbn [keyOf ask]; intros H;
    try (unfold fileExists, getFileAsJson, getFileAsString, getLanguages, getLibrary,
           isInstalled, getInstalledLibraryNames, wrap; now rewrite H).
  unfold listAddons. destruct (Storage.listAddons storage).
  - unfold wrap. now rewrite H.
  - destruct Hq as [Hq|Hq]; congruence.
Qed.

Lemma kept_key_stays (keys : list string) (m : gmap string value) (key : string) :
  ~ In key keys -> foldl (fun m k => delete k m) m keys !! key = m !! key.
Proof.
  revert m. induction keys as [|k keys IH]; intros m Hnin; [reflexivity|].
  cbn [foldl]. rewrite IH by (intros H; apply Hnin; now right).
  apply lookup_delete_ne. intros ->. apply Hnin. now left.
Qed.

(** The language key of a library is none of its file keys. *)
Lemma languages_key_is_no_file_key library (files : list string) :
  ~ In (getCacheKeyForMetadata library LANGUAGES_CACHE_KEY)
       (concat (map (fileKeys library) files)).
Proof.
  intros Hin. apply in_concat in Hin as (keys & Hkeys & Hin).
  apply in_map_iff in Hkeys as (file & <- & _).
  unfold fileKeys, getCacheKeyForFile, getCacheKeyForMetadata in Hin.
  cbn [In] in Hin.
  repeat (destruct Hin as [Hin|Hin];
          [apply (inj (String.app _)) in Hin; snorm_in Hin; discriminate Hin|]).
  exact Hin.
Qed.

(** Whatever the backing storage: [addFile] and [clearFiles] leave a cached
    language list where it is, and [getLanguages] goes on returning it. *)
Lemma file_writes_keep_languages (library : ILibraryName) (c : State S) (v : value) :
  cache c !! getCacheKeyForMetadata library LANGUAGES_CACHE_KEY = Some v ->
  (forall filename readStream,
      getLanguages storage library (snd (addFile storage library filename readStream c))
      = (Ok v, snd (addFile storage library filename readStream c)))
  /\ getLanguages storage library (snd (clearFiles storage library c))
     = (Ok v, snd (clearFiles storage library c)).
Proof.
  intros Hv.
  assert (forall c', cache c' !! getCacheKeyForMetadata library LANGUAGES_CACHE_KEY
                     = Some v ->
                     getLanguages storage library c' = (Ok v, c')) as Hhit.
  { intros c' H. apply (ask_hit (QGetLanguages library)); [left; discriminate|exact H]. }
  split; [intros filename readStream|]; apply Hhit.
  - pose proof (run_addFile library filename readStream c) as H.
    destruct (fst (Storage.addFile storage library filename readStream (backing c)));
      [destruct H as [b H]|]; rewrite H; cbn [snd]; unfold deletes, written;
      cbn [cache]; [|exact Hv].
    rewrite kept_key_stays; [exact Hv|].
    rewrite <- (app_nil_r (fileKeys _ _)).
    apply (languages_key_is_no_file_key library [filename]).
  - pose proof (run_clearFiles library c) as H.
    destruct (Storage.listFiles storage library (backing c));
      [|rewrite H; exact Hv].
    destruct (fst (Storage.clearFiles storage library (backing c)));
      rewrite H; cbn [snd]; unfold deletes, written; cbn [cache]; [|exact Hv].
    rewrite kept_key_stays; [exact Hv|]. apply languages_key_is_no_file_key.
Qed.

(** After a write that succeeded, the keys of its invalidation set are not in
    the cache. *)
Lemma perform_invalidates (w : WriteCall) (c : State S) (key : string) :
  fst (perform storage w c) = Ok tt ->
  In key (invalidationSet w (listed storage w (backing c))) ->
  cache (snd (perform storage w c)) !! key = None.
Proof.
  intros Hok Hin.
  destruct w as [l f d|md r|l|l|l a|md]; cbn [perform listed] in *.
  - destruct (bind_ret_tt (addFile storage l f d) c) as [-> Hiff].
    apply Hiff in Hok as [b Hb]. pose proof (run_addFile l f d c) as H.
    destruct (fst (Storage.addFile storage l f d (backing c)));
      [destruct H as [b' H]|]; rewrite H in *; [|discriminate Hb].
    now apply deleted_key_absent.
  - destruct (bind_ret_tt (addLibrary storage md r) c) as [-> _].
    rewrite run_addLibrary. now apply deleted_key_absent.
  - pose proof (run_clearFiles l c) as H.
    destruct (Storage.listFiles storage l (backing c)) as [files|e];
      [|rewrite H in Hok; discriminate Hok].
    destruct (fst (Storage.clearFiles storage l (backing c)));
      rewrite H in *; [|discriminate Hok].
    now apply deleted_key_absent.
  - pose proof (run_deleteLibrary l c) as H.
    destruct (Storage.listFiles storage l (backing c)) as [files|e];
      [|rewrite H in Hok; discriminate Hok].
    destruct (fst (Storage.deleteLibrary storage l (backing c)));
      rewrite H in *; [|discriminate Hok].
    now apply deleted_key_absent.
  - destruct (bind_ret_tt (updateAdditionalMetadata storage l a) c) as [-> Hiff].
    apply Hiff in Hok as [b Hb]. pose proof (run_updateAdditionalMetadata l a c) as H.
    destruct (fst (Storage.updateAdditionalMetadata storage l a (backing c)));
      [destruct H as [b' H]|]; rewrite H in *; [|discriminate Hb].
    now apply deleted_key_absent.
  - destruct (bind_ret_tt (updateLibrary storage md) c) as [-> Hiff].
    apply Hiff in Hok as [b Hb]. pose proof (run_updateLibrary md c) as H.
    destruct (fst (Storage.updateLibrary storage md (backing c)));
      [destruct H as [b' H]|]; rewrite H in *; [|discriminate Hb].
    now apply deleted_key_absent.
Qed.

End CacheFacts.

Section CacheClaims.

Import CachedLibraryStorage.

Context {S : Type} (storage : Storage.t S).

(** X16: the five methods that await their write: the write has settled before the
    first key is deleted. *)
Lemma awaited_writes_settle_first (c : State S) :
  (forall library filename readStream,
      settled_before_invalidation WAddFile
        (events (addFile storage library filename readStream) c))
  /\ (forall library,
         settled_before_invalidation WClearFiles (events (clearFiles storage library) c))
  /\ (forall library,
         settled_before_invalidation WDeleteLibrary
           (events (deleteLibrary storage library) c))
  /\ (forall library additional,
         settled_before_invalidation WUpdateAdditionalMetadata
           (events (updateAdditionalMetadata storage library additional) c))
  /\ (forall libraryMetadata,
         settled_before_invalidation WUpdateLibrary
           (events (updateLibrary storage libraryMetadata) c)).
Proof.
  assert (forall w, settled_before_invalidation w (drop (length (trace c)) (trace c)))
    as Hnone.
  { intros w before key after H. rewrite drop_all in H. now destruct before. }
  assert (forall A w (op : M S A),
             settled_before_invalidation w
               (drop (length (trace c)) (trace (written w op c)))) as Hthrown.
  { intros A w op. rewrite <- (deletes_nil (written w op c)).
    apply written_settles_first. }
  unfold events. repeat split; intros.
  - pose proof (run_addFile storage library filename readStream c) as H.
    destruct (fst (Storage.addFile storage library filename readStream (backing c)));
      [destruct H as [b H]|]; rewrite H; [apply written_settles_first|apply Hthrown].
  - pose proof (run_clearFiles storage library c) as H.
    destruct (Storage.listFiles storage library (backing c));
      [|rewrite H; apply Hnone].
    destruct (fst (Storage.clearFiles storage library (backing c)));
      rewrite H; [apply written_settles_first|apply Hthrown].
  - pose proof (run_deleteLibrary storage library c) as H.
    destruct (Storage.listFiles storage library (backing c));
      [|rewrite H; apply Hnone].
    destruct (fst (Storage.deleteLibrary storage library (backing c)));
      rewrite H; [apply written_settles_first|apply Hthrown].
  - pose proof (run_updateAdditionalMetadata storage library additional c) as H.
    destruct (fst (Storage.updateAdditionalMetadata storage library additional
                     (backing c)));
      [destruct H as [b H]|]; rewrite H; [apply written_settles_first|apply Hthrown].
  - pose proof (run_updateLibrary storage libraryMetadata c) as H.
    destruct (fst (Storage.updateLibrary storage libraryMetadata (backing c)));
      [destruct H as [b H]|]; rewrite H; [apply written_settles_first|apply Hthrown].
Qed.

(** X15: read after write, on the invalidation set: after a write that succeeded,
    a cached query whose key the write deleted returns what the backing
    storage answers after the write. *)
Lemma read_after_write_on_invalidation_set (w : WriteCall) (q : Query) (c : State S) :
  fst (perform storage w c) = Ok tt ->
  In (keyOf q) (invalidationSet w (listed storage w (backing c))) ->
  fst (ask storage q (snd (perform storage w c)))
  = answer storage q (backing (snd (perform storage w c))).
Proof.
  intros Hok Hin. apply ask_miss. now apply perform_invalidates.
Qed.

(** C5, at [addLibrary]: the call of the backing [addLibrary] is not awaited
    before the four keys are deleted; its promise settles only when the method
    returns it. *)
Theorem addLibrary_invalidates_before_settled
    (libraryData : ILibraryMetadata) (restricted : bool) (c : State S) :
  events (addLibrary storage libraryData restricted) c
  = [BackingCalled WAddLibrary;
     CacheDel INSTALLED_LIBRARY_NAMES_CACHE_KEY;
     CacheDel ADDONS_CACHE_KEY;
     CacheDel (getCacheKeyForMetadata (name libraryData) LIBRARY_IS_INSTALLED_CACHE_KEY);
     CacheDel (getCacheKeyForLibraryListByMachineName (machineName (name libraryData)));
     BackingSettled WAddLibrary]
  /\ ~ settled_before_invalidation WAddLibrary
         (events (addLibrary storage libraryData restricted) c).
Proof.
  assert (events (addLibrary storage libraryData restricted) c
          = [BackingCalled WAddLibrary;
             CacheDel INSTALLED_LIBRARY_NAMES_CACHE_KEY;
             CacheDel ADDONS_CACHE_KEY;
             CacheDel (getCacheKeyForMetadata (name libraryData)
                         LIBRARY_IS_INSTALLED_CACHE_KEY);
             CacheDel (getCacheKeyForLibraryListByMachineName
                         (machineName (name libraryData)));
             BackingSettled WAddLibrary]) as Hevents.
  { unfold events, addLibrary, bind, call, del, await, log. cbn.
    destruct (Storage.addLibrary storage libraryData restricted (backing c)) as [r s'].
    cbn. rewrite <- !app_assoc. apply drop_app_length. }
  split; [exact Hevents|].
  rewrite Hevents. intros H.
  specialize (H [BackingCalled WAddLibrary] _ _ eq_refl).
  destruct H as [H|[]]. discriminate H.
Qed.

(** C10: with a backing storage that has no [listAddons], the decorator's
    [listAddons] resolves to the empty list and touches nothing. *)
Theorem listAddons_without_capability (c : State S) :
  Storage.listAddons storage = None ->
  listAddons storage c = (Ok (VAddons []), c).
Proof. intros H. unfold listAddons. now rewrite H. Qed.

End CacheClaims.

Section MemoryCacheFacts.

Import MemoryStorage CachedLibraryStorage.

Lemma listAddons_without_capability_witness :
  listAddons cachedStorage cold = (Ok (VAddons []), cold).
Proof. apply (listAddons_without_capability cachedStorage cold). reflexivity. Defined.

(** C2, at the language list: once the languages of [H5P.Test-1.0] are in the
    cache, clearing the files of the library or adding a translation changes
    what the backing storage answers, and the decorator goes on answering
    from the cache. *)
Theorem languages_stale_after_file_writes :
  fst (getLanguages cachedStorage H5P_Test cold) = Ok (VStrings ["de"])
  /\ fst (clearFiles cachedStorage H5P_Test warm) = Ok tt
  /\ Storage.getLanguages cachedStorage H5P_Test
       (backing (snd (clearFiles cachedStorage H5P_Test warm))) = Ok []
  /\ fst (getLanguages cachedStorage H5P_Test
            (snd (clearFiles cachedStorage H5P_Test warm))) = Ok (VStrings ["de"])
  /\ fst (addFile cachedStorage H5P_Test "language/fr.json" (mkFile "semantics: []" None) warm)
     = Ok true
  /\ Storage.getLanguages cachedStorage H5P_Test
       (backing (snd (addFile cachedStorage H5P_Test "language/fr.json"
                        (mkFile "semantics: []" None) warm))) = Ok ["fr"; "de"]
  /\ fst (getLanguages cachedStorage H5P_Test
            (snd (addFile cachedStorage H5P_Test "language/fr.json"
                    (mkFile "semantics: []" None) warm))) = Ok (VStrings ["de"]).
Proof. vm_compute. repeat split; reflexivity. Qed.

End MemoryCacheFacts.

(** ** The package manager *)

Section PackageClaims.

Import PackageManager.

Context {S : Type}.
Context (libraryStorage : LibraryManager.Storage.t S).
Context (sort : list InstalledLibrary -> list InstalledLibrary).
Context (maxFileSize maxTotalSize : Z).
Context (issues : list Entry -> bool -> bool -> list ValidationIssue).
Context (copyContentFromDirectory :
           option (Directory -> option ContentId -> M S ContentId)).
Context (tempDirPath : string).

(** C3: a package with an entry whose normalized path escapes the extraction
    root makes [processPackage] fail with the validator's structural error,
    before anything is extracted: the disk and the storage are as they
    were. *)
Theorem zip_slip_package_is_rejected
    (packagePath : list Entry) (installLibraries copyContent : bool)
    (contentId : option ContentId) (w : World S) :
  (exists entry, In entry packagePath /\ escapesRoot (fileName entry) = true) ->
  processPackage libraryStorage sort maxFileSize maxTotalSize issues
    copyContentFromDirectory tempDirPath
    packagePath installLibraries copyContent contentId w
  = (Throw (mkException StructuralError
              "The package contains a path outside of the extraction root."), w).
Proof.
  intros (entry & Hin & Hesc).
  assert (existsb (fun entry => escapesRoot (fileName entry)) packagePath = true) as Hex.
  { apply existsb_exists. now exists entry. }
  unfold processPackage, try_catch, bind at 1, read, validatePackage.
  now rewrite Hex.
Qed.

End PackageClaims.

Lemma zip_slip_package_is_rejected_witness :
  PackageManager.processPackage MemoryStorage.storage MemoryStorage.unsorted
    1000 10000 (fun _ _ _ => []) None "/tmp/tmp-1"
    [PackageManager.mkEntry "H5P.Test-1.0/library.json" 10
       (MemoryStorage.descriptor (MemoryStorage.h5pTest 1));
     PackageManager.mkEntry "../../evil.sh" 10 MemoryStorage.script]
    true false None (PackageManager.mkWorld ∅ ∅ ∅)
  = (Throw (mkException StructuralError
              "The package contains a path outside of the extraction root."),
     PackageManager.mkWorld ∅ ∅ ∅).
Proof.
  apply (zip_slip_package_is_rejected MemoryStorage.storage MemoryStorage.unsorted
           1000 10000 (fun _ _ _ => []) None "/tmp/tmp-1").
  exists (PackageManager.mkEntry "../../evil.sh" 10 MemoryStorage.script).
  split; [right; left; reflexivity|reflexivity].
Defined.

(** ** The model at work on small inputs *)

Example toUberName_ex :
  toUberName (mkLibraryName "H5P.Example" 1 12) defaultOptions = "H5P.Example-1.12".
Proof. reflexivity. Qed.

Example fromUberName_ex :
  fromUberName "H5P.Example-1.12" defaultOptions
  = Ok (Some (mkLibraryName "H5P.Example" 1 12)).
Proof. reflexivity. Qed.

Example fromUberName_backtrack :
  fromUberName "a-b-3.4-x" defaultOptions = Ok (Some (mkLibraryName "a-b" 3 4)).
Proof. reflexivity. Qed.

Example install_fresh :
  fst (LibraryManager.installFromDirectory MemoryStorage.storage
         MemoryStorage.unsorted MemoryStorage.directory1 false ∅) = Ok true.
Proof. vm_compute. reflexivity. Qed.

Example install_again :
  LibraryManager.installFromDirectory MemoryStorage.storage
    MemoryStorage.unsorted MemoryStorage.directory1 false MemoryStorage.installed1
  = (Ok false, MemoryStorage.installed1).
Proof. vm_compute. reflexivity. Qed.

Example update_failing :
  let r := LibraryManager.installFromDirectory MemoryStorage.storage
    MemoryStorage.unsorted MemoryStorage.directory2 false MemoryStorage.installed1 in
  fst r = Throw (mkException PlainError
                   ("Error(s) in library H5P.Test-1.0:" +:+ nl +:+ "main.css is missing."))
  /\ MemoryStorage.getId MemoryStorage.H5P_Test (snd r) = Ok None.
Proof. vm_compute. split; reflexivity. Qed.

Example update_succeeding :
  let directory :=
    [("library.json", File (MemoryStorage.descriptor (MemoryStorage.h5pTest 2)));
     ("main.js", File MemoryStorage.script);
     ("main.css", File MemoryStorage.style)] in
  let r := LibraryManager.installFromDirectory MemoryStorage.storage
    MemoryStorage.unsorted directory false MemoryStorage.installed1 in
  fst r = Ok true
  /\ MemoryStorage.getFileAsJson MemoryStorage.H5P_Test "library.json" (snd r)
     = Ok (MemoryStorage.h5pTest 2).
Proof. vm_compute. split; reflexivity. Qed.

Example processPackage_installs :
  let archive :=
    [PackageManager.mkEntry "h5p.json" 10 (mkFile "mainLibrary: H5P.Test" None);
     PackageManager.mkEntry "H5P.Test-1.0/library.json" 10
       (MemoryStorage.descriptor (MemoryStorage.h5pTest 1));
     PackageManager.mkEntry "H5P.Test-1.0/main.js" 10 MemoryStorage.script;
     PackageManager.mkEntry "H5P.Test-1.0/main.css" 10 MemoryStorage.style] in
  let r := PackageManager.installLibrariesFromPackage MemoryStorage.storage
    MemoryStorage.unsorted 1000 10000 (fun _ _ _ => []) None "/tmp/tmp-1" archive
    (PackageManager.mkWorld ∅ ∅ ∅) in
  fst r = Ok None
  /\ PackageManager.disk (snd r) = ∅
  /\ PackageManager.persistent (snd r) = MemoryStorage.installed1.
Proof. vm_compute. repeat split; reflexivity. Qed.

(** * Further properties of the code *)

(** ** Library names *)

Section NameFacts.

Lemma digit_is_no_separator (o : Options) (c : ascii) :
  is_digit c = true -> separator o c = false.
Proof.
  intros Hc. destruct (is_digit_ordinary c Hc) as (Hs & Hm & _).
  unfold separator. rewrite Hs, Hm. now destruct (useHyphen o), (useWhitespace o).
Qed.

Lemma digits_are_no_separators (o : Options) (d : string) :
  every is_digit d = true -> every (fun c => negb (separator o c)) d = true.
Proof.
  induction d as [|c d IH]; [reflexivity|]. cbn.
  intros [Hc Hd]%andb_true_iff. now rewrite (digit_is_no_separator o c Hc), IH.
Qed.

Lemma dot_is_no_separator (o : Options) : separator o "." = false.
Proof. unfold separator. now destruct (useHyphen o), (useWhitespace o). Qed.

(** The name expression on [m SEP d1.d2 t]: the first group is [m] when no
    longer first group leaves a separator to match, and the last group ends
    where the digits end. *)
Lemma match_here_versioned (o : Options) (sep : ascii) (m d1 d2 t : string) :
  m <> "" -> every not_space m = true ->
  every is_digit d1 = true -> d1 <> "" ->
  every is_digit d2 = true -> d2 <> "" ->
  separator o sep = true ->
  not_space sep = false
  \/ every (fun c => negb (separator o c)) (d1 +:+ "." +:+ d2 +:+ t) = true ->
  (forall c t', t = String c t' -> is_digit c = false) ->
  match_here o (m +:+ String sep (d1 +:+ "." +:+ d2 +:+ t)) = Some (m, d1, d2).
Proof.
  intros Hm Hsp Hd1 Hn1 Hd2 Hn2 Hsep Hlong Ht. unfold match_here.
  apply many1_longest; try assumption.
  - destruct Hlong as [Hstop|Hno].
    + cbn [many1]. now rewrite Hstop.
    + apply many1_stuck. intros a b Ha Hsplit.
      destruct a as [|x a]; [congruence|].
      snorm_in Hsplit. snorm_in Hno. injection Hsplit as _ Hsplit.
      rewrite Hsplit, every_app in Hno. apply andb_true_iff in Hno as [_ Hb].
      destruct b as [|y b]; [reflexivity|].
      apply every_first, negb_true_iff in Hb. now rewrite Hb.
  - snorm. rewrite Hsep.
    apply many1_longest; try assumption.
    + snorm. reflexivity.
    + snorm. apply many1_longest; try assumption; [|reflexivity].
      destruct t as [|c t']; [reflexivity|].
      cbn [many1]. now rewrite (Ht c t' eq_refl).
Qed.

Lemma fromUberName_versioned (o : Options) (sep : ascii) (m : string)
    (major minor : Z) (t : string) :
  useHyphen o || useWhitespace o = true ->
  m <> "" -> every not_space m = true ->
  0 <= major <= MAX_SAFE_INTEGER -> 0 <= minor <= MAX_SAFE_INTEGER ->
  separator o sep = true ->
  not_space sep = false
  \/ every (fun c => negb (separator o c)) t = true ->
  (forall c t', t = String c t' -> is_digit c = false) ->
  fromUberName (m +:+ String sep (number_to_string major +:+ "."
                                  +:+ number_to_string minor +:+ t)) o
  = Ok (Some (mkLibraryName m major minor)).
Proof.
  intros Ho Hm Hsp Hmaj Hmin Hsep Hlong Ht.
  destruct (number_to_string_nonneg major Hmaj) as [Hd1 Hn1].
  destruct (number_to_string_nonneg minor Hmin) as [Hd2 Hn2].
  unfold fromUberName.
  assert (negb (useHyphen o) && negb (useWhitespace o) = false) as ->
    by (destruct (useHyphen o), (useWhitespace o); cbn in *; congruence).
  rewrite (exec_here _ _ (m, number_to_string major, number_to_string minor)).
  - now rewrite !parseInt_number_to_string.
  - apply match_here_versioned; try assumption.
    destruct Hlong as [Hstop|Hno]; [now left|right].
    rewrite !every_app, (digits_are_no_separators o _ Hd1),
      (digits_are_no_separators o _ Hd2), Hno.
    cbn. now rewrite dot_is_no_separator.
Qed.

(** X1: in each of the three formats (hyphen, white space, both), parsing what
    [toUberName] prints gives the name back, for versions that are safe
    integers and not negative. *)
Theorem fromUberName_toUberName_any_format
    (m : string) (major minor : Z) (o : Options) :
  useHyphen o || useWhitespace o = true ->
  m <> "" ->
  every not_space m = true ->
  0 <= major <= MAX_SAFE_INTEGER ->
  0 <= minor <= MAX_SAFE_INTEGER ->
  fromUberName (toUberName (mkLibraryName m major minor) o) o
  = Ok (Some (mkLibraryName m major minor)).
Proof.
  intros Ho Hm Hsp Hmaj Hmin.
  assert (forall sep,
             m +:+ String sep "" +:+ number_to_string major +:+ "."
               +:+ number_to_string minor
             = m +:+ String sep (number_to_string major +:+ "."
                                 +:+ number_to_string minor +:+ "")) as Hshape.
  { intros sep. snorm. now rewrite sapp_nil_r. }
  unfold toUberName. cbn [machineName majorVersion minorVersion].
  destruct (useHyphen o) eqn:Hh.
  - rewrite (Hshape "-"%char).
    apply fromUberName_versioned; try assumption; try discriminate.
    + now rewrite Hh.
    + unfold separator. rewrite Hh. now destruct (useWhitespace o).
    + now right.
  - cbn in Ho. rewrite Ho. rewrite (Hshape " "%char).
    apply fromUberName_versioned; try assumption; try discriminate.
    + now rewrite Hh, Ho.
    + unfold separator. now rewrite Hh, Ho.
    + now left.
Qed.

Lemma fromUberName_toUberName_any_format_witness :
  fromUberName (toUberName (mkLibraryName "H5P.Test" 1 0) (mkOptions false true))
    (mkOptions false true)
  = Ok (Some (mkLibraryName "H5P.Test" 1 0)).
Proof.
  apply (fromUberName_toUberName_any_format "H5P.Test" 1 0 (mkOptions false true));
    [reflexivity | discriminate | reflexivity | unfold MAX_SAFE_INTEGER; lia
    | unfold MAX_SAFE_INTEGER; lia].
Defined.

(** X2: the expression is not anchored at the end: text after the version
    that has no hyphen and does not go on with a digit (a patch number, a
    path) is ignored.  The versions are safe integers and not negative. *)
Theorem fromUberName_ignores_what_follows
    (m : string) (major minor : Z) (t : string) :
  m <> "" ->
  every not_space m = true ->
  0 <= major <= MAX_SAFE_INTEGER ->
  0 <= minor <= MAX_SAFE_INTEGER ->
  (forall c t', t = String c t' -> is_digit c = false) ->
  every (fun c => negb (Ascii.eqb c "-")) t = true ->
  fromUberName (toUberName (mkLibraryName m major minor) defaultOptions +:+ t)
    defaultOptions
  = Ok (Some (mkLibraryName m major minor)).
Proof.
  intros Hm Hsp Hmaj Hmin Ht Hno.
  unfold toUberName.
  cbn [defaultOptions useHyphen machineName majorVersion minorVersion].
  assert ((m +:+ "-" +:+ number_to_string major +:+ "." +:+ number_to_string minor)
          +:+ t
          = m +:+ String "-" (number_to_string major +:+ "."
                              +:+ number_to_string minor +:+ t)) as ->.
  { rewrite !sapp_assoc. now snorm. }
  apply fromUberName_versioned; try assumption; try reflexivity.
  right. exact Hno.
Qed.

Lemma fromUberName_ignores_what_follows_witness :
  fromUberName (toUberName (mkLibraryName "H5P.Test" 1 0) defaultOptions
                +:+ ".12/scripts/main.js") defaultOptions
  = Ok (Some (mkLibraryName "H5P.Test" 1 0)).
Proof.
  apply (fromUberName_ignores_what_follows "H5P.Test" 1 0 ".12/scripts/main.js");
    [discriminate | reflexivity | unfold MAX_SAFE_INTEGER; lia
    | unfold MAX_SAFE_INTEGER; lia
    | intros c t' [= <- _]; reflexivity | reflexivity].
Defined.

Lemma many1_sound {R : Type} (p : ascii -> bool)
    (k : string -> string -> option R) (s acc : string) (r : R) :
  many1 p s acc k = Some r ->
  exists a b, a <> "" /\ every p a = true /\ s = a +:+ b
              /\ k (acc +:+ a) b = Some r.
Proof.
  revert acc. induction s as [|c s IH]; intros acc H; [discriminate|].
  cbn [many1] in H. destruct (p c) eqn:Hc; [|discriminate].
  destruct (many1 p s (acc +:+ String c "") k) eqn:Hrec.
  - injection H as ->.
    destruct (IH _ Hrec) as (a & b & Ha & Hp & -> & Hk).
    exists (String c a), b. repeat split.
    + discriminate.
    + cbn. now rewrite Hc, Hp.
    + rewrite sapp_assoc in Hk. rewrite <- Hk. now snorm.
  - exists (String c ""), s. repeat split; [discriminate|cbn; now rewrite Hc|exact H].
Qed.

(** What a match of the name expression looks like. *)
Lemma match_here_sound (o : Options) (s g1 g2 g3 : string) :
  match_here o s = Some (g1, g2, g3) ->
  exists sep post,
    s = g1 +:+ String sep (g2 +:+ "." +:+ g3 +:+ post)
    /\ separator o sep = true
    /\ g1 <> "" /\ every not_space g1 = true
    /\ g2 <> "" /\ every is_digit g2 = true
    /\ g3 <> "" /\ every is_digit g3 = true.
Proof.
  unfold match_here. intros H.
  apply many1_sound in H as (a1 & b1 & Ha1 & Hp1 & -> & H).
  destruct b1 as [|sep b1]; [discriminate|].
  destruct (separator o sep) eqn:Hsep; [|discriminate].
  apply many1_sound in H as (a2 & b2 & Ha2 & Hp2 & -> & H).
  destruct b2 as [|dot b2]; [discriminate|].
  destruct (Ascii.eqb_spec dot "."%char) as [->|Hdot].
  2: { destruct dot as [[] [] [] [] [] [] [] []]; try discriminate. now destruct Hdot. }
  apply many1_sound in H as (a3 & b3 & Ha3 & Hp3 & -> & H).
  rewrite !sapp_nil_l in H. injection H as <- <- <-.
  exists sep, b3. snorm. repeat split; assumption.
Qed.

Lemma exec_sound (o : Options) (s : string) r :
  exec o s = Some r ->
  exists pre s', s = pre +:+ s' /\ match_here o s' = Some r.
Proof.
  induction s as [|c s IH]; cbn [exec].
  - destruct (match_here o "") eqn:Hm; [|discriminate].
    intros [= <-]. now exists "", "".
  - destruct (match_here o (String c s)) eqn:Hm.
    + intros [= <-]. now exists "", (String c s).
    + intros (pre & s' & -> & H)%IH. now exists (String c pre), s'.
Qed.

(** The groups of a match are always numbers, so a match always gives a
    name. *)
Lemma fromUberName_exec (o : Options) (s : string) :
  useHyphen o || useWhitespace o = true ->
  fromUberName s o
  = Ok (match exec o s with
        | Some (g1, g2, g3) =>
            Some (mkLibraryName g1 (toNumber (Z.of_N (digits_value 0 g2)))
                    (toNumber (Z.of_N (digits_value 0 g3))))
        | None => None
        end).
Proof.
  intros Ho. unfold fromUberName.
  assert (negb (useHyphen o) && negb (useWhitespace o) = false) as ->
    by (destruct (useHyphen o), (useWhitespace o); cbn in *; congruence).
  destruct (exec o s) as [[[g1 g2] g3]|] eqn:He; [|reflexivity].
  apply exec_sound in He as (pre & s' & _ & Hm).
  apply match_here_sound in Hm
    as (sep & post & _ & _ & _ & _ & Hn2 & Hd2 & Hn3 & Hd3).
  now rewrite (parseInt_digits g2 Hd2 Hn2), (parseInt_digits g3 Hd3 Hn3).
Qed.

(** X3: a name that [fromUberName] returns was read off the text: the text
    holds the machine name (not empty, without white space), a separator of
    the chosen format, and two runs of digits with a dot between them; the
    versions are what [parseInt] makes of the runs, the numbers nearest to
    their values. *)
Theorem fromUberName_sound (s : string) (o : Options) (n : ILibraryName) :
  fromUberName s o = Ok (Some n) ->
  exists pre sep d1 d2 post,
    s = pre +:+ machineName n +:+ String sep (d1 +:+ "." +:+ d2 +:+ post)
    /\ separator o sep = true
    /\ machineName n <> "" /\ every not_space (machineName n) = true
    /\ d1 <> "" /\ every is_digit d1 = true /\ parseInt d1 = Some (majorVersion n)
    /\ d2 <> "" /\ every is_digit d2 = true /\ parseInt d2 = Some (minorVersion n)
    /\ majorVersion n = toNumber (Z.of_N (digits_value 0 d1))
    /\ minorVersion n = toNumber (Z.of_N (digits_value 0 d2)).
Proof.
  intros H.
  destruct (useHyphen o || useWhitespace o) eqn:Ho.
  2: { unfold fromUberName in H.
       destruct (useHyphen o), (useWhitespace o); cbn in *; congruence. }
  rewrite (fromUberName_exec o s Ho) in H.
  destruct (exec o s) as [[[g1 g2] g3]|] eqn:He; [|discriminate].
  injection H as <-. cbn [machineName majorVersion minorVersion].
  apply exec_sound in He as (pre & s' & -> & Hm).
  apply match_here_sound in Hm
    as (sep & post & -> & Hsep & Hn1 & Hp1 & Hn2 & Hd2 & Hn3 & Hd3).
  exists pre, sep, g2, g3, post.
  rewrite (parseInt_digits g2 Hd2 Hn2), (parseInt_digits g3 Hd3 Hn3).
  repeat split; assumption.
Qed.

Lemma fromUberName_sound_witness :
  exists pre sep d1 d2 post,
    "libraries/H5P.Test-1.20/main.js"
    = pre +:+ "libraries/H5P.Test" +:+ String sep (d1 +:+ "." +:+ d2 +:+ post)
    /\ separator defaultOptions sep = true
    /\ "libraries/H5P.Test" <> "" /\ every not_space "libraries/H5P.Test" = true
    /\ d1 <> "" /\ every is_digit d1 = true /\ parseInt d1 = Some (Finite 1)
    /\ d2 <> "" /\ every is_digit d2 = true /\ parseInt d2 = Some (Finite 20)
    /\ Finite 1 = toNumber (Z.of_N (digits_value 0 d1))
    /\ Finite 20 = toNumber (Z.of_N (digits_value 0 d2)).
Proof.
  apply (fromUberName_sound "libraries/H5P.Test-1.20/main.js" defaultOptions
           (mkLibraryName "libraries/H5P.Test" 1 20)).
  vm_compute. reflexivity.
Defined.

(** A run of twenty digits: the version is the number nearest to its value,
    and a run of 400 digits is above every number. *)
Example fromUberName_long_runs :
  fromUberName "H5P.Test-99999999999999999999.0" defaultOptions
  = Ok (Some (mkLibraryName "H5P.Test" (10 ^ 20) 0))
  /\ parseInt (N_to_string (10 ^ 400)) = Some Infinity.
Proof. vm_compute. split; reflexivity. Qed.

(** X4: a text without a separator of the chosen format is no library name:
    the result is [undefined], whatever else the text holds. *)
Theorem fromUberName_without_separator (s : string) (o : Options) :
  useHyphen o || useWhitespace o = true ->
  every (fun c => negb (separator o c)) s = true ->
  fromUberName s o = Ok None.
Proof.
  intros Ho Hs. rewrite (fromUberName_exec o s Ho).
  destruct (exec o s) as [[[g1 g2] g3]|] eqn:He; [exfalso|reflexivity].
  apply exec_sound in He as (pre & s' & -> & Hm).
  apply match_here_sound in Hm as (sep & post & -> & Hsep & _).
  rewrite !every_app in Hs.
  apply andb_true_iff in Hs as [_ Hs]. apply andb_true_iff in Hs as [_ Hs].
  apply every_first in Hs. rewrite Hsep in Hs. discriminate.
Qed.

Lemma fromUberName_without_separator_witness :
  fromUberName "H5P.Test 1.0" defaultOptions = Ok None.
Proof.
  apply (fromUberName_without_separator "H5P.Test 1.0" defaultOptions);
    reflexivity.
Defined.

End NameFacts.

(** ** More on the library manager *)

Section ManagerExtras.

Import LibraryManager.

Context {S : Type} (st : Storage.t S).
Context (sort : list InstalledLibrary -> list InstalledLibrary).

(** X5: [getInstalled] does not skip a library it cannot load: when the
    storage lists a library whose descriptor [loadLibrary] cannot read, the
    whole call is rejected with a [TypeError], and nothing is changed. *)
Theorem getInstalled_rejects_unloadable
    (machineNames : list string) (s : S) (libraries : list ILibraryName)
    (library : ILibraryName) :
  Storage.getInstalled st machineNames s = Ok libraries ->
  In library libraries ->
  fst (loadLibrary st library s) = Ok None ->
  exists e, getInstalled st sort machineNames s = (Throw e, s)
            /\ ex_class e = TypeError.
Proof.
  intros Hlist Hin Hload.
  unfold getInstalled. unfold bind at 1, read at 1. rewrite Hlist.
  unfold bind. rewrite (promise_all_reads _ _ _ (readonly_loadInstalled st)).
  destruct (List.find _ libraries) as [bad|] eqn:Hfind.
  - apply find_some in Hfind as [_ Hbad].
    rewrite loadInstalled_run in Hbad |- *. cbn [fst] in *.
    destruct (fst (loadLibrary st bad s)) as [[l|]|e]; try discriminate;
      now exists (mkException TypeError
                    "Cannot read property 'patchVersion' of undefined").
  - exfalso. apply (find_none _ _ Hfind) in Hin.
    rewrite loadInstalled_run in Hin. cbn [fst] in Hin.
    now rewrite Hload in Hin.
Qed.

(** *** The consistency check *)

Lemma readonly_checkFiles library requiredFiles :
  readonly (checkFiles st library requiredFiles).
Proof.
  apply readonly_bind.
  - apply readonly_promise_all, List.Forall_forall. intros m Hm.
    apply in_map_iff in Hm as (f & <- & _).
    apply readonly_bind; [apply readonly_read|]. auto with readonly.
  - intros statuses. cbv beta zeta. destruct (Nat.ltb _ _); auto with readonly.
Qed.

Lemma readonly_checkConsistency library : readonly (checkConsistency st library).
Proof.
  apply readonly_bind; [apply readonly_read|]. intros id.
  destruct (negb (truthy id)); [auto with readonly|].
  apply readonly_bind.
  { apply readonly_try_catch; [apply readonly_getJsonFile|auto with readonly]. }
  intros metadata.
  apply readonly_bind.
  { destruct (preloadedJs metadata); [apply readonly_checkFiles|auto with readonly]. }
  intros _. apply readonly_bind; [|auto with readonly].
  destruct (preloadedCss metadata); [apply readonly_checkFiles|auto with readonly].
Qed.

Lemma checkFiles_cases library requiredFiles s :
  Forall (answered st library s) requiredFiles
  \/ exists e, checkFiles st library requiredFiles s = (Throw e, s).
Proof.
  unfold checkFiles. unfold bind at 1.
  rewrite (promise_all_reads
             (fun file => let* status := read (Storage.fileExists st library file) in
                          ret (file, status))).
  2:{ intros f. apply readonly_bind; [apply readonly_read|]. auto with readonly. }
  destruct (List.find _ requiredFiles) as [bad|] eqn:Hfind.
  - right. apply find_some in Hfind as [_ Hbad].
    destruct (fst _) as [?|e]; [discriminate|]. now exists e.
  - left. apply List.Forall_forall. intros file Hin.
    apply (find_none _ _ Hfind) in Hin. unfold bind, read, ret in Hin.
    unfold answered.
    destruct (Storage.fileExists st library file s) as [b|e]; [now exists b|].
    discriminate.
Qed.

Lemma absent_nil library s requiredFiles :
  absent st library s requiredFiles = []
  <-> Forall (fun file => Storage.fileExists st library file s = Ok true) requiredFiles.
Proof.
  unfold absent. induction requiredFiles as [|file rest IH]; cbn [List.filter].
  - split; [constructor|reflexivity].
  - rewrite Forall_cons_iff, <- IH.
    destruct (Storage.fileExists st library file s) as [[]|e];
      split; try tauto; try discriminate; intros [[=] _].
Qed.

(** [checkFiles] succeeds exactly when the storage says of every file that it
    exists, and then with [true]. *)
Lemma checkFiles_ok_iff library requiredFiles s :
  (exists b, fst (checkFiles st library requiredFiles s) = Ok b)
  <-> Forall (fun file => Storage.fileExists st library file s = Ok true) requiredFiles.
Proof.
  split.
  - intros [b Hb]. destruct (checkFiles_cases library requiredFiles s) as [Hans|[e He]].
    + rewrite (checkFiles_run st library s requiredFiles Hans) in Hb.
      apply absent_nil.
      now destruct (absent st library s requiredFiles).
    + rewrite He in Hb. discriminate.
  - intros Hall. exists true.
    rewrite (checkFiles_run st library s requiredFiles).
    + apply absent_nil in Hall. now rewrite Hall.
    + eapply Forall_impl; [exact Hall|]. intros file Hf. now exists true.
Qed.

Lemma checkFiles_ok library requiredFiles s :
  Forall (fun file => Storage.fileExists st library file s = Ok true) requiredFiles ->
  checkFiles st library requiredFiles s = (Ok true, s).
Proof.
  intros Hall. rewrite (checkFiles_run st library s requiredFiles).
  - apply absent_nil in Hall. now rewrite Hall.
  - eapply Forall_impl; [exact Hall|]. intros file Hf. now exists true.
Qed.

(** X6: [checkConsistency] returns [true] exactly when the library has an id,
    its descriptor can be read, and the storage has every file of
    [preloadedJs] and of [preloadedCss]; it never changes the storage. *)
Theorem checkConsistency_true_iff (library : ILibraryName) (s : S) :
  (checkConsistency st library s = (Ok true, s)
   <-> exists id file metadata,
         Storage.getId st library s = Ok (Some id) /\ id <> 0
         /\ Storage.getFileStream st library "library.json" s = Ok file
         /\ json file = Some metadata
         /\ Forall (fun f => Storage.fileExists st library f s = Ok true)
              (map path (default [] (preloadedJs metadata))
               ++ map path (default [] (preloadedCss metadata))))
  /\ snd (checkConsistency st library s) = s
  /\ fst (checkConsistency st library s) <> Ok false.
Proof.
  assert (forall assets : option (list IPath),
             (exists b, fst ((match assets with
                              | Some l => checkFiles st library (map path l)
                              | None => ret true
                              end) s) = Ok b)
             <-> Forall (fun f => Storage.fileExists st library f s = Ok true)
                   (map path (default [] assets))) as Hlist.
  { intros [l|]; [apply checkFiles_ok_iff|].
    cbn. split; [constructor|now exists true]. }
  assert (forall assets : option (list IPath),
             readonly (match assets with
                       | Some l => checkFiles st library (map path l)
                       | None => ret true
                       end)) as Hro.
  { intros [l|]; [apply readonly_checkFiles|auto with readonly]. }
  split; [|split; [apply readonly_checkConsistency|]].
  - unfold checkConsistency. unfold bind at 1, read at 1.
    split.
    + destruct (Storage.getId st library s) as [id|e]; [|discriminate].
      destruct id as [id|]; cbn [truthy negb]; [|discriminate].
      destruct (Z.eqb_spec id 0) as [|Hnz]; cbn [negb]; [discriminate|].
      unfold bind at 1, try_catch, getJsonFile. unfold bind at 1, read at 1.
      destruct (Storage.getFileStream st library "library.json" s) as [file|e];
        [|discriminate].
      destruct (json file) as [metadata|] eqn:Hjson; [|discriminate].
      cbn [ret]. intros H.
      apply bind_ok_inv in H as (b1 & s1 & Hjs & H).
      apply bind_ok_inv in H as (b2 & s2 & Hcss & _).
      pose proof (readonly_state _ _ _ _ (Hro _) Hjs) as ->.
      exists id, file, metadata. repeat split; try assumption.
      apply Forall_app. split; apply Hlist; eexists.
      * now rewrite Hjs.
      * now rewrite Hcss.
    + intros (id & file & metadata & -> & Hnz & Hfile & Hjson & Hall).
      cbn [truthy]. destruct (Z.eqb_spec id 0) as [|_]; [contradiction|].
      cbn [negb].
      unfold bind at 1, try_catch, getJsonFile. unfold bind at 1, read at 1.
      rewrite Hfile, Hjson. cbn [ret].
      apply Forall_app in Hall as [Hjs Hcss].
      apply Hlist in Hjs as [b1 Hjs]. apply Hlist in Hcss as [b2 Hcss].
      rewrite (bind_ok _ _ s s b1) by now apply readonly_run.
      rewrite (bind_ok _ _ s s b2) by now apply readonly_run.
      reflexivity.
  - destruct (checkConsistency st library s) as [[[]|e] s'] eqn:E;
      cbn [fst]; try discriminate.
    exfalso. unfold checkConsistency in E.
    apply bind_ok_inv in E as (id & s1 & _ & E).
    destruct (negb (truthy id)); [discriminate|].
    apply bind_ok_inv in E as (metadata & s2 & _ & E).
    apply bind_ok_inv in E as (b1 & s3 & _ & E).
    apply bind_ok_inv in E as (b2 & s4 & _ & E).
    discriminate.
Qed.

(** *** Copying and installing *)

Lemma checkConsistency_ok library s b s' :
  checkConsistency st library s = (Ok b, s') ->
  checkConsistency st library s' = (Ok true, s').
Proof.
  intros H.
  pose proof (readonly_state _ _ _ _ (readonly_checkConsistency library) H) as ->.
  destruct b; [exact H|]. exfalso. unfold checkConsistency in H.
  apply bind_ok_inv in H as (id & s1 & _ & H).
  destruct (negb (truthy id)); [discriminate|].
  apply bind_ok_inv in H as (metadata & s2 & _ & H).
  apply bind_ok_inv in H as (b1 & s3 & _ & H).
  apply bind_ok_inv in H as (b2 & s4 & _ & H).
  discriminate.
Qed.

Lemma installLibrary_ok directory metadata restricted s r s' :
  installLibrary st directory metadata restricted s = (Ok r, s') ->
  checkConsistency st (name metadata) s' = (Ok true, s').
Proof.
  unfold installLibrary. intros H.
  apply bind_ok_inv in H as (newLibraryInfo & s1 & _ & H).
  apply bind_ok_inv in H as ([] & s2 & H & [= _ <-]).
  unfold try_catch in H.
  destruct ((copyLibraryFiles st directory (name (info newLibraryInfo)) >>
             checkConsistency st (name metadata) >> ret tt) s1)
    as [[[]|e] s3] eqn:Hbody.
  - injection H as <-.
    apply bind_ok_inv in Hbody as ([] & s4 & _ & Hbody).
    apply bind_ok_inv in Hbody as (b & s5 & Hcheck & [= <-]).
    exact (checkConsistency_ok _ _ _ _ Hcheck).
  - unfold bind, throw in H.
    destruct (Storage.removeLibrary st (name metadata) s3) as [[[]|e'] s4];
      discriminate.
Qed.

Lemma updateLibrary_ok metadata directory s r s' :
  updateLibrary st metadata directory s = (Ok r, s') ->
  checkConsistency st (name metadata) s' = (Ok true, s').
Proof.
  unfold updateLibrary, try_catch. intros H.
  destruct ((Storage.updateLibrary st metadata >>
             Storage.clearLibraryFiles st (name metadata) >>
             copyLibraryFiles st directory (name metadata) >>
             checkConsistency st (name metadata) >> ret tt) s)
    as [[[]|e] s3] eqn:Hbody.
  - injection H as _ <-.
    apply bind_ok_inv in Hbody as ([] & s4 & _ & Hbody).
    apply bind_ok_inv in Hbody as ([] & s5 & _ & Hbody).
    apply bind_ok_inv in Hbody as ([] & s6 & _ & Hbody).
    apply bind_ok_inv in Hbody as (b & s7 & Hcheck & Heq).
    injection Heq as Heq. subst s7.
    exact (checkConsistency_ok _ _ _ _ Hcheck).
  - unfold bind, throw in H.
    destruct (Storage.removeLibrary st (name metadata) s3) as [[[]|e'] s4];
      discriminate.
Qed.

Lemma readonly_isPatchedLibrary metadata :
  readonly (isPatchedLibrary st sort metadata).
Proof.
  apply readonly_bind; [apply readonly_getInstalled|]. intros infos.
  destruct (versionsOf _ infos); auto with readonly.
Qed.

(** X8: [installFromDirectory] answers [false] only for an identity that is
    installed and of which the directory holds no newer patch; the storage is
    then as it was. *)
Theorem installFromDirectory_false_changes_nothing
    (directory : Directory) (restricted : bool) (s s' : S) :
  installFromDirectory st sort directory restricted s = (Ok false, s') ->
  s' = s
  /\ exists metadata id,
       readJSON directory = Ok metadata
       /\ Storage.getId st (name metadata) s = Ok (Some id) /\ id <> 0
       /\ isPatchedLibrary st sort metadata s = (Ok false, s).
Proof.
  unfold installFromDirectory, getId. intros H.
  apply bind_ok_inv in H as (metadata & s1 & Hjson & H).
  unfold read in Hjson. injection Hjson as Hjson <-.
  apply bind_ok_inv in H as (id & s1 & Hid & H).
  unfold read in Hid. injection Hid as Hid <-.
  destruct (truthy id) eqn:Htruthy.
  - apply bind_ok_inv in H as (patched & s1 & Hpatched & H).
    pose proof (readonly_state _ _ _ _ (readonly_isPatchedLibrary metadata) Hpatched)
      as ->.
    destruct patched.
    + apply bind_ok_inv in H as (? & ? & _ & [=]).
    + injection H as <-. split; [reflexivity|].
      destruct id as [id|]; [|discriminate]. cbn in Htruthy.
      exists metadata, id. repeat split; try assumption.
      intros ->. discriminate.
  - apply bind_ok_inv in H as (? & ? & _ & [=]).
Qed.

(** X9: when [installFromDirectory] answers [true], be it after a fresh
    install or after an update, the consistency check of the library of the
    directory holds in the storage it leaves. *)
Theorem installFromDirectory_true_is_consistent
    (directory : Directory) (restricted : bool) (s s' : S)
    (metadata : ILibraryMetadata) :
  readJSON directory = Ok metadata ->
  installFromDirectory st sort directory restricted s = (Ok true, s') ->
  checkConsistency st (name metadata) s' = (Ok true, s').
Proof.
  unfold installFromDirectory, getId. intros Hjson H.
  unfold bind at 1, read at 1 in H. rewrite Hjson in H.
  apply bind_ok_inv in H as (id & s1 & Hid & H).
  unfold read in Hid. injection Hid as Hid <-.
  destruct (truthy id).
  - apply bind_ok_inv in H as (patched & s1 & Hpatched & H).
    destruct patched; [|discriminate].
    apply bind_ok_inv in H as ([] & s2 & Hupdate & [= <-]).
    exact (updateLibrary_ok _ _ _ _ _ Hupdate).
  - apply bind_ok_inv in H as (r & s2 & Hinstall & [= <-]).
    exact (installLibrary_ok _ _ _ _ _ _ Hinstall).
Qed.

End ManagerExtras.

(** ** More on the decorator *)

Section CacheExtras.

Import CachedLibraryStorage.

Context {S : Type} (storage : Storage.t S).

Lemma wrap_run {A : Type} (key : string) (f : S -> outcome A) (inj : A -> value) c :
  wrap key (let* x := query f in ret (inj x)) c
  = match cache c !! key with
    | Some v => (Ok v, c)
    | None =>
        match answerWith inj (f (backing c)) with
        | Ok v => (Ok v, mkState (backing c) (<[key := v]> (cache c)) (trace c))
        | Throw e => (Throw e, c)
        end
    end.
Proof.
  unfold wrap, bind, query, ret, answerWith.
  destruct (cache c !! key); [reflexivity|]. now destruct (f (backing c)).
Qed.

(** What a cached method does: answer from the cache, or ask the backing
    storage and keep a successful answer. *)
Lemma ask_run (q : Query) (c : State S) :
  q <> QListAddons \/ Storage.listAddons storage <> None ->
  ask storage q c
  = match cache c !! keyOf q with
    | Some v => (Ok v, c)
    | None =>
        match answer storage q (backing c) with
        | Ok v => (Ok v, mkState (backing c) (<[keyOf q := v]> (cache c)) (trace c))
        | Throw e => (Throw e, c)
        end
    end.
Proof.
  intros Hq.
  destruct q as [l f|l f|l f|l|l|l|[[|ch m]|]|]; cbn [keyOf ask answer];
    try apply wrap_run.
  unfold listAddons. destruct (Storage.listAddons storage); [apply wrap_run|].
  destruct Hq as [Hq|Hq]; congruence.
Qed.

Lemma ask_without_capability (c : State S) :
  Storage.listAddons storage = None ->
  ask storage QListAddons c = (Ok (VAddons []), c).
Proof. intros H. cbn [ask]. unfold listAddons. now rewrite H. Qed.

Lemma capability_cases (q : Query) :
  (q <> QListAddons \/ Storage.listAddons storage <> None)
  \/ (q = QListAddons /\ Storage.listAddons storage = None).
Proof.
  destruct q; try (left; left; discriminate).
  destruct (Storage.listAddons storage); [left; right; discriminate|now right].
Qed.

(** X10: a cached method answers a query once from the backing storage: when
    it has returned a value, the same query gets the same value from the
    cache, whatever the backing storage has become in the meantime. *)
Theorem answered_query_is_served_from_cache
    (q : Query) (c c' : State S) (v : value) (s'' : S) (events : list Event) :
  ask storage q c = (Ok v, c') ->
  ask storage q (mkState s'' (cache c') events)
  = (Ok v, mkState s'' (cache c') events).
Proof.
  intros H. destruct (capability_cases q) as [Hq|[-> Hnone]].
  - rewrite (ask_run q c Hq) in H. rewrite (ask_run q _ Hq). cbn [cache].
    destruct (cache c !! keyOf q) as [v0|] eqn:Hc.
    + injection H as -> <-. now rewrite Hc.
    + destruct (answer storage q (backing c)) as [v0|e]; [|discriminate].
      injection H as -> <-. cbn [cache]. now rewrite lookup_insert_eq.
  - rewrite (ask_without_capability c Hnone) in H.
    rewrite (ask_without_capability _ Hnone). now injection H as <- _.
Qed.

(** X11: a cached method never writes to the backing storage and adds no
    event; of the cache it changes at most the key of the query; and an
    error is the backing storage's and is not kept: after it the cache is as
    it was. *)
Theorem cached_query_frame (q : Query) (c : State S) :
  backing (snd (ask storage q c)) = backing c
  /\ trace (snd (ask storage q c)) = trace c
  /\ (forall key, key <> keyOf q ->
                  cache (snd (ask storage q c)) !! key = cache c !! key)
  /\ (forall e, fst (ask storage q c) = Throw e ->
                snd (ask storage q c) = c /\ answer storage q (backing c) = Throw e).
Proof.
  destruct (capability_cases q) as [Hq|[-> Hnone]].
  - rewrite (ask_run q _ Hq).
    destruct (cache c !! keyOf q) as [v0|] eqn:Hc; cbn [fst snd].
    + repeat split; try reflexivity; discriminate.
    + destruct (answer storage q (backing c)) as [v0|e0]; cbn [fst snd backing trace cache].
      * repeat split; try reflexivity; try discriminate.
        intros key Hkey. now apply lookup_insert_ne.
      * repeat split; try reflexivity; congruence.
  - rewrite (ask_without_capability _ Hnone). cbn [fst snd].
    repeat split; try reflexivity; discriminate.
Qed.

(** X12: [clearCache] empties the cache and nothing else: the backing storage
    and the events are as before, and every query that follows gets the
    answer of the backing storage. *)
Theorem clearCache_makes_every_query_fresh (q : Query) (c : State S) :
  fst (clearCache c) = Ok tt
  /\ backing (snd (clearCache c)) = backing c
  /\ trace (snd (clearCache c)) = trace c
  /\ fst (ask storage q (snd (clearCache c))) = answer storage q (backing c).
Proof.
  repeat split. apply (ask_miss storage q (snd (clearCache c))).
  cbn. apply lookup_empty.
Qed.

(** *** The writing methods *)

Lemma ret_deletes {A : Type} (a : A) (c : State S) : ret a c = (Ok a, deletes [] c).
Proof. now rewrite deletes_nil. Qed.

Lemma del_then {A : Type} (key : string) (keys : list string)
    (m : M (State S) A) (a : A) :
  (forall c, m c = (Ok a, deletes keys c)) ->
  forall c, (del key >> m) c = (Ok a, deletes (key :: keys) c).
Proof.
  intros H c. unfold bind, del. rewrite H. unfold deletes. cbn.
  now rewrite <- app_assoc.
Qed.

(** A write that is called and awaited, its result returned after the
    invalidations. *)
Lemma awaited_write_result {A : Type} (w : Write) (op : M S A)
    (k : A -> M (State S) A) (keys : list string) (c : State S) :
  (forall a c', k a c' = (Ok a, deletes keys c')) ->
  (let* promise := call w op in let* result := await promise in k result) c
  = (fst (op (backing c)),
     match fst (op (backing c)) with
     | Ok _ => deletes keys (written w op c)
     | Throw _ => written w op c
     end).
Proof.
  intros Hk. unfold bind, call, await, log, written. cbn.
  destruct (op (backing c)) as [[a|e] s']; cbn.
  - rewrite Hk. unfold deletes. cbn. now rewrite <- !app_assoc.
  - now rewrite <- !app_assoc.
Qed.

Lemma backing_deletes keys (c : State S) : backing (deletes keys c) = backing c.
Proof. reflexivity. Qed.

Lemma addFile_run library filename readStream c :
  addFile storage library filename readStream c
  = (fst (Storage.addFile storage library filename readStream (backing c)),
     match fst (Storage.addFile storage library filename readStream (backing c)) with
     | Ok _ => deletes (fileKeys library filename)
                 (written WAddFile
                    (Storage.addFile storage library filename readStream) c)
     | Throw _ => written WAddFile
                    (Storage.addFile storage library filename readStream) c
     end).
Proof.
  apply awaited_write_result. intros a c'. unfold bind.
  destruct (invalidates_deleteFileCache (S := S) library filename c') as [[] ->].
  reflexivity.
Qed.

Lemma updateAdditionalMetadata_run library additional c :
  updateAdditionalMetadata storage library additional c
  = (fst (Storage.updateAdditionalMetadata storage library additional (backing c)),
     match fst (Storage.updateAdditionalMetadata storage library additional
                  (backing c)) with
     | Ok _ => deletes [getCacheKeyForMetadata library METADATA_CACHE_KEY]
                 (written WUpdateAdditionalMetadata
                    (Storage.updateAdditionalMetadata storage library additional) c)
     | Throw _ => written WUpdateAdditionalMetadata
                    (Storage.updateAdditionalMetadata storage library additional) c
     end).
Proof.
  apply awaited_write_result. intros a c'.
  apply del_then. apply ret_deletes.
Qed.

Lemma updateLibrary_run libraryMetadata c :
  updateLibrary storage libraryMetadata c
  = (fst (Storage.updateLibrary storage libraryMetadata (backing c)),
     match fst (Storage.updateLibrary storage libraryMetadata (backing c)) with
     | Ok _ => deletes (invalidationSet (CUpdateLibrary libraryMetadata) [])
                 (written WUpdateLibrary
                    (Storage.updateLibrary storage libraryMetadata) c)
     | Throw _ => written WUpdateLibrary
                    (Storage.updateLibrary storage libraryMetadata) c
     end).
Proof.
  apply awaited_write_result. intros a c'. cbn [invalidationSet].
  do 4 apply del_then. apply ret_deletes.
Qed.

(** X13: the writing methods hand the write to the backing storage and
    return its result or its error; the backing storage they leave is the one
    the write leaves.  [clearFiles] and [deleteLibrary] first list the files
    of the library: when that fails, the error is returned and the write is
    not made. *)
Theorem writes_reach_the_backing_storage (c : State S) :
  (forall library filename readStream,
      let op := Storage.addFile storage library filename readStream in
      fst (addFile storage library filename readStream c) = fst (op (backing c))
      /\ backing (snd (addFile storage library filename readStream c))
         = snd (op (backing c)))
  /\ (forall libraryData restricted,
         let op := Storage.addLibrary storage libraryData restricted in
         fst (addLibrary storage libraryData restricted c) = fst (op (backing c))
         /\ backing (snd (addLibrary storage libraryData restricted c))
            = snd (op (backing c)))
  /\ (forall library additional,
         let op := Storage.updateAdditionalMetadata storage library additional in
         fst (updateAdditionalMetadata storage library additional c)
         = fst (op (backing c))
         /\ backing (snd (updateAdditionalMetadata storage library additional c))
            = snd (op (backing c)))
  /\ (forall libraryMetadata,
         let op := Storage.updateLibrary storage libraryMetadata in
         fst (updateLibrary storage libraryMetadata c) = fst (op (backing c))
         /\ backing (snd (updateLibrary storage libraryMetadata c))
            = snd (op (backing c)))
  /\ (forall library,
         match Storage.listFiles storage library (backing c) with
         | Ok _ =>
             fst (clearFiles storage library c)
             = fst (Storage.clearFiles storage library (backing c))
             /\ backing (snd (clearFiles storage library c))
                = snd (Storage.clearFiles storage library (backing c))
         | Throw e => clearFiles storage library c = (Throw e, c)
         end)
  /\ (forall library,
         match Storage.listFiles storage library (backing c) with
         | Ok _ =>
             fst (deleteLibrary storage library c)
             = fst (Storage.deleteLibrary storage library (backing c))
             /\ backing (snd (deleteLibrary storage library c))
                = snd (Storage.deleteLibrary storage library (backing c))
         | Throw e => deleteLibrary storage library c = (Throw e, c)
         end).
Proof.
  repeat split; intros; cbv zeta.
  - now rewrite addFile_run.
  - rewrite addFile_run. cbn [snd]. now destruct (fst _).
  - now rewrite run_addLibrary.
  - now rewrite run_addLibrary.
  - now rewrite updateAdditionalMetadata_run.
  - rewrite updateAdditionalMetadata_run. cbn [snd]. now destruct (fst _).
  - now rewrite updateLibrary_run.
  - rewrite updateLibrary_run. cbn [snd]. now destruct (fst _).
  - pose proof (run_clearFiles storage library c) as H.
    destruct (Storage.listFiles storage library (backing c)); [|exact H].
    destruct (Storage.clearFiles storage library (backing c)) as [[[]|e] s'] eqn:E;
      cbn [fst snd] in *; rewrite H; unfold deletes, written; cbn;
      now rewrite E.
  - pose proof (run_deleteLibrary storage library c) as H.
    destruct (Storage.listFiles storage library (backing c)); [|exact H].
    destruct (Storage.deleteLibrary storage library (backing c)) as [[[]|e] s'] eqn:E;
      cbn [fst snd] in *; rewrite H; unfold deletes, written; cbn;
      now rewrite E.
Qed.

Lemma cache_deletes keys (c : State S) (key : string) :
  ~ In key keys -> cache (deletes keys c) !! key = cache c !! key.
Proof. intros H. unfold deletes. cbn [cache]. now apply kept_key_stays. Qed.

(** X14: a write deletes no key outside its invalidation set: whether it
    succeeds or fails, every other entry of the cache is as before. *)
Theorem writes_keep_other_keys (w : WriteCall) (c : State S) (key : string) :
  ~ In key (invalidationSet w (listed storage w (backing c))) ->
  cache (snd (perform storage w c)) !! key = cache c !! key.
Proof.
  intros Hnin.
  destruct w as [l f d|md r|l|l|l a|md]; cbn [perform listed] in *.
  - destruct (bind_ret_tt (addFile storage l f d) c) as [-> _].
    rewrite addFile_run. cbn [snd].
    destruct (fst _); [now rewrite cache_deletes|reflexivity].
  - destruct (bind_ret_tt (addLibrary storage md r) c) as [-> _].
    rewrite run_addLibrary. cbn [snd cache]. now apply kept_key_stays.
  - pose proof (run_clearFiles storage l c) as H.
    destruct (Storage.listFiles storage l (backing c)) as [files|e];
      [|now rewrite H].
    destruct (fst (Storage.clearFiles storage l (backing c)));
      rewrite H; cbn [snd]; [now rewrite cache_deletes|reflexivity].
  - pose proof (run_deleteLibrary storage l c) as H.
    destruct (Storage.listFiles storage l (backing c)) as [files|e];
      [|now rewrite H].
    destruct (fst (Storage.deleteLibrary storage l (backing c)));
      rewrite H; cbn [snd]; [now rewrite cache_deletes|reflexivity].
  - destruct (bind_ret_tt (updateAdditionalMetadata storage l a) c) as [-> _].
    rewrite updateAdditionalMetadata_run. cbn [snd].
    destruct (fst _); [now rewrite cache_deletes|reflexivity].
  - destruct (bind_ret_tt (updateLibrary storage md) c) as [-> _].
    rewrite updateLibrary_run. cbn [snd].
    destruct (fst _); [now rewrite cache_deletes|reflexivity].
Qed.

(** X18: the key of the list of a machine name can be the key of a library's
    metadata: for a library whose machine name starts with
    [installed-library-names-], [getInstalledLibraryNames] for a machine name
    that spells the rest of the library's key is answered with what is cached
    for the library, whatever kind of value that is. *)
Theorem list_query_can_hit_library_entry
    (library : ILibraryName) (usage rest : string) (c : State S) (v : value) :
  machineName library = "installed-library-names-" +:+ rest ->
  cache c !! getCacheKeyForMetadata library usage = Some v ->
  getInstalledLibraryNames storage
    (Some (rest +:+ "-" +:+ number_to_string (majorVersion library) +:+ "."
           +:+ number_to_string (minorVersion library) +:+ "-" +:+ usage)) c
  = (Ok v, c).
Proof.
  intros Hname Hv.
  set (machine := rest +:+ "-" +:+ number_to_string (majorVersion library) +:+ "."
                  +:+ number_to_string (minorVersion library) +:+ "-" +:+ usage).
  assert (getCacheKeyForLibraryListByMachineName machine
          = getCacheKeyForMetadata library usage) as Hkey.
  { unfold getCacheKeyForLibraryListByMachineName, getCacheKeyForMetadata,
      toUberName, machine, INSTALLED_LIBRARY_NAMES_CACHE_KEY.
    cbn [defaultOptions useHyphen]. rewrite Hname.
    change "installed-library-names-" with ("installed-library-names" +:+ "-").
    now rewrite !sapp_assoc. }
  assert (exists ch m, machine = String ch m) as (ch & m & Hshape).
  { unfold machine. destruct rest as [|ch rest']; snorm; eexists; eexists; reflexivity. }
  rewrite Hshape in *. unfold getInstalledLibraryNames, wrap.
  now rewrite Hkey, Hv.
Qed.

End CacheExtras.

(** ** More on the package manager *)

Section PackageExtras.

Import PackageManager.

Context {S : Type}.
Context (libraryStorage : LibraryManager.Storage.t S).
Context (sort : list InstalledLibrary -> list InstalledLibrary).
Context (maxFileSize maxTotalSize : Z).
Context (issues : list Entry -> bool -> bool -> list ValidationIssue).
Context (copyContentFromDirectory :
           option (Directory -> option ContentId -> M S ContentId)).
Context (tempDirPath : string).

(** X19: whatever the validator rejects a package with, [processPackage]
    stops there: nothing is extracted or installed, the disk and the storage
    are as they were; a [ValidationError] reaches the caller as an [H5pError]
    with the same message, any other error as it is. *)
Theorem rejected_package_changes_nothing
    (packagePath : list Entry) (installLibraries copyContent : bool)
    (contentId : option ContentId) (w : World S) (e : Exception) :
  validatePackage maxFileSize maxTotalSize issues packagePath false true = Throw e ->
  processPackage libraryStorage sort maxFileSize maxTotalSize issues
    copyContentFromDirectory tempDirPath
    packagePath installLibraries copyContent contentId w
  = (Throw (match ex_class e with
            | ValidationError => mkException H5pError (ex_message e)
            | _ => e
            end), w).
Proof.
  intros H. unfold processPackage, try_catch, bind at 1, read. rewrite H.
  now destruct (ex_class e).
Qed.

(** X23: a package manager that was given no content manager cannot add
    content: [addPackageLibrariesAndContent] rejects whatever the package is,
    with the validator's error, an error of the installation, or the error
    that asks for a content manager. *)
Theorem addPackageLibrariesAndContent_needs_content_manager
    (packagePath : list Entry) (canUpdateAndInstallLibraries : bool)
    (contentId : option ContentId) (w : World S) :
  copyContentFromDirectory = None ->
  exists e,
    fst (addPackageLibrariesAndContent libraryStorage sort maxFileSize maxTotalSize
           issues copyContentFromDirectory tempDirPath
           packagePath canUpdateAndInstallLibraries contentId w) = Throw e.
Proof.
  intros Hnone. unfold addPackageLibrariesAndContent, processPackage.
  rewrite Hnone.
  assert (forall (m : M (World S) (option ContentId)) w0,
             (exists e, fst (m w0) = Throw e) ->
             exists e,
               fst (try_catch m
                      (fun error =>
                         match ex_class error with
                         | ValidationError =>
                             throw (mkException H5pError (ex_message error))
                         | _ => throw error
                         end) w0) = Throw e) as Hcatch.
  { intros m w0 [e He]. unfold try_catch.
    destruct (m w0) as [[a|e'] w1]; cbn [fst] in He; [discriminate|].
    destruct (ex_class e'); eexists; reflexivity. }
  apply Hcatch. unfold bind at 1, read.
  destruct (validatePackage _ _ _ _ _ _) as [[]|e]; [|now exists e].
  unfold bind at 1. cbn [dir]. unfold try_finally.
  match goal with
  | |- context [let '(r, s1) := ?body ?w0 in _] =>
      assert (exists e, fst (body w0) = Throw e) as [e He];
      [|destruct (body w0) as [r w1]; cbn [fst] in He; subst r;
        destruct (remove tempDirPath w1) as [[[]|e'] w2] eqn:Hremove;
        [now exists e|now exists e']]
  end.
  assert (forall A B (m : M (World S) A) (f : A -> M (World S) B) w0,
             (forall a w', exists e, fst (f a w') = Throw e) ->
             exists e, fst (bind m f w0) = Throw e) as Hbind.
  { intros A B m f w0 Hf. unfold bind.
    destruct (m w0) as [[a|e] w']; [apply Hf|now exists e]. }
  apply Hbind. intros [] w1.
  apply Hbind. intros dirContent w2.
  apply Hbind. intros [] w3.
  eexists. reflexivity.
Qed.

End PackageExtras.

(** ** Paths *)

Section PathFacts.

Import Path Resolved.

Lemma split_on_nonempty (c : ascii) (s : string) : split_on c s <> [].
Proof.
  induction s as [|a s IH]; cbn [split_on]; [discriminate|].
  destruct (Ascii.eqb a c); [discriminate|].
  now destruct (split_on c s).
Qed.

Lemma split_on_app (c : ascii) (a b : string) :
  split_on c (a +:+ String c b) = split_on c a ++ split_on c b.
Proof.
  induction a as [|x a IH].
  - rewrite sapp_nil_l. cbn [split_on]. now rewrite Ascii.eqb_refl.
  - rewrite sapp_cons. cbn [split_on]. rewrite IH.
    destruct (Ascii.eqb x c); [reflexivity|].
    pose proof (split_on_nonempty c a) as Hne.
    now destruct (split_on c a).
Qed.

Lemma split_on_whole (c : ascii) (s : string) :
  every (fun x => negb (Ascii.eqb x c)) s = true -> split_on c s = [s].
Proof.
  induction s as [|a s IH]; [reflexivity|]. cbn.
  intros [Ha Hs]%andb_true_iff. apply negb_true_iff in Ha. rewrite Ha.
  now rewrite (IH Hs).
Qed.

Lemma plain_spec (segment : string) :
  plain segment = true ->
  segment <> "" /\ segment <> "." /\ segment <> ".."
  /\ every (fun c => negb (Ascii.eqb c "/")) segment = true.
Proof.
  unfold plain. intros H.
  apply andb_true_iff in H as [H H4]. apply andb_true_iff in H as [H H3].
  apply andb_true_iff in H as [H1 H2].
  repeat split; try assumption.
  - intros ->. discriminate.
  - intros ->. discriminate.
  - intros ->. discriminate.
Qed.

Lemma join_cons (sep x : string) (rest : list string) :
  rest <> [] -> join sep (x :: rest) = x +:+ sep +:+ join sep rest.
Proof. destruct rest; [congruence|reflexivity]. Qed.

Lemma join_app (sep : string) (l1 l2 : list string) :
  l1 <> [] -> l2 <> [] ->
  join sep (l1 ++ l2) = join sep l1 +:+ sep +:+ join sep l2.
Proof.
  intros H1 H2. induction l1 as [|x l1 IH]; [congruence|].
  destruct l1 as [|y l1].
  - cbn [app]. now rewrite join_cons.
  - change ((x :: y :: l1) ++ l2) with (x :: ((y :: l1) ++ l2)).
    rewrite join_cons by discriminate. rewrite IH by discriminate.
    rewrite (join_cons sep x (y :: l1)) by discriminate.
    now rewrite !sapp_assoc.
Qed.

Lemma split_on_join (segments : list string) :
  segments <> [] -> forallb plain segments = true ->
  split_on "/" (join "/" segments) = segments.
Proof.
  induction segments as [|x rest IH]; [congruence|]. intros _ Hall.
  cbn [forallb] in Hall. apply andb_true_iff in Hall as [Hx Hrest].
  destruct (plain_spec x Hx) as (_ & _ & _ & Hslash).
  destruct rest as [|y rest]; [now apply split_on_whole|].
  rewrite join_cons by discriminate.
  change (x +:+ "/" +:+ join "/" (y :: rest))
    with (x +:+ String "/" (join "/" (y :: rest))).
  rewrite split_on_app, IH by (assumption || discriminate).
  now rewrite split_on_whole.
Qed.

Lemma normalizeArray_plain (l1 l2 : list string) (allow : bool) (res : list string) :
  forallb plain l1 = true ->
  normalizeArray (l1 ++ l2) allow res = normalizeArray l2 allow (rev l1 ++ res).
Proof.
  revert res. induction l1 as [|x l1 IH]; intros res Hall; [reflexivity|].
  cbn [forallb] in Hall. apply andb_true_iff in Hall as [Hx Hrest].
  destruct (plain_spec x Hx) as (H1 & H2 & H3 & _).
  cbn [app normalizeArray].
  destruct x as [|a x]; [congruence|]. cbn [isEmpty orb].
  destruct (String.eqb_spec (String a x) "."); [congruence|].
  destruct (String.eqb_spec (String a x) ".."); [congruence|].
  rewrite IH by assumption. cbn [rev]. now rewrite <- app_assoc.
Qed.

(** A [..] at the bottom of the stack stays there. *)
Lemma normalizeArray_escaped (l res : list string) :
  exists t, normalizeArray l true (res ++ [".."]) = ".." :: t.
Proof.
  revert res. induction l as [|x l IH]; intros res.
  - cbn [normalizeArray]. rewrite rev_app_distr. now eexists.
  - cbn [normalizeArray].
    destruct (isEmpty x || String.eqb x "."); [apply IH|].
    destruct (String.eqb x "..").
    + destruct res as [|top res]; cbn [app].
      * cbn. apply (IH [".."]).
      * destruct (String.eqb top "..").
        -- apply (IH (".." :: top :: res)).
        -- apply IH.
    + apply (IH (x :: res)).
Qed.

(** Resolving a relative path on top of a base: as long as the path does not
    climb out of itself, the base is left alone. *)
Lemma normalizeArray_on_base (l res base : list string) :
  Forall (fun s => s <> "..") res ->
  (forall t, normalizeArray l true res <> ".." :: t) ->
  normalizeArray l false (res ++ base) = rev base ++ normalizeArray l true res.
Proof.
  revert res. induction l as [|x l IH]; intros res Hres Hin.
  - cbn [normalizeArray]. apply rev_app_distr.
  - cbn [normalizeArray] in *.
    destruct (isEmpty x || String.eqb x "."); [now apply IH|].
    destruct (String.eqb_spec x "..") as [->|Hx].
    + destruct res as [|top res]; cbn [app].
      * exfalso. destruct (normalizeArray_escaped l []) as [t Ht].
        apply (Hin t). exact Ht.
      * apply Forall_cons_iff in Hres as [Htop Hres].
        destruct (String.eqb_spec top ".."); [contradiction|].
        now apply IH.
    + apply (IH (x :: res)); [|exact Hin]. now constructor.
Qed.

Lemma normalizeArray_empties (l res : list string) (allow : bool) :
  List.filter (fun seg => negb (isEmpty seg)) l = [] ->
  normalizeArray l allow res = rev res.
Proof.
  induction l as [|x l IH]; [reflexivity|]. cbn [List.filter normalizeArray].
  destruct (isEmpty x); cbn [negb orb]; [exact IH|discriminate].
Qed.

(** The last name of a path is still there when the path has been resolved. *)
Lemma normalizeArray_keeps_basename (l res : list string) (allow : bool) :
  let b := List.last (List.filter (fun seg => negb (isEmpty seg)) l) "" in
  b <> "" -> startsWith "." b = false ->
  normalizeArray l allow res <> [].
Proof.
  cbv zeta. revert res. induction l as [|x l IH]; intros res Hb Hdot.
  - now destruct Hb.
  - destruct (List.filter (fun seg => negb (isEmpty seg)) l) as [|y rest] eqn:Hrest.
    + cbn [List.filter] in Hb, Hdot. rewrite Hrest in Hb, Hdot.
      cbn [normalizeArray].
      destruct x as [|a x]; cbn [isEmpty negb orb] in *; [now destruct Hb|].
      cbn [List.last] in Hdot.
      destruct (String.eqb_spec (String a x) ".") as [E|_];
        [rewrite E in Hdot; discriminate|].
      destruct (String.eqb_spec (String a x) "..") as [E|_];
        [rewrite E in Hdot; discriminate|].
      rewrite (normalizeArray_empties l _ allow Hrest). cbn [rev].
      now destruct (rev res).
    + assert (List.last (List.filter (fun seg => negb (isEmpty seg)) (x :: l)) ""
              = List.last (y :: rest) "") as E.
      { cbn [List.filter]. rewrite Hrest. now destruct (negb (isEmpty x)). }
      rewrite E in Hb, Hdot.
      cbn [normalizeArray].
      destruct (isEmpty x || String.eqb x "."); [now apply IH|].
      destruct (String.eqb x "..").
      * destruct res as [|top res].
        -- destruct allow; now apply IH.
        -- destruct (String.eqb top ".."); now apply IH.
      * now apply IH.
Qed.

Lemma stripPrefix_app (p t : string) : stripPrefix p (p +:+ t) = Some t.
Proof.
  induction p as [|c p IH]; [reflexivity|]. rewrite sapp_cons. cbn.
  now rewrite Ascii.eqb_refl.
Qed.

Lemma startsWith_prefix (p t : string) : startsWith p (p +:+ t) = true.
Proof.
  induction p as [|c p IH]; [reflexivity|]. rewrite sapp_cons. cbn.
  now rewrite Ascii.eqb_refl.
Qed.

Lemma last_In (l : list string) (d : string) : l <> [] -> In (List.last l d) l.
Proof.
  induction l as [|x l IH]; [congruence|]. intros _.
  destruct l as [|y l]; [now left|].
  right. apply IH. discriminate.
Qed.

(** A name the zip reader lets through is relative and has no [..] to climb
    with. *)
Lemma normalizeArray_no_climb (l res : list string) (allow : bool) :
  Forall (fun seg => seg <> "..") l -> Forall (fun seg => seg <> "..") res ->
  Forall (fun seg => seg <> "..") (normalizeArray l allow res).
Proof.
  revert res. induction l as [|x l IH]; intros res Hl Hres.
  - cbn [normalizeArray]. apply List.Forall_forall. intros y Hy.
    apply in_rev in Hy. revert y Hy. now apply List.Forall_forall.
  - apply Forall_cons_iff in Hl as [Hx Hl]. cbn [normalizeArray].
    destruct (isEmpty x || String.eqb x "."); [now apply IH|].
    destruct (String.eqb_spec x ".."); [contradiction|].
    apply IH; [assumption|]. now constructor.
Qed.

Lemma accepted_name (fileName : string) :
  PackageManager.validateFileName fileName = None ->
  isAbsolute fileName = false
  /\ forall t, normalizeArray (split_on "/" fileName) true [] <> ".." :: t.
Proof.
  unfold PackageManager.validateFileName.
  destruct (includes _ fileName); [discriminate|].
  destruct (_ || startsWith "/" fileName) eqn:Habs; [discriminate|].
  destruct (existsb (String.eqb "..") (split_on "/" fileName)) eqn:Hup;
    [discriminate|].
  intros _. apply orb_false_iff in Habs as [_ Habs]. split; [exact Habs|].
  intros t Ht.
  assert (Forall (fun seg => seg <> "..") (normalizeArray (split_on "/" fileName) true []))
    as Hno.
  { apply normalizeArray_no_climb; [|constructor].
    apply List.Forall_forall. intros seg Hseg ->.
    assert (existsb (String.eqb "..") (split_on "/" fileName) = true) as Habs'
      by (apply existsb_exists; exists ".."; split; [assumption|reflexivity]).
    congruence. }
  rewrite Ht in Hno. apply Forall_cons_iff in Hno as [Hno _]. now apply Hno.
Qed.

(** [path.join] of a resolved directory and a relative name that does not
    climb out of itself is a path below that directory. *)
Lemma join2_below (segments : list string) (entryName : string) :
  segments <> [] -> forallb plain segments = true ->
  entryName <> "" ->
  isAbsolute entryName = false ->
  (forall t, normalizeArray (split_on "/" entryName) true [] <> ".." :: t) ->
  startsWith "." (basename entryName) = false ->
  exists relative,
    PackageManager.below (absolutePath segments)
      (join2 (absolutePath segments) entryName) = Some relative.
Proof.
  intros Hsegs Hplain Hne Hrel Hin Hbase.
  assert (normalizeArray (split_on "/" entryName) true [] <> []) as Hkept.
  { apply normalizeArray_keeps_basename; [|exact Hbase].
    destruct entryName as [|c rest]; [congruence|].
    unfold isAbsolute in Hrel. cbn [startsWith] in Hrel.
    cbn [split_on]. rewrite Ascii.eqb_sym.
    destruct (Ascii.eqb "/" c); [discriminate|].
    pose proof (split_on_nonempty "/" rest) as Hs.
    destruct (split_on "/" rest) as [|seg segs]; [congruence|].
    cbn [List.filter isEmpty negb].
    intros Hlast.
    assert (In (List.last (String c seg
                             :: List.filter (fun s => negb (isEmpty s)) segs) "")
               (String c seg :: List.filter (fun s => negb (isEmpty s)) segs)) as Hl.
    { apply last_In. discriminate. }
    rewrite Hlast in Hl. destruct Hl as [Hl|Hl]; [discriminate|].
    apply filter_In in Hl as [_ Hl]. discriminate. }
  unfold join2, absolutePath.
  change ("/" +:+ join "/" segments) with (String "/" (join "/" segments)).
  cbn [isEmpty]. destruct entryName as [|c rest] eqn:Hname; [congruence|].
  cbn [isEmpty]. rewrite <- Hname in *. clear Hname.
  unfold normalize.
  change (String "/" (join "/" segments) +:+ "/" +:+ entryName)
    with (String "/" (join "/" segments +:+ String "/" entryName)).
  cbn [isEmpty isAbsolute startsWith]. rewrite Ascii.eqb_refl. cbn [negb].
  cbn [split_on]. rewrite Ascii.eqb_refl.
  rewrite split_on_app, split_on_join by assumption.
  cbn [normalizeArray isEmpty orb].
  rewrite normalizeArray_plain by assumption.
  rewrite (normalizeArray_on_base _ [] (rev segments ++ []))
    by (constructor || exact Hin).
  rewrite app_nil_r, rev_involutive.
  rewrite join_app by assumption.
  set (inner := join "/" (normalizeArray (split_on "/" entryName) true [])).
  assert (isEmpty (join "/" segments +:+ "/" +:+ inner) = false) as ->.
  { destruct (join "/" segments); reflexivity. }
  unfold PackageManager.below.
  destruct (Ascii.eqb _ "/").
  - exists (inner +:+ "/").
    change (String "/" (join "/" segments) +:+ "/")
      with ("/" +:+ (join "/" segments +:+ "/")).
    rewrite <- (stripPrefix_app ("/" +:+ (join "/" segments +:+ "/")) (inner +:+ "/")).
    f_equal. now rewrite !sapp_assoc.
  - exists inner.
    change (String "/" (join "/" segments) +:+ "/")
      with ("/" +:+ (join "/" segments +:+ "/")).
    rewrite <- (stripPrefix_app ("/" +:+ (join "/" segments +:+ "/")) inner).
    f_equal. now rewrite !sapp_assoc.
Qed.

End PathFacts.

(** ** Extraction stays in its directory *)

Section ExtractionFacts.

Import Path Resolved PackageManager Frame.

Context {S : Type}.

Lemma extracted_name (options : ExtractOptions) (entry : Entry) :
  extracted options entry = true ->
  fileName entry <> "" /\ startsWith "." (basename (fileName entry)) = false.
Proof.
  unfold extracted. intros H.
  apply andb_true_iff in H as [H Hkind]. apply andb_true_iff in H as [Hdot _].
  apply negb_true_iff in Hdot. split; [|exact Hdot].
  intros E. rewrite E in Hkind. cbn in Hkind.
  now rewrite !andb_false_r in Hkind.
Qed.

Lemma readEntry_accepted (next entry : Entry) :
  readEntry next = Ok entry -> validateFileName (fileName entry) = None.
Proof.
  unfold readEntry.
  destruct (validateFileName (slashes (fileName next))) eqn:Hv; [discriminate|].
  now intros [= <-].
Qed.

(** *** What a step leaves alone *)

Lemma keeps_disk_ret {A : Type} (a : A) : keeps_disk (@ret (World S) A a).
Proof. intros w. now split. Qed.

Lemma keeps_disk_throw {A : Type} (e : Exception) : keeps_disk (@throw (World S) A e).
Proof. intros w. now split. Qed.

Lemma keeps_disk_bind {A B : Type} (m : M (World S) A) (f : A -> M (World S) B) :
  keeps_disk m -> (forall a, keeps_disk (f a)) -> keeps_disk (bind m f).
Proof.
  intros Hm Hf w. unfold bind. specialize (Hm w).
  destruct (m w) as [[a|e] w1]; cbn [snd] in *; [|exact Hm].
  destruct Hm as [<- <-]. apply Hf.
Qed.

Lemma keeps_disk_onStorage {A : Type} (f : World S -> M S A) :
  keeps_disk (fun w => onStorage (f w) w).
Proof. intros w. unfold onStorage. now destruct (f w (persistent w)). Qed.

Lemma keeps_disk_promise_all {A : Type} (ps : list (M (World S) A)) :
  Forall keeps_disk ps -> keeps_disk (promise_all ps).
Proof.
  induction 1 as [|m ps Hm _ IH]; intros w; [now split|].
  cbn [promise_all]. specialize (Hm w). destruct (m w) as [r w1].
  specialize (IH w1). destruct (promise_all ps w1) as [rs w2].
  cbn [snd] in *. destruct Hm as [<- <-]. exact IH.
Qed.

Lemma keeps_disk_readdir (directory : string) :
  keeps_disk (@readdir S directory).
Proof.
  intros w. unfold readdir.
  destruct (isFolder directory w); [now split|].
  destruct (isFolder directory w || isFile directory w), (isFile directory w);
    now split.
Qed.

Lemma keeps_storage_bind {A B : Type} (m : M (World S) A) (f : A -> M (World S) B) :
  keeps_storage m -> (forall a, keeps_storage (f a)) -> keeps_storage (bind m f).
Proof.
  intros Hm Hf w. unfold bind. specialize (Hm w).
  destruct (m w) as [[a|e] w1]; cbn [snd] in *; [|exact Hm].
  rewrite <- Hm. apply Hf.
Qed.

Lemma keeps_folders_bind {A B : Type} (m : M (World S) A) (f : A -> M (World S) B) :
  keeps_folders m -> (forall a, keeps_folders (f a)) -> keeps_folders (bind m f).
Proof.
  intros Hm Hf w p Hp. unfold bind. specialize (Hm w p Hp).
  destruct (m w) as [[a|e] w1]; cbn [snd] in *; [|exact Hm].
  now apply Hf.
Qed.

Lemma keeps_file_bind {A B : Type} (p : string)
    (m : M (World S) A) (f : A -> M (World S) B) :
  keeps_file p m -> (forall a, keeps_file p (f a)) -> keeps_file p (bind m f).
Proof.
  intros Hm Hf w. unfold bind. specialize (Hm w).
  destruct (m w) as [[a|e] w1]; cbn [snd] in *; [|exact Hm].
  rewrite <- Hm. apply Hf.
Qed.

Lemma keeps_disk_folders {A : Type} (m : M (World S) A) :
  keeps_disk m -> keeps_folders m.
Proof.
  intros Hm w p Hp. destruct (Hm w) as [_ Hf]. unfold isFolder in *.
  now rewrite Hf.
Qed.

Lemma keeps_disk_file {A : Type} (p : string) (m : M (World S) A) :
  keeps_disk m -> keeps_file p m.
Proof. intros Hm w. destruct (Hm w) as [Hd _]. now rewrite Hd. Qed.

(** [mkdirp] makes directories and nothing else. *)
Lemma mkdirp_frame (p : string) :
  keeps_storage (@mkdirp S p) /\ keeps_folders (@mkdirp S p)
  /\ forall q, keeps_file q (@mkdirp S p).
Proof.
  split; [|split].
  - intros w. unfold mkdirp. now destruct (List.find _ (lineage p)).
  - intros w q Hq. unfold mkdirp.
    destruct (List.find _ (lineage p)); [exact Hq|].
    unfold isFolder in *. cbn [snd folders].
    apply bool_decide_eq_true. apply bool_decide_eq_true in Hq.
    apply elem_of_union. now left.
  - intros q w. unfold mkdirp. now destruct (List.find _ (lineage p)).
Qed.

(** [writeFile] writes the file at its path and nothing else. *)
Lemma writeFile_frame (p : string) (data : FileData) :
  keeps_storage (@writeFile S p data) /\ keeps_folders (@writeFile S p data)
  /\ forall q, q <> p -> keeps_file q (@writeFile S p data).
Proof.
  split; [|split].
  - intros w. unfold writeFile.
    destruct (isFolder p w || Ascii.eqb (last_char " " p) "/"); [reflexivity|].
    destruct (isFolder (dirname p) w); [reflexivity|].
    now destruct (isFile (dirname p) w).
  - intros w q Hq. unfold writeFile.
    destruct (isFolder p w || Ascii.eqb (last_char " " p) "/"); [exact Hq|].
    destruct (isFolder (dirname p) w); [exact Hq|].
    now destruct (isFile (dirname p) w).
  - intros q Hq w. unfold writeFile.
    destruct (isFolder p w || Ascii.eqb (last_char " " p) "/"); [reflexivity|].
    destruct (isFolder (dirname p) w).
    + cbn [snd disk]. now apply lookup_insert_ne.
    + now destruct (isFile (dirname p) w).
Qed.

Lemma extractPackage_keeps_storage
    (archive : list Entry) (directoryPath : string) (options : ExtractOptions) :
  keeps_storage (@extractPackage S archive directoryPath options).
Proof.
  induction archive as [|next rest IH]; [intros w; reflexivity|].
  cbn [extractPackage]. apply keeps_storage_bind; [intros w; reflexivity|].
  intros entry. apply keeps_storage_bind; [|intros _; exact IH].
  destruct (extracted options entry); [|intros w; reflexivity].
  apply keeps_storage_bind; [apply mkdirp_frame|]. intros _. apply writeFile_frame.
Qed.

Lemma extractPackage_keeps_folders
    (archive : list Entry) (directoryPath : string) (options : ExtractOptions) :
  keeps_folders (@extractPackage S archive directoryPath options).
Proof.
  induction archive as [|next rest IH]; [intros w p Hp; exact Hp|].
  cbn [extractPackage]. apply keeps_folders_bind; [intros w p Hp; exact Hp|].
  intros entry. apply keeps_folders_bind; [|intros _; exact IH].
  destruct (extracted options entry); [|intros w p Hp; exact Hp].
  apply keeps_folders_bind; [apply mkdirp_frame|]. intros _. apply writeFile_frame.
Qed.

(** What the zip reader lets through is written below the directory. *)
Lemma extraction_elsewhere
    (archive : list Entry) (segments : list string) (options : ExtractOptions)
    (p : string) :
  segments <> [] ->
  forallb plain segments = true ->
  below (absolutePath segments) p = None ->
  keeps_file p (@extractPackage S archive (absolutePath segments) options).
Proof.
  intros Hsegs Hplain Hp.
  induction archive as [|next rest IH]; [intros w; reflexivity|].
  cbn [extractPackage]. unfold keeps_file. intros w. unfold bind at 1, read.
  destruct (readEntry next) as [entry|e] eqn:Hread; [|reflexivity].
  revert w. apply keeps_file_bind; [|intros _; exact IH].
  destruct (extracted options entry) eqn:Hex; [|intros w; reflexivity].
  destruct (extracted_name options entry Hex) as [Hne Hbase].
  destruct (accepted_name _ (readEntry_accepted _ _ Hread)) as [Hrel Hin].
  destruct (join2_below segments (fileName entry) Hsegs Hplain Hne Hrel Hin Hbase)
    as [relative Hbelow].
  apply keeps_file_bind; [apply mkdirp_frame|]. intros _.
  apply writeFile_frame. intros E. rewrite <- E in Hbelow. congruence.
Qed.

(** X21: [extractPackage] never writes outside the directory it extracts to.
    Whatever the archive holds, and whether the extraction succeeds or is
    rejected midway (by the zip reader at a name that is absolute or has a
    [..] segment, or by the disk at a name that is a directory), a path that
    is not below the directory keeps the file it had, and the storage is not
    touched. *)
Theorem extractPackage_stays_below
    (archive : list Entry) (segments : list string) (options : ExtractOptions)
    (w : World S) (p : string) :
  segments <> [] ->
  forallb plain segments = true ->
  below (absolutePath segments) p = None ->
  persistent (snd (extractPackage archive (absolutePath segments) options w))
  = persistent w
  /\ disk (snd (extractPackage archive (absolutePath segments) options w)) !! p
     = disk w !! p.
Proof.
  intros Hsegs Hplain Hp. split.
  - apply extractPackage_keeps_storage.
  - now apply extraction_elsewhere.
Qed.

Lemma NoDup_filter_keys {V : Type} (keep : string * V -> bool) (l : list (string * V)) :
  NoDup l.*1 -> NoDup (List.filter keep l).*1.
Proof.
  induction l as [|kv l IH]; [constructor|].
  cbn [fmap list_fmap List.filter]. intros [Hnin Hnd]%NoDup_cons.
  destruct (keep kv); [|now apply IH].
  cbn [fmap list_fmap]. apply NoDup_cons. split; [|now apply IH].
  intros Hin. apply Hnin.
  apply list_elem_of_fmap in Hin as (kv' & -> & Hin).
  apply list_elem_of_fmap. exists kv'. split; [reflexivity|].
  apply list_elem_of_In. apply list_elem_of_In, filter_In in Hin. tauto.
Qed.

(** Removing a directory removes the files below it, and those only. *)
Lemma remove_below (directory p relative : string) (w : World S) :
  isFolder directory w = true ->
  below directory p = Some relative ->
  disk (snd (remove directory w)) !! p = None.
Proof.
  intros Hdir Hp. unfold remove. rewrite Hdir. cbn [snd disk].
  apply not_elem_of_list_to_map_1.
  intros Hin. apply list_elem_of_fmap in Hin as ([k v] & -> & Hin).
  apply list_elem_of_In, filter_In in Hin as [_ Hkeep].
  cbn [fst] in *. now rewrite Hp in Hkeep.
Qed.

Lemma remove_elsewhere (directory p : string) (w : World S) :
  isFolder directory w = true ->
  below directory p = None ->
  disk (snd (remove directory w)) !! p = disk w !! p.
Proof.
  intros Hdir Hp. unfold remove. rewrite Hdir. cbn [snd disk].
  set (keep := fun kv : string * FileData =>
                 match below directory (fst kv) with
                 | Some _ => false
                 | None => true
                 end).
  destruct (disk w !! p) as [v|] eqn:E.
  - apply elem_of_list_to_map_1.
    + apply NoDup_filter_keys, NoDup_fst_map_to_list.
    + apply list_elem_of_In, filter_In. split.
      * apply list_elem_of_In, elem_of_map_to_list. exact E.
      * unfold keep. cbn [fst]. now rewrite Hp.
  - apply not_elem_of_list_to_map_1. intros Hin.
    apply list_elem_of_fmap in Hin as ([k v] & -> & Hin).
    apply list_elem_of_In, filter_In in Hin as [Hin _].
    apply list_elem_of_In, elem_of_map_to_list in Hin. cbn [fst] in E. congruence.
Qed.

Lemma remove_run (directory : string) (w : World S) :
  fst (remove directory w) = Ok tt /\ persistent (snd (remove directory w)) = persistent w.
Proof. unfold remove. now destruct (isFolder directory w). Qed.

End ExtractionFacts.

Section PackageFrame.

Import Path Resolved PackageManager Frame.

Context {S : Type}.
Context (libraryStorage : LibraryManager.Storage.t S).
Context (sort : list InstalledLibrary -> list InstalledLibrary).
Context (maxFileSize maxTotalSize : Z).
Context (issues : list Entry -> bool -> bool -> list ValidationIssue).
Context (copyContentFromDirectory :
           option (Directory -> option ContentId -> M S ContentId)).
Context (tempDirPath : string).

(** Once the package is valid: the temporary directory is made, the package
    is extracted into it, what follows leaves the disk alone, and the last
    thing that happens is the removal of the temporary directory. *)
Lemma processPackage_run
    (packagePath : list Entry) (installLibraries copyContent : bool)
    (contentId : option ContentId) :
  validatePackage maxFileSize maxTotalSize issues packagePath false true = Ok tt ->
  exists tail : M (World S) (option ContentId),
    keeps_disk tail
    /\ forall w,
         snd (processPackage libraryStorage sort maxFileSize maxTotalSize issues
                copyContentFromDirectory tempDirPath
                packagePath installLibraries copyContent contentId w)
         = snd (remove tempDirPath
                  (snd ((extractPackage packagePath tempDirPath
                           (mkExtract installLibraries copyContent copyContent) >>
                         tail)
                          (snd (dir tempDirPath w))))).
Proof.
  intros Hvalid. eexists. split; cycle 1.
  - intros w. unfold processPackage, try_catch, bind at 1, read.
    rewrite Hvalid. unfold bind at 1. cbn [dir]. unfold try_finally.
    match goal with
    | |- context [let '(r, s1) := bind ?extraction (fun _ => ?rest) ?w0 in _] =>
        instantiate (1 := rest);
        change (snd (dir tempDirPath w)) with w0;
        destruct (bind extraction (fun _ => rest) w0) as [r w1]
    end.
    cbn [snd]. pose proof (remove_run tempDirPath w1) as [Hok _].
    destruct (remove tempDirPath w1) as [[[]|e] w2]; [|discriminate Hok].
    cbn [snd]. destruct r as [a|e]; [reflexivity|]. now destruct (ex_class e).
  - apply (keeps_disk_bind (readdir tempDirPath)); [apply keeps_disk_readdir|].
    intros dirContent. apply keeps_disk_bind.
    + destruct installLibraries; [|apply keeps_disk_ret].
      apply keeps_disk_bind; [|intros; apply keeps_disk_ret].
      apply keeps_disk_promise_all, List.Forall_forall. intros m Hm.
      apply in_map_iff in Hm as (dirEntry & <- & _).
      apply (keeps_disk_onStorage
               (fun w0 => LibraryManager.installFromDirectory libraryStorage sort
                            (directoryAt w0 (join2 tempDirPath dirEntry)) false)).
    + intros _. destruct copyContent; [|apply keeps_disk_ret].
      destruct copyContentFromDirectory as [copy|]; [|apply keeps_disk_throw].
      apply keeps_disk_bind; [|intros; apply keeps_disk_ret].
      apply (keeps_disk_onStorage
               (fun w0 => copy (directoryAt w0 tempDirPath) contentId)).
Qed.

Lemma dir_folder (w : World S) : isFolder tempDirPath (snd (dir tempDirPath w)) = true.
Proof.
  unfold isFolder, dir. cbn [snd folders]. apply bool_decide_eq_true.
  apply elem_of_union. right. now apply elem_of_singleton.
Qed.

(** X20: the temporary directory does not outlive the call: once the package
    has passed validation, whether the extraction, an installation or the copy
    of the content succeeds or fails, no file is left below the temporary
    directory. *)
Theorem processPackage_removes_temporary_files
    (packagePath : list Entry) (installLibraries copyContent : bool)
    (contentId : option ContentId) (w : World S) (p relative : string) :
  validatePackage maxFileSize maxTotalSize issues packagePath false true = Ok tt ->
  below tempDirPath p = Some relative ->
  disk (snd (processPackage libraryStorage sort maxFileSize maxTotalSize issues
               copyContentFromDirectory tempDirPath
               packagePath installLibraries copyContent contentId w)) !! p = None.
Proof.
  intros Hvalid Hp.
  destruct (processPackage_run packagePath installLibraries copyContent contentId
              Hvalid) as (tail & Htail & ->).
  apply (remove_below tempDirPath p relative); [|exact Hp].
  apply (keeps_folders_bind _ (fun _ => tail)).
  - apply extractPackage_keeps_folders.
  - intros _. now apply keeps_disk_folders.
  - apply dir_folder.
Qed.

End PackageFrame.

Section PackageRestore.

Import Path Resolved PackageManager Frame.

Context {S : Type}.
Context (libraryStorage : LibraryManager.Storage.t S).
Context (sort : list InstalledLibrary -> list InstalledLibrary).
Context (maxFileSize maxTotalSize : Z).
Context (issues : list Entry -> bool -> bool -> list ValidationIssue).
Context (copyContentFromDirectory :
           option (Directory -> option ContentId -> M S ContentId)).

(** X22: [processPackage] gives the disk back as it found it.  With a
    resolved temporary directory that was empty at the start, whatever the
    package and whether the call succeeds or fails, the disk is the same
    afterwards: the files of the package were written below the temporary
    directory only, and that directory has been removed. *)
Theorem processPackage_restores_disk
    (segments : list string) (packagePath : list Entry)
    (installLibraries copyContent : bool) (contentId : option ContentId)
    (w : World S) :
  segments <> [] ->
  forallb plain segments = true ->
  (forall p relative, below (absolutePath segments) p = Some relative ->
                      disk w !! p = None) ->
  disk (snd (processPackage libraryStorage sort maxFileSize maxTotalSize issues
               copyContentFromDirectory (absolutePath segments)
               packagePath installLibraries copyContent contentId w))
  = disk w.
Proof.
  intros Hsegs Hplain Hfresh.
  destruct (validatePackage maxFileSize maxTotalSize issues packagePath false true)
    as [[]|e] eqn:Hvalid.
  2:{ unfold processPackage, try_catch, bind at 1, read. rewrite Hvalid.
      now destruct (ex_class e). }
  destruct (processPackage_run libraryStorage sort maxFileSize maxTotalSize issues
              copyContentFromDirectory (absolutePath segments)
              packagePath installLibraries copyContent contentId Hvalid)
    as (tail & Htail & ->).
  set (w0 := snd (dir (absolutePath segments) w)).
  set (w1 := snd ((extractPackage packagePath (absolutePath segments)
                     (mkExtract installLibraries copyContent copyContent) >> tail) w0)).
  assert (isFolder (absolutePath segments) w1 = true) as Hdir.
  { apply (keeps_folders_bind _ (fun _ => tail)).
    - apply extractPackage_keeps_folders.
    - intros _. now apply keeps_disk_folders.
    - apply dir_folder. }
  apply map_eq. intros p.
  destruct (below (absolutePath segments) p) as [relative|] eqn:Hp.
  - rewrite (Hfresh p relative Hp).
    now apply (remove_below (absolutePath segments) p relative).
  - rewrite (remove_elsewhere (absolutePath segments) p w1 Hdir Hp).
    subst w1.
    rewrite (keeps_file_bind p _ (fun _ => tail)
               (extraction_elsewhere packagePath segments _ p Hsegs Hplain Hp)
               (fun _ => keeps_disk_file p tail Htail) w0).
    reflexivity.
Qed.

End PackageRestore.
(** ** Cache keys of different libraries *)

Section KeyExtras.

Import CachedLibraryStorage WellFormed KeyUsages.

Lemma every_impl (p q : ascii -> bool) (s : string) :
  (forall c, p c = true -> q c = true) -> every p s = true -> every q s = true.
Proof.
  intros Hpq. induction s as [|c s IH]; [reflexivity|]. cbn.
  intros [Hc Hs]%andb_true_iff. now rewrite (Hpq c Hc), IH.
Qed.

Lemma version_spec (x : number) :
  version x = true -> exists z, x = Finite z /\ 0 <= z <= MAX_SAFE_INTEGER.
Proof.
  destruct x as [z| |]; cbn; try discriminate.
  intros H. exists z. split; [reflexivity|]. lia.
Qed.

Lemma wellFormed_spec (library : ILibraryName) :
  wellFormed library = true ->
  machineName library <> ""
  /\ every not_space (machineName library) = true
  /\ every (fun c => negb (Ascii.eqb c "/")) (machineName library) = true
  /\ exists major minor,
       majorVersion library = Finite major /\ minorVersion library = Finite minor
       /\ 0 <= major <= MAX_SAFE_INTEGER /\ 0 <= minor <= MAX_SAFE_INTEGER.
Proof.
  unfold wellFormed. intros H.
  apply andb_true_iff in H as [H H4]. apply andb_true_iff in H as [H H3].
  apply andb_true_iff in H as [H1 H2].
  apply version_spec in H3 as (major & Hmaj & Hmajor).
  apply version_spec in H4 as (minor & Hmin & Hminor).
  repeat split.
  - intros E. rewrite E in H1. discriminate.
  - eapply every_impl; [|exact H2]. now intros c [? _]%andb_true_iff.
  - eapply every_impl; [|exact H2]. now intros c [_ ?]%andb_true_iff.
  - now exists major, minor.
Qed.

Lemma toUberName_parses (library : ILibraryName) :
  wellFormed library = true ->
  fromUberName (toUberName library defaultOptions) defaultOptions = Ok (Some library).
Proof.
  intros (Hm & Hsp & _ & major & minor & Emaj & Emin & Hmaj & Hmin)%wellFormed_spec.
  destruct library as [m x y]. cbn [machineName majorVersion minorVersion] in *.
  subst x y. unfold toUberName. cbn [defaultOptions useHyphen machineName majorVersion minorVersion].
  assert (m +:+ "-" +:+ number_to_string major +:+ "." +:+ number_to_string minor
          = m +:+ String "-" (number_to_string major +:+ "."
                              +:+ number_to_string minor +:+ "")) as ->.
  { snorm. now rewrite sapp_nil_r. }
  apply fromUberName_versioned; try assumption; try reflexivity; try discriminate.
  now right.
Qed.

Lemma toUberName_injective (l1 l2 : ILibraryName) :
  wellFormed l1 = true -> wellFormed l2 = true ->
  toUberName l1 defaultOptions = toUberName l2 defaultOptions -> l1 = l2.
Proof.
  intros H1 H2 E. apply toUberName_parses in H1, H2.
  rewrite E in H1. congruence.
Qed.

Lemma toUberName_no_slash (library : ILibraryName) :
  wellFormed library = true ->
  every (fun c => negb (Ascii.eqb c "/")) (toUberName library defaultOptions) = true.
Proof.
  intros (_ & _ & Hslash & major & minor & Emaj & Emin & Hmaj & Hmin)%wellFormed_spec.
  assert (forall z, 0 <= z <= MAX_SAFE_INTEGER ->
                    every (fun c => negb (Ascii.eqb c "/")) (number_to_string z) = true)
    as Hnum.
  { intros z Hz. destruct (number_to_string_nonneg z Hz) as [Hd _].
    eapply every_impl; [|exact Hd].
    intros c Hc. destruct (Ascii.eqb_spec c "/") as [->|]; [discriminate|reflexivity]. }
  unfold toUberName. cbn [defaultOptions useHyphen]. rewrite Emaj, Emin.
  rewrite !every_app, Hslash, (Hnum _ Hmaj), (Hnum _ Hmin). reflexivity.
Qed.

(** Two texts that agree and whose parts before the first slash have none. *)
Lemma first_slash (a b x y : string) :
  every (fun c => negb (Ascii.eqb c "/")) a = true ->
  every (fun c => negb (Ascii.eqb c "/")) b = true ->
  a +:+ String "/" x = b +:+ String "/" y -> a = b /\ x = y.
Proof.
  revert b. induction a as [|c a IH]; intros [|d b] Ha Hb E; snorm_in E.
  - now injection E.
  - injection E as <- _. cbn in Hb. discriminate.
  - injection E as -> _. cbn in Ha. discriminate.
  - injection E as -> E. cbn in Ha, Hb.
    apply andb_true_iff in Ha as [_ Ha]. apply andb_true_iff in Hb as [_ Hb].
    destruct (IH b Ha Hb E) as [-> ->]. now split.
Qed.

Lemma file_keys_same_library (l1 l2 : ILibraryName) (f1 f2 u1 u2 : string) :
  wellFormed l1 = true -> wellFormed l2 = true ->
  getCacheKeyForFile l1 f1 u1 = getCacheKeyForFile l2 f2 u2 -> l1 = l2.
Proof.
  intros H1 H2 E. unfold getCacheKeyForFile in E.
  change (?a +:+ "/" +:+ ?r) with (a +:+ String "/" r) in E.
  apply first_slash in E as [E _]; try now apply toUberName_no_slash.
  now apply toUberName_injective.
Qed.

Lemma metadata_key_no_slash (library : ILibraryName) (usage : string) :
  wellFormed library = true -> In usage usages ->
  every (fun c => negb (Ascii.eqb c "/")) (getCacheKeyForMetadata library usage) = true.
Proof.
  intros H Hu. unfold getCacheKeyForMetadata.
  rewrite !every_app, (toUberName_no_slash library H).
  cbn in Hu. destruct Hu as [<-|[<-|[<-|[]]]]; reflexivity.
Qed.

Lemma file_key_has_slash (library : ILibraryName) (f u : string) :
  every (fun c => negb (Ascii.eqb c "/")) (getCacheKeyForFile library f u) = false.
Proof.
  unfold getCacheKeyForFile. rewrite every_app.
  change ("/" +:+ ?r) with (String "/" r). cbn. apply andb_false_r.
Qed.

Lemma metadata_keys_same_library (l1 l2 : ILibraryName) (u1 u2 : string) :
  wellFormed l1 = true -> wellFormed l2 = true ->
  In u1 usages -> In u2 usages ->
  getCacheKeyForMetadata l1 u1 = getCacheKeyForMetadata l2 u2 -> l1 = l2 /\ u1 = u2.
Proof.
  intros H1 H2 Hu1 Hu2 E. unfold getCacheKeyForMetadata in E.
  assert (u1 = u2) as ->.
  { cbn in Hu1, Hu2.
    destruct Hu1 as [<-|[<-|[<-|[]]]], Hu2 as [<-|[<-|[<-|[]]]];
      try reflexivity; exfalso; revert E;
      unfold METADATA_CACHE_KEY, LANGUAGES_CACHE_KEY, LIBRARY_IS_INSTALLED_CACHE_KEY;
      change ("-" +:+ ?r) with (String "-" r);
      apply usage_differs; cbn; discriminate. }
  split; [|reflexivity].
  apply sapp_inv_tail in E. now apply toUberName_injective.
Qed.

(** X17: the cached queries about well-formed libraries (the machine name is
    not empty and has neither white space nor a slash, the versions are safe
    integers that are not negative) never share a key: two of them that get
    the same key are the same query, on the same library and the same file. *)
Theorem keyOf_injective_on_libraries (q1 q2 : Query) (l1 l2 : ILibraryName) :
  libraryOf q1 = Some l1 -> libraryOf q2 = Some l2 ->
  wellFormed l1 = true -> wellFormed l2 = true ->
  keyOf q1 = keyOf q2 -> q1 = q2.
Proof.
  intros Hq1 Hq2 H1 H2 H.
  assert (forall u, In u usages ->
                    forall la lb f v, wellFormed la = true ->
                      getCacheKeyForMetadata la u = getCacheKeyForFile lb f v -> False)
    as Hmixed.
  { intros u Hu la lb f v Hla E.
    pose proof (metadata_key_no_slash la u Hla Hu) as Hno.
    rewrite E, file_key_has_slash in Hno. discriminate. }
  destruct q1, q2; cbn in Hq1, Hq2; try discriminate;
    injection Hq1 as ->; injection Hq2 as ->; cbn [keyOf] in H;
    first
      [ assert (l1 = l2) as -> by (eapply file_keys_same_library; eassumption);
        key_cases H
      | exfalso;
        match type of H with
        | getCacheKeyForMetadata ?la ?u = getCacheKeyForFile ?lb ?f ?v =>
            apply (Hmixed u ltac:(cbn; auto) la lb f v); [assumption|exact H]
        | getCacheKeyForFile ?lb ?f ?v = getCacheKeyForMetadata ?la ?u =>
            apply (Hmixed u ltac:(cbn; auto) la lb f v);
            [assumption|symmetry; exact H]
        end
      | apply metadata_keys_same_library in H as [-> Hu];
        [ first [reflexivity | exfalso; revert Hu; cbv; discriminate]
        | assumption | assumption | cbn; auto | cbn; auto ] ].
Qed.

End KeyExtras.

(** ** The further properties on the storage in memory *)

Section ExtraWitnesses.

Import MemoryStorage Scenarios.

Lemma getInstalled_rejects_unloadable_witness :
  exists e,
    LibraryManager.getInstalled storage unsorted ["H5P.Test"] unreadable
    = (Throw e, unreadable)
    /\ ex_class e = TypeError.
Proof.
  apply (getInstalled_rejects_unloadable storage unsorted ["H5P.Test"] unreadable
           [H5P_Test] H5P_Test);
    [vm_compute; reflexivity | left; reflexivity | vm_compute; reflexivity].
Defined.

Lemma installFromDirectory_false_changes_nothing_witness :
  installed1 = installed1
  /\ exists metadata id,
       LibraryManager.readJSON directory1 = Ok metadata
       /\ LibraryManager.Storage.getId storage (name metadata) installed1 = Ok (Some id)
       /\ id <> 0
       /\ LibraryManager.isPatchedLibrary storage unsorted metadata installed1
          = (Ok false, installed1).
Proof.
  apply (installFromDirectory_false_changes_nothing storage unsorted directory1 false
           installed1 installed1).
  vm_compute. reflexivity.
Defined.

Lemma installFromDirectory_true_is_consistent_witness :
  LibraryManager.checkConsistency storage (name (h5pTest 1)) installed1
  = (Ok true, installed1).
Proof.
  apply (installFromDirectory_true_is_consistent storage unsorted directory1 false
           ∅ installed1 (h5pTest 1));
    [reflexivity | vm_compute; reflexivity].
Defined.

Lemma answered_query_is_served_from_cache_witness :
  CachedLibraryStorage.ask cachedStorage (CachedLibraryStorage.QGetLanguages H5P_Test)
    (CachedLibraryStorage.mkState ∅ (CachedLibraryStorage.cache warm) [])
  = (Ok (CachedLibraryStorage.VStrings ["de"]),
     CachedLibraryStorage.mkState ∅ (CachedLibraryStorage.cache warm) []).
Proof.
  apply (answered_query_is_served_from_cache cachedStorage
           (CachedLibraryStorage.QGetLanguages H5P_Test) cold warm
           (CachedLibraryStorage.VStrings ["de"]) ∅ []).
  vm_compute. reflexivity.
Defined.

Lemma writes_keep_other_keys_witness :
  CachedLibraryStorage.cache
    (snd (CachedLibraryStorage.perform cachedStorage
            (CachedLibraryStorage.CAddFile H5P_Test "language/fr.json"
               (mkFile "semantics: []" None)) warm))
    !! CachedLibraryStorage.getCacheKeyForMetadata H5P_Test
         CachedLibraryStorage.LANGUAGES_CACHE_KEY
  = CachedLibraryStorage.cache warm
      !! CachedLibraryStorage.getCacheKeyForMetadata H5P_Test
           CachedLibraryStorage.LANGUAGES_CACHE_KEY.
Proof.
  apply (writes_keep_other_keys cachedStorage
           (CachedLibraryStorage.CAddFile H5P_Test "language/fr.json"
              (mkFile "semantics: []" None)) warm).
  vm_compute. intros [H|[H|[H|[]]]]; discriminate H.
Defined.

Lemma rejected_package_changes_nothing_witness :
  PackageManager.processPackage storage unsorted 1000 10000 oneIssue None "/tmp/tmp-1"
    [] true false None emptyWorld
  = (Throw (mkException H5pError "The package has no h5p.json."), emptyWorld).
Proof.
  apply (rejected_package_changes_nothing storage unsorted 1000 10000 oneIssue None
           "/tmp/tmp-1" [] true false None emptyWorld
           (mkException ValidationError "The package has no h5p.json.")).
  reflexivity.
Defined.

Lemma processPackage_removes_temporary_files_witness :
  PackageManager.disk
    (snd (PackageManager.processPackage storage unsorted 1000 10000 noIssues None
            "/tmp/tmp-1" package true false None emptyWorld))
    !! "/tmp/tmp-1/H5P.Test-1.0/main.js" = None.
Proof.
  apply (processPackage_removes_temporary_files storage unsorted 1000 10000 noIssues
           None "/tmp/tmp-1" package true false None emptyWorld
           "/tmp/tmp-1/H5P.Test-1.0/main.js" "H5P.Test-1.0/main.js");
    reflexivity.
Defined.

Lemma extractPackage_stays_below_witness :
  PackageManager.persistent
    (snd (PackageManager.extractPackage package
            (Resolved.absolutePath ["tmp"; "tmp-1"])
            (PackageManager.mkExtract true false false) emptyWorld))
  = PackageManager.persistent emptyWorld
  /\ PackageManager.disk
       (snd (PackageManager.extractPackage package
               (Resolved.absolutePath ["tmp"; "tmp-1"])
               (PackageManager.mkExtract true false false) emptyWorld))
       !! "/etc/passwd"
     = PackageManager.disk emptyWorld !! "/etc/passwd".
Proof.
  apply (extractPackage_stays_below package ["tmp"; "tmp-1"]
           (PackageManager.mkExtract true false false) emptyWorld "/etc/passwd").
  - discriminate.
  - reflexivity.
  - reflexivity.
Defined.

Lemma processPackage_restores_disk_witness :
  PackageManager.disk
    (snd (PackageManager.processPackage storage unsorted 1000 10000 noIssues None
            (Resolved.absolutePath ["tmp"; "tmp-1"]) package true false None
            emptyWorld))
  = PackageManager.disk emptyWorld.
Proof.
  apply (processPackage_restores_disk storage unsorted 1000 10000 noIssues None
           ["tmp"; "tmp-1"] package true false None emptyWorld).
  - discriminate.
  - reflexivity.
  - intros p relative _. apply lookup_empty.
Defined.

Lemma keyOf_injective_on_libraries_witness :
  CachedLibraryStorage.QFileExists H5P_Test "main.js"
  = CachedLibraryStorage.QFileExists H5P_Test "main.js".
Proof.
  apply (keyOf_injective_on_libraries
           (CachedLibraryStorage.QFileExists H5P_Test "main.js")
           (CachedLibraryStorage.QFileExists H5P_Test "main.js")
           H5P_Test H5P_Test);
    reflexivity.
Defined.

Lemma read_after_write_on_invalidation_set_witness :
  fst (CachedLibraryStorage.ask cachedStorage
         (CachedLibraryStorage.QGetLanguages H5P_Test)
         (snd (CachedLibraryStorage.perform cachedStorage
                 (CachedLibraryStorage.CDeleteLibrary H5P_Test) warm)))
  = CachedLibraryStorage.answer cachedStorage
      (CachedLibraryStorage.QGetLanguages H5P_Test)
      (CachedLibraryStorage.backing
         (snd (CachedLibraryStorage.perform cachedStorage
                 (CachedLibraryStorage.CDeleteLibrary H5P_Test) warm))).
Proof.
  apply (read_after_write_on_invalidation_set cachedStorage
           (CachedLibraryStorage.CDeleteLibrary H5P_Test)
           (CachedLibraryStorage.QGetLanguages H5P_Test) warm).
  - vm_compute. reflexivity.
  - vm_compute. repeat (first [left; reflexivity | right]).
Defined.

Lemma addPackageLibrariesAndContent_needs_content_manager_witness :
  exists e,
    fst (PackageManager.addPackageLibrariesAndContent storage unsorted 1000 10000
           noIssues None "/tmp/tmp-1" package true None emptyWorld) = Throw e.
Proof.
  apply (addPackageLibrariesAndContent_needs_content_manager storage unsorted
           1000 10000 noIssues None "/tmp/tmp-1" package true None emptyWorld).
  reflexivity.
Defined.

Lemma list_query_can_hit_library_entry_witness :
  CachedLibraryStorage.getInstalledLibraryNames cachedStorage
    (Some ("X" +:+ "-" +:+ number_to_string (majorVersion namesake) +:+ "."
           +:+ number_to_string (minorVersion namesake) +:+ "-" +:+ "languages"))
    namesakeCached
  = (Ok (CachedLibraryStorage.VStrings ["de"]), namesakeCached).
Proof.
  apply (list_query_can_hit_library_entry cachedStorage namesake "languages" "X"
           namesakeCached (CachedLibraryStorage.VStrings ["de"]));
    [reflexivity | vm_compute; reflexivity].
Defined.

End ExtraWitnesses.

(** ** Paths of the temporary file storage *)

Section TemporaryPaths.

Import Path Resolved FsExtra DirectoryTemporaryFileStorage.

Lemma split_on_join_slashFree (l : list string) :
  l <> [] -> Forall slashFree l -> split_on "/" (join "/" l) = l.
Proof.
  induction l as [|x rest IH]; [congruence|]. intros _ Hall.
  apply Forall_cons_iff in Hall as [Hx Hrest].
  destruct rest as [|y rest]; [now apply split_on_whole|].
  rewrite join_cons by discriminate.
  change (x +:+ "/" +:+ join "/" (y :: rest))
    with (x +:+ String "/" (join "/" (y :: rest))).
  rewrite split_on_app, IH by (assumption || discriminate).
  now rewrite split_on_whole.
Qed.

Lemma plain_slashFree (l : list string) :
  forallb plain l = true -> Forall slashFree l.
Proof.
  intros H. apply List.Forall_forall. intros x Hx.
  apply (proj1 (forallb_forall _ _) H) in Hx. now apply plain_spec in Hx.
Qed.

Lemma forallb_plain_app (l1 l2 : list string) :
  forallb plain l1 = true -> forallb plain l2 = true ->
  forallb plain (l1 ++ l2) = true.
Proof. intros H1 H2. rewrite forallb_app. now rewrite H1, H2. Qed.

Lemma every_last_char (p : ascii -> bool) (s : string) (d : ascii) :
  s <> "" -> every p s = true -> p (last_char d s) = true.
Proof.
  revert d. induction s as [|c s IH]; intros d Hne Hp; [congruence|].
  cbn in Hp. apply andb_true_iff in Hp as [Hc Hs]. cbn [last_char].
  destruct s as [|c' s]; [exact Hc|]. now apply IH.
Qed.

Lemma last_char_default (x : string) (d d' : ascii) :
  x <> "" -> last_char d x = last_char d' x.
Proof. destruct x; [congruence|reflexivity]. Qed.

Lemma last_char_join (l : list string) (x : string) (d : ascii) :
  x <> "" -> last_char d (join "/" (l ++ [x])) = last_char d x.
Proof.
  intros Hx. revert d. induction l as [|y l IH]; intros d; [reflexivity|].
  change ((y :: l) ++ [x]) with (y :: (l ++ [x])).
  rewrite join_cons by now destruct l.
  destruct (join "/" (l ++ [x])) as [|c rest] eqn:E.
  - exfalso. destruct x as [|a x]; [congruence|].
    clear IH. revert E. induction l as [|z l IHl]; [discriminate|].
    change ((z :: l) ++ [String a x]) with (z :: (l ++ [String a x])).
    rewrite join_cons by now destruct l.
    destruct z; [|discriminate]. rewrite sapp_nil_l. discriminate.
  - change (y +:+ "/" +:+ String c rest) with (y +:+ String "/" (String c rest)).
    rewrite last_char_app, IH. now apply last_char_default.
Qed.

(** A resolved path is its own normal form, and its place is its
    segments. *)
Lemma locate_absolutePath (l : list string) :
  forallb plain l = true -> locate (absolutePath l) = l.
Proof.
  intros Hplain. unfold locate, absolutePath.
  change ("/" +:+ join "/" l) with (String "/" (join "/" l)).
  cbn [split_on]. rewrite Ascii.eqb_refl.
  destruct (decide (l = [])) as [->|Hne]; [reflexivity|].
  rewrite split_on_join by assumption.
  change (normalizeArray ("" :: l) false []) with (normalizeArray l false []).
  rewrite <- (app_nil_r l) at 1.
  rewrite normalizeArray_plain by assumption.
  cbn [normalizeArray]. now rewrite app_nil_r, rev_involutive.
Qed.

Lemma normalize_absolutePath (l : list string) :
  l <> [] -> forallb plain l = true -> normalize (absolutePath l) = absolutePath l.
Proof.
  intros Hne Hplain. unfold normalize.
  pose proof (locate_absolutePath l Hplain) as Hloc. unfold locate in Hloc.
  unfold absolutePath in *.
  change ("/" +:+ join "/" l) with (String "/" (join "/" l)) in *.
  cbn [isEmpty isAbsolute startsWith]. rewrite Ascii.eqb_refl. cbn [negb].
  rewrite Hloc.
  destruct (exists_last Hne) as (front & x & ->).
  assert (plain x = true) as Hx.
  { rewrite forallb_app in Hplain. apply andb_true_iff in Hplain as [_ Hp].
    cbn in Hp. now rewrite andb_true_r in Hp. }
  destruct (plain_spec x Hx) as (Hxne & _ & _ & Hslash).
  cbn [last_char]. rewrite last_char_join by assumption.
  pose proof (every_last_char _ x "/" Hxne Hslash) as Hlast.
  apply negb_true_iff in Hlast. rewrite Hlast.
  assert (isEmpty (join "/" (front ++ [x])) = false) as ->.
  { destruct front as [|y front].
    - cbn. now destruct x.
    - change ((y :: front) ++ [x]) with (y :: (front ++ [x])).
      rewrite join_cons by now destruct front.
      destruct y; reflexivity. }
  reflexivity.
Qed.

Lemma absolutePath_snoc (l : list string) (x : string) :
  l <> [] -> absolutePath l +:+ "/" +:+ x = absolutePath (l ++ [x]).
Proof.
  intros Hne. unfold absolutePath.
  rewrite join_app by (assumption || discriminate).
  cbn [join]. now rewrite !sapp_assoc.
Qed.

Lemma plain_nonempty (x : string) : plain x = true -> isEmpty x = false.
Proof. intros (H & _)%plain_spec. now destruct x. Qed.

Lemma absolutePath_nonempty (l : list string) : isEmpty (absolutePath l) = false.
Proof. reflexivity. Qed.

Section Resolved.

Context (segments : list string) (Hsegments : segments <> [])
        (Hplain : forallb plain segments = true).

Lemma userDirectory_resolved (userId : string) :
  plain userId = true ->
  getAbsoluteUserDirectoryPath (absolutePath segments) userId
  = absolutePath (segments ++ [userId]).
Proof.
  intros Hu. unfold getAbsoluteUserDirectoryPath, joinAll.
  cbn [List.filter]. rewrite absolutePath_nonempty, (plain_nonempty _ Hu).
  cbn [negb join]. rewrite absolutePath_snoc by assumption.
  rewrite absolutePath_nonempty.
  apply normalize_absolutePath; [now destruct segments|].
  apply forallb_plain_app; [assumption|]. cbn. now rewrite Hu.
Qed.

Lemma filePath_resolved (userId filename : string) :
  plain userId = true -> plain filename = true ->
  getAbsoluteFilePath (absolutePath segments) userId filename
  = absolutePath (segments ++ [userId; filename]).
Proof.
  intros Hu Hf. unfold getAbsoluteFilePath, joinAll.
  cbn [List.filter].
  rewrite absolutePath_nonempty, (plain_nonempty _ Hu), (plain_nonempty _ Hf).
  cbn [negb join].
  assert (absolutePath segments +:+ "/" +:+ userId +:+ "/" +:+ filename
          = absolutePath (segments ++ [userId; filename])) as ->.
  { replace (segments ++ [userId; filename])
      with ((segments ++ [userId]) ++ [filename]) by now rewrite <- app_assoc.
    rewrite <- (absolutePath_snoc (segments ++ [userId]) filename)
      by now destruct segments.
    rewrite <- (absolutePath_snoc segments userId) by assumption.
    now rewrite !sapp_assoc. }
  rewrite absolutePath_nonempty.
  apply normalize_absolutePath; [now destruct segments|].
  apply forallb_plain_app; [assumption|]. cbn. now rewrite Hu, Hf.
Qed.

End Resolved.

End TemporaryPaths.

(** ** The temporary file storage *)

Section TemporaryFacts.

Import Path Resolved FsExtra DirectoryTemporaryFileStorage.

Lemma sapp_length_ne (s t : string) : t <> "" -> s +:+ t <> s.
Proof.
  intros Ht E. apply (f_equal String.length) in E. rewrite sapp_length in E.
  destruct t; [congruence|]. cbn in E. lia.
Qed.

Lemma plain_metadata (filename : string) :
  plain filename = true -> plain (filename +:+ ".metadata") = true.
Proof.
  intros (Hne & _ & _ & Hslash)%plain_spec. unfold plain.
  assert (forall t, (String.length t < 9)%nat ->
                    String.eqb (filename +:+ ".metadata") t = false) as Hlong.
  { intros t Ht. apply String.eqb_neq. intros E.
    apply (f_equal String.length) in E. rewrite sapp_length in E. cbn in E. lia. }
  rewrite every_app, Hslash, !Hlong by (cbn; lia).
  destruct filename; [congruence|reflexivity].
Qed.

Lemma prefixes_self (loc : Location) : loc <> [] -> In loc (prefixes loc).
Proof.
  induction loc as [|x loc IH]; [congruence|]. intros _. cbn [prefixes].
  destruct loc as [|y loc]; [now left|].
  right. apply in_map. apply IH. discriminate.
Qed.

Lemma prefixes_length (loc pre : Location) :
  In pre (prefixes loc) -> (length pre <= length loc)%nat.
Proof.
  revert pre. induction loc as [|x loc IH]; intros pre H; [destruct H|].
  cbn [prefixes] in H. destruct H as [<-|H]; [cbn; lia|].
  apply in_map_iff in H as (pre' & <- & H). apply IH in H. cbn. lia.
Qed.

Section Resolved.

Context (segments : list string) (Hsegments : segments <> [])
        (Hplain : forallb plain segments = true).

Let directory : string := absolutePath segments.

Lemma locate_userDirectory (userId : string) :
  plain userId = true ->
  locate (getAbsoluteUserDirectoryPath directory userId) = segments ++ [userId].
Proof.
  intros Hu. unfold directory. rewrite userDirectory_resolved by assumption.
  apply locate_absolutePath, forallb_plain_app; [assumption|].
  cbn. now rewrite Hu.
Qed.

Lemma locate_filePath (userId filename : string) :
  plain userId = true -> plain filename = true ->
  locate (getAbsoluteFilePath directory userId filename)
  = segments ++ [userId; filename].
Proof.
  intros Hu Hf. unfold directory. rewrite filePath_resolved by assumption.
  apply locate_absolutePath, forallb_plain_app; [assumption|].
  cbn. now rewrite Hu, Hf.
Qed.

Lemma locate_metadataPath (userId filename : string) :
  plain userId = true -> plain filename = true ->
  locate (getAbsoluteFilePath directory userId filename +:+ ".metadata")
  = segments ++ [userId; filename +:+ ".metadata"].
Proof.
  intros Hu Hf. unfold directory. rewrite filePath_resolved by assumption.
  replace (segments ++ [userId; filename])
    with ((segments ++ [userId]) ++ [filename]) by now rewrite <- app_assoc.
  rewrite <- absolutePath_snoc by now destruct segments.
  rewrite !sapp_assoc.
  change ("/" +:+ filename +:+ ".metadata")
    with ("/" +:+ (filename +:+ ".metadata")).
  rewrite absolutePath_snoc by now destruct segments.
  rewrite <- app_assoc. cbn [app].
  apply locate_absolutePath, forallb_plain_app; [assumption|].
  cbn. now rewrite Hu, (plain_metadata _ Hf).
Qed.

(** A date that was written and read again: an invalid date comes back as
    the epoch. *)
Lemma newDate_getTime (date : Date) :
  isDate date = true ->
  newDate (getTime date) = match date with Some t => Some t | None => Some 0 end.
Proof.
  destruct date as [t|]; [|reflexivity]. cbn [isDate getTime newDate].
  unfold timeClip. now intros ->.
Qed.

(** What [saveFile] does for a plain user and a plain name. *)
Lemma saveFile_run (filename : string) (dataStream : Content) (userId : string)
    (expirationTime : Date) (d : Disk) :
  plain userId = true -> plain filename = true ->
  let home := segments ++ [userId] in
  let place := segments ++ [userId; filename] in
  let companion := segments ++ [userId; filename +:+ ".metadata"] in
  let made := directories d ∪ list_to_set (prefixes home) in
  forall info d',
    saveFile directory filename dataStream (mkUser userId) expirationTime d
    = (Ok info, d') ->
    info = mkTemporaryFile expirationTime filename userId
    /\ exists metadata,
         parsed metadata = Some (getTime expirationTime)
         /\ d' = mkDisk (<[companion := metadata]> (<[place := dataStream]> (files d)))
                   made.
Proof.
  intros Hu Hf home place companion made info d' H.
  unfold saveFile in H. cbn [id] in H.
  apply bind_ok_inv in H as ([] & d1 & Hensure & H).
  apply bind_ok_inv in H as ([] & d2 & Hwrite & H).
  apply bind_ok_inv in H as ([] & d3 & Hmeta & H).
  injection H as <- <-. split; [reflexivity|].
  unfold ensureDir in Hensure. rewrite locate_userDirectory in Hensure by assumption.
  destruct (existsb _ _); [discriminate|]. injection Hensure as <-.
  unfold writeFile in Hwrite. rewrite locate_filePath in Hwrite by assumption.
  cbv zeta in Hwrite.
  destruct (isDirectory _ _); [discriminate|].
  destruct (isDirectory _ _); [|destruct (isFile _ _); discriminate].
  injection Hwrite as <-.
  unfold writeJSON, writeFile in Hmeta.
  rewrite locate_metadataPath in Hmeta by assumption. cbv zeta in Hmeta.
  destruct (isDirectory _ _); [discriminate|].
  destruct (isDirectory _ _); [|destruct (isFile _ _); discriminate].
  injection Hmeta as <-.
  eexists. split; [|reflexivity]. reflexivity.
Qed.

(** X24: what [saveFile] has stored can be read back: after a successful
    [saveFile] of a plain name for a plain user id, [saveFile] has returned
    the date it was given, the file exists for that user, [getFileStream]
    delivers the data that was saved, and the file's information has the
    expiration time that was given when that is a valid date; for an invalid
    date the information that is read back has the epoch as its expiration
    time. *)
Theorem saveFile_then_read (filename : string) (dataStream : Content)
    (userId : string) (expirationTime : Date) (d d' : Disk) (info : ITemporaryFile) :
  plain userId = true -> plain filename = true ->
  isDate expirationTime = true ->
  saveFile directory filename dataStream (mkUser userId) expirationTime d
  = (Ok info, d') ->
  info = mkTemporaryFile expirationTime filename userId
  /\ fileExists directory filename (mkUser userId) d' = (Ok true, d')
  /\ getFileStream directory filename (mkUser userId) d'
     = (Ok (Delivering dataStream), d')
  /\ getTemporaryFileInfo directory filename userId d'
     = (Ok (mkTemporaryFile
              (match expirationTime with Some t => Some t | None => Some 0 end)
              filename userId), d').
Proof.
  intros Hu Hf Hdate H.
  destruct (saveFile_run filename dataStream userId expirationTime d Hu Hf info d' H)
    as (-> & metadata & Hparsed & ->).
  assert (segments ++ [userId; filename +:+ ".metadata"]
          <> segments ++ [userId; filename]) as Hother.
  { intros E. apply app_inv_head in E. injection E as E.
    revert E. now apply sapp_length_ne. }
  assert (pathExists (getAbsoluteFilePath directory userId filename)
            (mkDisk (<[segments ++ [userId; filename +:+ ".metadata"] := metadata]>
                       (<[segments ++ [userId; filename] := dataStream]> (files d)))
                    (directories d ∪ list_to_set (prefixes (segments ++ [userId]))))
          = Ok true) as Hexists.
  { unfold pathExists. rewrite locate_filePath by assumption.
    unfold isFile. cbn [files].
    rewrite lookup_insert_ne, lookup_insert_eq by assumption.
    now rewrite orb_true_r. }
  split; [reflexivity|]. split; [|split].
  - unfold fileExists, read. cbn [id]. now rewrite Hexists.
  - unfold getFileStream, bind, read. cbn [id]. rewrite Hexists. cbn [negb].
    unfold createReadStream. rewrite locate_filePath by assumption. cbn [files].
    now rewrite lookup_insert_ne, lookup_insert_eq by assumption.
  - unfold getTemporaryFileInfo, bind, read, readJSON.
    rewrite locate_metadataPath by assumption. cbn [files].
    rewrite lookup_insert_eq, Hparsed. cbn [bind ret].
    now rewrite newDate_getTime.
Qed.

End Resolved.

End TemporaryFacts.

(** ** The temporary file storage: what a call leaves alone *)

Section TemporaryFrame.

Import Path Resolved FsExtra DirectoryTemporaryFileStorage Untouched.

Lemma sameAt_refl (loc : Location) (d : Disk) : sameAt loc d d.
Proof. now split. Qed.

Lemma sameAt_trans (loc : Location) (d1 d2 d3 : Disk) :
  sameAt loc d1 d2 -> sameAt loc d2 d3 -> sameAt loc d1 d3.
Proof. intros [F1 D1] [F2 D2]. split; [congruence|tauto]. Qed.

Lemma leaves_ret {A : Type} (loc : Location) (a : A) : leaves loc (@ret Disk A a).
Proof. intros d. apply sameAt_refl. Qed.

Lemma leaves_read {A : Type} (loc : Location) (f : Disk -> outcome A) :
  leaves loc (read f).
Proof. intros d. apply sameAt_refl. Qed.

Lemma leaves_bind {A B : Type} (loc : Location) (m : M Disk A) (f : A -> M Disk B) :
  leaves loc m -> (forall a, leaves loc (f a)) -> leaves loc (bind m f).
Proof.
  intros Hm Hf d. unfold bind. specialize (Hm d).
  destruct (m d) as [[a|e] d1]; cbn [snd] in *; [|exact Hm].
  eapply sameAt_trans; [exact Hm|apply Hf].
Qed.

Lemma leaves_ensureDir (loc : Location) (p : string) :
  ~ In loc (prefixes (locate p)) -> leaves loc (ensureDir p).
Proof.
  intros Hnin d. unfold ensureDir.
  destruct (existsb _ _); [apply sameAt_refl|].
  split; [reflexivity|]. cbn [snd directories].
  rewrite elem_of_union, elem_of_list_to_set, list_elem_of_In. tauto.
Qed.

Lemma leaves_writeFile (loc : Location) (p : string) (content : Content) :
  loc <> locate p -> leaves loc (writeFile p content).
Proof.
  intros Hne d. unfold writeFile. cbv zeta.
  destruct (isDirectory _ _); [apply sameAt_refl|].
  destruct (isDirectory _ _); [|destruct (isFile _ _); apply sameAt_refl].
  split; [|reflexivity]. cbn [snd files]. now apply lookup_insert_ne.
Qed.

Lemma leaves_remove (loc : Location) (p : string) :
  ~ locate p `prefix_of` loc -> leaves loc (remove p).
Proof.
  intros Hnp d. unfold remove. cbv zeta. split; cbn [snd files directories].
  - destruct (files d !! loc) as [c|] eqn:E.
    + apply map_lookup_filter_Some. now split.
    + apply map_lookup_filter_None. now left.
  - rewrite elem_of_filter. tauto.
Qed.

Lemma leaves_rmdir (loc : Location) (p : string) :
  loc <> locate p -> leaves loc (rmdir p).
Proof.
  intros Hne d. unfold rmdir. cbv zeta.
  destruct (isDirectory _ _).
  - destruct (children _ _); [|apply sameAt_refl].
    split; [reflexivity|]. cbn [snd directories].
    rewrite elem_of_difference, elem_of_singleton. tauto.
  - destruct (isFile _ _); apply sameAt_refl.
Qed.

Lemma sameAt_isDirectory (loc : Location) (d d' : Disk) :
  sameAt loc d d' -> isDirectory loc d' = isDirectory loc d.
Proof.
  intros [_ Hd]. unfold isDirectory. destruct loc; [reflexivity|].
  now apply bool_decide_ext.
Qed.

Lemma sameAt_isFile (loc : Location) (d d' : Disk) :
  sameAt loc d d' -> isFile loc d' = isFile loc d.
Proof. intros [Hf _]. unfold isFile. now rewrite Hf. Qed.

Section Resolved.

Context (segments : list string) (Hsegments : segments <> [])
        (Hplain : forallb plain segments = true).

Let directory : string := absolutePath segments.

(** The calls about a file see a disk only at the place of the file. *)
Lemma reads_at_place (userId filename : string) (d d' : Disk) :
  plain userId = true -> plain filename = true ->
  sameAt (segments ++ [userId; filename]) d d' ->
  fst (fileExists directory filename (mkUser userId) d')
  = fst (fileExists directory filename (mkUser userId) d)
  /\ fst (getFileStream directory filename (mkUser userId) d')
     = fst (getFileStream directory filename (mkUser userId) d).
Proof.
  intros Hu Hf Hsame.
  pose proof (sameAt_isDirectory _ _ _ Hsame) as Hdir.
  pose proof (sameAt_isFile _ _ _ Hsame) as Hfile.
  destruct Hsame as [Hfiles _].
  unfold fileExists, getFileStream, bind, read, pathExists, createReadStream.
  cbn [id fst]. rewrite !(locate_filePath segments Hsegments Hplain) by assumption.
  rewrite Hdir, Hfile. split; [reflexivity|].
  destruct (negb _); [reflexivity|]. cbn [fst]. now rewrite Hfiles, Hdir.
Qed.

Lemma saveFile_leaves (loc : Location) (filename : string) (dataStream : Content)
    (userId : string) (expirationTime : Date) :
  plain userId = true -> plain filename = true ->
  ~ In loc (prefixes (segments ++ [userId])) ->
  loc <> segments ++ [userId; filename] ->
  loc <> segments ++ [userId; filename +:+ ".metadata"] ->
  leaves loc (saveFile directory filename dataStream (mkUser userId) expirationTime).
Proof.
  intros Hu Hf Hnin Hplace Hcompanion. unfold saveFile. cbn [id].
  apply leaves_bind.
  { apply leaves_ensureDir.
    now rewrite (locate_userDirectory segments Hsegments Hplain). }
  intros _. apply leaves_bind.
  { apply leaves_writeFile.
    now rewrite (locate_filePath segments Hsegments Hplain). }
  intros _. apply leaves_bind; [|intros; apply leaves_ret].
  apply leaves_writeFile.
  now rewrite (locate_metadataPath segments Hsegments Hplain).
Qed.

Lemma deleteFile_leaves (loc : Location) (filename userId : string) :
  plain userId = true -> plain filename = true ->
  ~ (segments ++ [userId; filename]) `prefix_of` loc ->
  ~ (segments ++ [userId; filename +:+ ".metadata"]) `prefix_of` loc ->
  loc <> segments ++ [userId] ->
  leaves loc (deleteFile directory filename userId).
Proof.
  intros Hu Hf Hplace Hcompanion Hhome. unfold deleteFile.
  apply leaves_bind.
  { apply leaves_remove.
    now rewrite (locate_filePath segments Hsegments Hplain). }
  intros _. apply leaves_bind.
  { apply leaves_remove.
    now rewrite (locate_metadataPath segments Hsegments Hplain). }
  intros _. apply leaves_bind; [apply leaves_read|].
  intros userFiles. destruct (length userFiles =? 0)%nat; [|apply leaves_ret].
  apply leaves_rmdir.
  now rewrite (locate_userDirectory segments Hsegments Hplain).
Qed.

Lemma other_user_place (userId other filename name : string) (rest : Location) :
  userId <> other ->
  segments ++ [other; name] <> (segments ++ [userId; filename]) ++ rest.
Proof.
  intros Hne E. rewrite <- app_assoc in E. apply app_inv_head in E.
  injection E as E _. congruence.
Qed.

(** X25: users are kept apart: for plain user ids and plain names, neither
    [saveFile] nor [deleteFile] of one user, whether it succeeds or fails,
    changes whether a file of another user exists or what [getFileStream]
    gives for it. *)
Theorem other_users_files_are_untouched
    (userId other filename name : string) (d : Disk) :
  plain userId = true -> plain other = true ->
  plain filename = true -> plain name = true ->
  userId <> other ->
  (forall dataStream expirationTime,
      let d' := snd (saveFile directory filename dataStream (mkUser userId)
                       expirationTime d) in
      fst (fileExists directory name (mkUser other) d')
      = fst (fileExists directory name (mkUser other) d)
      /\ fst (getFileStream directory name (mkUser other) d')
         = fst (getFileStream directory name (mkUser other) d))
  /\ (let d' := snd (deleteFile directory filename userId d) in
      fst (fileExists directory name (mkUser other) d')
      = fst (fileExists directory name (mkUser other) d)
      /\ fst (getFileStream directory name (mkUser other) d')
         = fst (getFileStream directory name (mkUser other) d)).
Proof.
  intros Hu Ho Hf Hn Hne.
  assert (forall f, segments ++ [other; name] <> segments ++ [userId; f]) as Hfile.
  { intros f E. apply (other_user_place userId other f name [] Hne).
    now rewrite app_nil_r. }
  split; [intros dataStream expirationTime|]; cbv zeta;
    apply reads_at_place; try assumption.
  - apply saveFile_leaves; try assumption; try apply Hfile.
    intros Hin. apply prefixes_length in Hin. rewrite !length_app in Hin.
    cbn in Hin. lia.
  - apply deleteFile_leaves; try assumption.
    + intros [rest E]. now apply (other_user_place userId other filename name rest).
    + intros [rest E].
      now apply (other_user_place userId other (filename +:+ ".metadata") name rest).
    + intros E. apply (f_equal length) in E. rewrite !length_app in E.
      cbn in E. lia.
Qed.

Lemma deleteFile_gone (userId filename : string) (d d' : Disk) :
  plain userId = true -> plain filename = true ->
  deleteFile directory filename userId d = (Ok tt, d') ->
  files d' !! (segments ++ [userId; filename]) = None
  /\ segments ++ [userId; filename] ∉ directories d'.
Proof.
  intros Hu Hf H. unfold deleteFile in H.
  apply bind_ok_inv in H as ([] & d1 & Hremove & H).
  apply bind_ok_inv in H as ([] & d2 & Hcompanion & H).
  apply bind_ok_inv in H as (userFiles & d3 & Hread & H).
  unfold read in Hread. injection Hread as _ <-.
  unfold remove in Hremove, Hcompanion. cbv zeta in Hremove, Hcompanion.
  rewrite (locate_filePath segments Hsegments Hplain) in Hremove by assumption.
  injection Hremove as <-. injection Hcompanion as <-.
  destruct (length userFiles =? 0)%nat.
  - unfold rmdir in H. cbv zeta in H.
    destruct (isDirectory _ _); [|destruct (isFile _ _); discriminate].
    destruct (children _ _); [|discriminate]. injection H as <-.
    cbn [files directories]. split.
    + apply map_lookup_filter_None. left.
      apply map_lookup_filter_None. right. intros c _ Hn. now apply Hn.
    + rewrite elem_of_difference, !elem_of_filter. intros [[_ [Hn _]] _].
      now apply Hn.
  - injection H as <-. cbn [files directories]. split.
    + apply map_lookup_filter_None. left.
      apply map_lookup_filter_None. right. intros c _ Hn. now apply Hn.
    + rewrite !elem_of_filter. intros [_ [Hn _]]. now apply Hn.
Qed.

(** X26: a deleted file is gone, and only that file: after a successful
    [deleteFile] of a plain name for a plain user id the file does not exist
    for the user and [getFileStream] rejects with an [H5pError]; a file of the
    same user under another plain name, that is not the companion
    [<name>.metadata] of the deleted one, is as before. *)
Theorem deleteFile_removes_the_file
    (userId filename : string) (d d' : Disk) :
  plain userId = true -> plain filename = true ->
  deleteFile directory filename userId d = (Ok tt, d') ->
  fileExists directory filename (mkUser userId) d' = (Ok false, d')
  /\ (exists e, getFileStream directory filename (mkUser userId) d' = (Throw e, d')
                /\ ex_class e = H5pError)
  /\ forall name,
       plain name = true -> name <> filename ->
       name <> filename +:+ ".metadata" ->
       fst (fileExists directory name (mkUser userId) d')
       = fst (fileExists directory name (mkUser userId) d)
       /\ fst (getFileStream directory name (mkUser userId) d')
          = fst (getFileStream directory name (mkUser userId) d).
Proof.
  intros Hu Hf H.
  destruct (deleteFile_gone userId filename d d' Hu Hf H) as [Hfile Hdir].
  assert (pathExists (getAbsoluteFilePath directory userId filename) d' = Ok false)
    as Hgone.
  { unfold pathExists, isFile, isDirectory.
    rewrite (locate_filePath segments Hsegments Hplain) by assumption.
    match goal with
    | |- context [files d' !! ?k] => replace (files d' !! k) with (@None Content)
    end.
    rewrite bool_decide_eq_false_2 by assumption.
    now destruct (segments ++ [userId; filename]) eqn:E; [destruct segments|]. }
  split; [|split].
  - unfold fileExists, read. cbn [id]. now rewrite Hgone.
  - unfold getFileStream, bind, read. cbn [id]. rewrite Hgone. cbn [negb].
    eexists. split; reflexivity.
  - intros name Hn Hne Hnc.
    pose proof (deleteFile_leaves (segments ++ [userId; name]) filename userId
                  Hu Hf) as Hleaves.
    apply reads_at_place; try assumption.
    replace d' with (snd (deleteFile directory filename userId d))
      by now rewrite H.
    apply Hleaves.
    + intros [rest E]. rewrite <- app_assoc in E. apply app_inv_head in E.
      injection E as E _. congruence.
    + intros [rest E]. rewrite <- app_assoc in E. apply app_inv_head in E.
      injection E as E _. congruence.
    + intros E. apply (f_equal length) in E. rewrite !length_app in E.
      cbn in E. lia.
Qed.

Lemma locate_nestedPath (userId folder filename : string) :
  plain userId = true -> plain folder = true -> plain filename = true ->
  locate (getAbsoluteFilePath directory userId (folder +:+ "/" +:+ filename))
  = segments ++ [userId; folder; filename].
Proof.
  intros Hu Ha Hb.
  assert (forallb plain (segments ++ [userId; folder; filename]) = true) as Hall.
  { apply forallb_plain_app; [assumption|]. cbn. now rewrite Hu, Ha, Hb. }
  assert (getAbsoluteFilePath directory userId (folder +:+ "/" +:+ filename)
          = absolutePath (segments ++ [userId; folder; filename])) as ->.
  { unfold getAbsoluteFilePath, joinAll. cbn [List.filter].
    unfold directory. rewrite absolutePath_nonempty, (plain_nonempty _ Hu).
    assert (isEmpty (folder +:+ "/" +:+ filename) = false) as ->.
    { destruct folder; [discriminate Ha|reflexivity]. }
    cbn [negb join].
    assert (absolutePath segments +:+ "/" +:+ userId +:+ "/"
              +:+ folder +:+ "/" +:+ filename
            = absolutePath (segments ++ [userId; folder; filename])) as ->.
    { replace (segments ++ [userId; folder; filename])
        with (((segments ++ [userId]) ++ [folder]) ++ [filename])
        by now rewrite <- !app_assoc.
      rewrite <- !absolutePath_snoc
        by (try assumption; intros E; now apply app_eq_nil in E as [_ [=]]).
      now rewrite !sapp_assoc. }
    rewrite absolutePath_nonempty.
    apply normalize_absolutePath; [now destruct segments|exact Hall]. }
  now apply locate_absolutePath.
Qed.

(** X29: [saveFile] creates the directory of the user and no other: a name
    with a folder in it, [<folder>/<name>], is rejected when the user has no
    such folder yet, and no file is written. *)
Theorem saveFile_needs_existing_folder
    (folder filename : string) (dataStream : Content) (userId : string)
    (expirationTime : Date) (d : Disk) :
  plain userId = true -> plain folder = true -> plain filename = true ->
  segments ++ [userId; folder] ∉ directories d ->
  (exists e,
      fst (saveFile directory (folder +:+ "/" +:+ filename) dataStream
             (mkUser userId) expirationTime d) = Throw e)
  /\ files (snd (saveFile directory (folder +:+ "/" +:+ filename) dataStream
                   (mkUser userId) expirationTime d)) = files d.
Proof.
  intros Hu Ha Hb Hmissing.
  assert (exists e d',
             saveFile directory (folder +:+ "/" +:+ filename) dataStream
               (mkUser userId) expirationTime d = (Throw e, d')
             /\ files d' = files d) as (e & d' & -> & Hfiles).
  2:{ split; [now exists e|exact Hfiles]. }
  unfold saveFile. cbn [id].
  unfold bind at 1, ensureDir.
  rewrite (locate_userDirectory segments Hsegments Hplain) by assumption.
  destruct (existsb _ _); [eexists; eexists; split; reflexivity|].
  unfold bind at 1, writeFile. rewrite locate_nestedPath by assumption.
  cbv zeta.
  destruct (isDirectory (segments ++ [userId; folder; filename]) _);
    [eexists; eexists; split; reflexivity|].
  replace (removelast (segments ++ [userId; folder; filename]))
    with (segments ++ [userId; folder]).
  2:{ replace (segments ++ [userId; folder; filename])
        with ((segments ++ [userId; folder]) ++ [filename])
        by now rewrite <- app_assoc.
      now rewrite removelast_last. }
  assert (isDirectory (segments ++ [userId; folder])
            (mkDisk (files d)
               (directories d ∪ list_to_set (prefixes (segments ++ [userId]))))
          = false) as ->.
  { assert (forall loc D, loc <> [] ->
                          isDirectory loc D = bool_decide (loc ∈ directories D))
      as Hdir by (intros [|x loc] D Hne; [congruence|reflexivity]).
    rewrite Hdir by now destruct segments.
    apply bool_decide_eq_false_2. cbn [directories].
    rewrite elem_of_union, elem_of_list_to_set, list_elem_of_In.
    intros [Hin|Hin]; [contradiction|].
    apply prefixes_length in Hin. rewrite !length_app in Hin. cbn in Hin. lia. }
  destruct (isFile _ _); eexists; eexists; split; reflexivity.
Qed.

End Resolved.

End TemporaryFrame.

(** ** The temporary file storage: names and listings *)

Section TemporaryNames.

Import Path Resolved FsExtra DirectoryTemporaryFileStorage.

Lemma after_child (loc : Location) (n : string) : childName loc (loc ++ [n]) = Some n.
Proof.
  unfold childName. induction loc as [|x loc IH]; [reflexivity|].
  cbn [app after]. rewrite String.eqb_refl. exact IH.
Qed.

Lemma children_file (loc : Location) (n : string) (d : Disk) (c : Content) :
  files d !! (loc ++ [n]) = Some c -> In n (children loc d).
Proof.
  intros H. apply list_elem_of_In. unfold children.
  apply list_elem_of_omap. exists (loc ++ [n]). split; [|apply after_child].
  apply elem_of_app. left. apply list_elem_of_fmap.
  exists (loc ++ [n], c). split; [reflexivity|]. now apply elem_of_map_to_list.
Qed.

Lemma readonly_getTemporaryFileInfo (directory filename userId : string) :
  readonly (getTemporaryFileInfo directory filename userId).
Proof.
  apply readonly_bind; [apply readonly_read|]. intros; apply readonly_ret.
Qed.

Lemma getTemporaryFileInfo_name (directory filename userId : string) (d : Disk)
    (info : ITemporaryFile) :
  fst (getTemporaryFileInfo directory filename userId d) = Ok info ->
  DirectoryTemporaryFileStorage.filename info = filename
  /\ ownedByUserId info = userId.
Proof.
  unfold getTemporaryFileInfo, bind, read, ret.
  destruct (readJSON _ d); [|discriminate]. intros [= <-]. now split.
Qed.

Section Resolved.

Context (segments : list string) (Hsegments : segments <> [])
        (Hplain : forallb plain segments = true).

Let directory : string := absolutePath segments.

Lemma normalizeArray_climb (userId other name : string) :
  plain userId = true -> plain other = true -> plain name = true ->
  normalizeArray (segments ++ [userId; ".."; other; name]) false []
  = segments ++ [other; name].
Proof.
  intros Hu Ho Hn.
  destruct (plain_spec _ Hu) as (_ & _ & Hudots & _).
  replace (segments ++ [userId; ".."; other; name])
    with ((segments ++ [userId]) ++ (".." :: [other; name]))
    by now rewrite <- app_assoc.
  rewrite normalizeArray_plain
    by (apply forallb_plain_app; [assumption|cbn; now rewrite Hu]).
  rewrite rev_app_distr, app_nil_r. cbn [rev app].
  change (normalizeArray (".." :: [other; name]) false (userId :: rev segments))
    with (if String.eqb userId ".."
          then normalizeArray [other; name] false (".." :: userId :: rev segments)
          else normalizeArray [other; name] false (rev segments)).
  destruct (String.eqb_spec userId "..") as [E|_]; [contradiction|].
  rewrite <- (app_nil_r [other; name]).
  rewrite normalizeArray_plain by (cbn; now rewrite Ho, Hn).
  cbn [normalizeArray]. rewrite rev_app_distr, !rev_involutive.
  reflexivity.
Qed.

(** A name that climbs out of the user's directory. *)
Lemma climbing_path (userId other name : string) :
  plain userId = true -> plain other = true -> plain name = true ->
  getAbsoluteFilePath directory userId ("../" +:+ other +:+ "/" +:+ name)
  = absolutePath (segments ++ [other; name]).
Proof.
  intros Hu Ho Hn.
  destruct (plain_spec _ Hu) as (_ & _ & _ & Huslash).
  destruct (plain_spec _ Ho) as (_ & _ & _ & Hoslash).
  destruct (plain_spec _ Hn) as (Hnne & _ & _ & Hnslash).
  unfold getAbsoluteFilePath, joinAll. cbn [List.filter].
  unfold directory. rewrite absolutePath_nonempty, (plain_nonempty _ Hu).
  change (isEmpty ("../" +:+ other +:+ "/" +:+ name)) with false.
  cbn [negb join].
  assert (absolutePath segments +:+ "/" +:+ userId +:+ "/"
            +:+ "../" +:+ other +:+ "/" +:+ name
          = absolutePath (segments ++ [userId; ".."; other; name])) as ->.
  { replace (segments ++ [userId; ".."; other; name])
      with ((((segments ++ [userId]) ++ [".."]) ++ [other]) ++ [name])
      by now rewrite <- !app_assoc.
    rewrite <- !absolutePath_snoc
      by (try assumption; intros E; now apply app_eq_nil in E as [_ [=]]).
    rewrite !sapp_assoc. reflexivity. }
  rewrite absolutePath_nonempty. unfold normalize, absolutePath.
  change ("/" +:+ join "/" (segments ++ [userId; ".."; other; name]))
    with (String "/" (join "/" (segments ++ [userId; ".."; other; name]))).
  cbn [isEmpty isAbsolute startsWith]. rewrite Ascii.eqb_refl. cbn [negb].
  cbn [last_char split_on]. rewrite Ascii.eqb_refl.
  rewrite split_on_join_slashFree.
  2: now destruct segments.
  2:{ apply Forall_app. split; [now apply plain_slashFree|].
      repeat constructor; assumption. }
  change (normalizeArray ("" :: segments ++ [userId; ".."; other; name]) false [])
    with (normalizeArray (segments ++ [userId; ".."; other; name]) false []).
  rewrite normalizeArray_climb by assumption.
  replace (segments ++ [userId; ".."; other; name])
    with ((segments ++ [userId; ".."; other]) ++ [name])
    by now rewrite <- app_assoc.
  rewrite last_char_join by assumption.
  pose proof (every_last_char _ name "/" Hnne Hnslash) as Hlast.
  apply negb_true_iff in Hlast. rewrite Hlast.
  assert (isEmpty (join "/" (segments ++ [other; name])) = false) as ->.
  { destruct segments as [|y front]; [congruence|].
    change ((y :: front) ++ [other; name]) with (y :: (front ++ [other; name])).
    rewrite join_cons by now destruct front.
    destruct (plain_spec y) as (Hy & _).
    { cbn in Hplain. now apply andb_true_iff in Hplain as [? _]. }
    now destruct y. }
  reflexivity.
Qed.

(** X27: the user's directory does not confine a name: a file name that
    starts with [../<other user>/] addresses the other user's file.  For plain
    ids and names, user [userId] asking for [../other/name] is told that the
    file exists exactly when [other]'s file [name] does, and is given its
    stream. *)
Theorem relative_name_reaches_other_user
    (userId other name : string) (d : Disk) :
  plain userId = true -> plain other = true -> plain name = true ->
  getAbsoluteFilePath directory userId ("../" +:+ other +:+ "/" +:+ name)
  = getAbsoluteFilePath directory other name
  /\ fileExists directory ("../" +:+ other +:+ "/" +:+ name) (mkUser userId) d
     = fileExists directory name (mkUser other) d
  /\ forall stream,
       getFileStream directory name (mkUser other) d = (Ok stream, d) ->
       getFileStream directory ("../" +:+ other +:+ "/" +:+ name) (mkUser userId) d
       = (Ok stream, d).
Proof.
  intros Hu Ho Hn.
  assert (getAbsoluteFilePath directory userId ("../" +:+ other +:+ "/" +:+ name)
          = getAbsoluteFilePath directory other name) as Hpath.
  { rewrite climbing_path by assumption. unfold directory.
    now rewrite filePath_resolved. }
  split; [exact Hpath|]. split.
  - unfold fileExists. cbn [id]. now rewrite Hpath.
  - intros stream. unfold getFileStream, bind, read. cbn [id].
    rewrite Hpath. destruct (pathExists _ d) as [[]|]; cbn [negb]; try discriminate.
    now intros H.
Qed.

(** X28: [listFiles] for a user lists what was saved and hides the
    companions: after a successful [saveFile] of a plain name that does not
    end in [.metadata], a successful listing of the user's files changes
    nothing, contains the saved file with its expiration time (with the epoch
    when the date that was given is invalid), and contains only files of that
    user whose names do not end in [.metadata]. *)
Theorem listFiles_after_saveFile
    (filename : string) (dataStream : Content) (userId : string)
    (expirationTime : Date) (d d' d'' : Disk) (info : ITemporaryFile)
    (listed : list ITemporaryFile) :
  plain userId = true -> plain filename = true ->
  endsWith ".metadata" filename = false ->
  isDate expirationTime = true ->
  saveFile directory filename dataStream (mkUser userId) expirationTime d
  = (Ok info, d') ->
  listFiles directory (Some (mkUser userId)) d' = (Ok listed, d'') ->
  d'' = d'
  /\ In (mkTemporaryFile
           (match expirationTime with Some t => Some t | None => Some 0 end)
           filename userId) listed
  /\ forall file, In file listed ->
                  endsWith ".metadata" (DirectoryTemporaryFileStorage.filename file) = false
                  /\ ownedByUserId file = userId.
Proof.
  intros Hu Hf Hvisible Hdate Hsave Hlist.
  destruct (saveFile_run segments Hsegments Hplain filename dataStream userId
              expirationTime d Hu Hf info d' Hsave)
    as (_ & metadata & Hparsed & Hd').
  assert (segments ++ [userId; filename +:+ ".metadata"]
          <> segments ++ [userId; filename]) as Hother.
  { intros E. apply app_inv_head in E. injection E as E.
    revert E. now apply sapp_length_ne. }
  assert (getTemporaryFileInfo directory filename userId d'
          = (Ok (mkTemporaryFile
                   (match expirationTime with Some t => Some t | None => Some 0 end)
                   filename userId), d')) as Hinfo.
  { unfold getTemporaryFileInfo, bind, read, readJSON.
    rewrite (locate_metadataPath segments Hsegments Hplain) by assumption.
    rewrite Hd'. cbn [files]. rewrite lookup_insert_eq, Hparsed. cbn [bind ret].
    now rewrite newDate_getTime. }
  assert (In filename (children (segments ++ [userId]) d')) as Hchild.
  { apply (children_file _ _ _ dataStream).
    rewrite <- app_assoc. cbn [app]. rewrite Hd'. cbn [files].
    now rewrite lookup_insert_ne, lookup_insert_eq. }
  clear Hd'.
  unfold listFiles in Hlist. cbn [id] in Hlist.
  apply bind_ok_inv in Hlist as (users & d1 & Husers & Hlist).
  injection Husers as <- <-.
  apply bind_ok_inv in Hlist as (perUser & d2 & Hall & Hret).
  injection Hret as <- <-.
  cbn [map promise_all] in Hall.
  destruct ((let* filesOfUser :=
               read (readdir (getAbsoluteUserDirectoryPath directory userId)) in
             promise_all
               (map (fun f => getTemporaryFileInfo directory f userId)
                    (List.filter (fun f => negb (endsWith ".metadata" f))
                                 filesOfUser))) d')
    as [[found|e] d3] eqn:Huser; [|discriminate].
  injection Hall as <- <-.
  apply bind_ok_inv in Huser as (names & d4 & Hread & Hinner).
  unfold read, readdir in Hread.
  rewrite (locate_userDirectory segments Hsegments Hplain) in Hread by assumption.
  cbv zeta in Hread.
  destruct (isDirectory (segments ++ [userId]) d');
    [|destruct (isFile _ d'); discriminate].
  injection Hread as <- <-.
  rewrite (promise_all_reads (fun f => getTemporaryFileInfo directory f userId))
    in Hinner by (intros; apply readonly_getTemporaryFileInfo).
  destruct (List.find _ _) as [bad|] eqn:Hfind.
  { apply find_some in Hfind as [_ Hbad].
    destruct (fst (getTemporaryFileInfo directory bad userId d'));
      discriminate. }
  injection Hinner as <- <-. cbn [fold_left app].
  split; [reflexivity|]. split.
  - apply list_elem_of_In, list_elem_of_omap. exists filename. split.
    + apply list_elem_of_In, filter_In. split; [exact Hchild|].
      now rewrite Hvisible.
    + now rewrite Hinfo.
  - intros file Hin. apply list_elem_of_In, list_elem_of_omap in Hin
      as (name & Hname & Hfile).
    apply list_elem_of_In, filter_In in Hname as [_ Hname].
    destruct (fst (getTemporaryFileInfo directory name userId d')) as [i|] eqn:E;
      [|discriminate].
    injection Hfile as <-.
    destruct (getTemporaryFileInfo_name _ _ _ _ _ E) as [-> ->].
    split; [|reflexivity]. now apply negb_true_iff in Hname.
Qed.

End Resolved.

End TemporaryNames.

(** ** The temporary file storage at work *)

Section TemporaryWitnesses.

Import FsExtra DirectoryTemporaryFileStorage TemporaryScenarios.

Lemma tempSegments_plain : forallb Resolved.plain tempSegments = true.
Proof. reflexivity. Qed.

Lemma tempSegments_nonempty : tempSegments <> [].
Proof. discriminate. Qed.

Lemma saveFile_then_read_witness :
  mkTemporaryFile (Some 1000) "image.png" "alice"
  = mkTemporaryFile (Some 1000) "image.png" "alice"
  /\ fileExists tempDirectory "image.png" (mkUser "alice") saved = (Ok true, saved)
  /\ getFileStream tempDirectory "image.png" (mkUser "alice") saved
     = (Ok (Delivering picture), saved)
  /\ getTemporaryFileInfo tempDirectory "image.png" "alice" saved
     = (Ok (mkTemporaryFile (Some 1000) "image.png" "alice"), saved).
Proof.
  apply (saveFile_then_read tempSegments tempSegments_nonempty tempSegments_plain
           "image.png" picture "alice" (Some 1000) emptyDisk saved
           (mkTemporaryFile (Some 1000) "image.png" "alice"));
    [reflexivity | reflexivity | reflexivity | vm_compute; reflexivity].
Defined.

(** An invalid date: the companion holds [null], and the information that is
    read back has the epoch, not the date that [saveFile] returned. *)
Example invalid_date_is_read_back_as_epoch :
  let run := saveFile tempDirectory "image.png" picture (mkUser "alice") None
               emptyDisk in
  fst run = Ok (mkTemporaryFile None "image.png" "alice")
  /\ fst (getTemporaryFileInfo tempDirectory "image.png" "alice" (snd run))
     = Ok (mkTemporaryFile (Some 0) "image.png" "alice").
Proof. vm_compute. split; reflexivity. Qed.

Lemma other_users_files_are_untouched_witness :
  (forall dataStream expirationTime,
      let d' := snd (saveFile tempDirectory "notes.txt" dataStream (mkUser "bob")
                       expirationTime saved) in
      fst (fileExists tempDirectory "image.png" (mkUser "alice") d')
      = fst (fileExists tempDirectory "image.png" (mkUser "alice") saved)
      /\ fst (getFileStream tempDirectory "image.png" (mkUser "alice") d')
         = fst (getFileStream tempDirectory "image.png" (mkUser "alice") saved))
  /\ (let d' := snd (deleteFile tempDirectory "notes.txt" "bob" saved) in
      fst (fileExists tempDirectory "image.png" (mkUser "alice") d')
      = fst (fileExists tempDirectory "image.png" (mkUser "alice") saved)
      /\ fst (getFileStream tempDirectory "image.png" (mkUser "alice") d')
         = fst (getFileStream tempDirectory "image.png" (mkUser "alice") saved)).
Proof.
  apply (other_users_files_are_untouched tempSegments tempSegments_nonempty
           tempSegments_plain "bob" "alice" "notes.txt" "image.png" saved);
    [reflexivity | reflexivity | reflexivity | reflexivity | discriminate].
Defined.

Lemma deleteFile_removes_the_file_witness :
  fileExists tempDirectory "image.png" (mkUser "alice") deleted = (Ok false, deleted)
  /\ (exists e,
         getFileStream tempDirectory "image.png" (mkUser "alice") deleted
         = (Throw e, deleted)
         /\ ex_class e = H5pError)
  /\ forall name,
       Resolved.plain name = true -> name <> "image.png" ->
       name <> "image.png" +:+ ".metadata" ->
       fst (fileExists tempDirectory name (mkUser "alice") deleted)
       = fst (fileExists tempDirectory name (mkUser "alice") saved)
       /\ fst (getFileStream tempDirectory name (mkUser "alice") deleted)
          = fst (getFileStream tempDirectory name (mkUser "alice") saved).
Proof.
  apply (deleteFile_removes_the_file tempSegments tempSegments_nonempty
           tempSegments_plain "alice" "image.png" saved deleted);
    [reflexivity | reflexivity | vm_compute; reflexivity].
Defined.

Lemma relative_name_reaches_other_user_witness :
  getAbsoluteFilePath tempDirectory "bob" ("../" +:+ "alice" +:+ "/" +:+ "image.png")
  = getAbsoluteFilePath tempDirectory "alice" "image.png"
  /\ fileExists tempDirectory ("../" +:+ "alice" +:+ "/" +:+ "image.png")
       (mkUser "bob") saved
     = fileExists tempDirectory "image.png" (mkUser "alice") saved
  /\ forall stream,
       getFileStream tempDirectory "image.png" (mkUser "alice") saved
       = (Ok stream, saved) ->
       getFileStream tempDirectory ("../" +:+ "alice" +:+ "/" +:+ "image.png")
         (mkUser "bob") saved
       = (Ok stream, saved).
Proof.
  apply (relative_name_reaches_other_user tempSegments tempSegments_nonempty
           tempSegments_plain "bob" "alice" "image.png" saved);
    reflexivity.
Defined.

Lemma listFiles_after_saveFile_witness :
  saved = saved
  /\ In (mkTemporaryFile (Some 1000) "image.png" "alice")
        [mkTemporaryFile (Some 1000) "image.png" "alice"]
  /\ forall file,
       In file [mkTemporaryFile (Some 1000) "image.png" "alice"] ->
       endsWith ".metadata" (filename file) = false
       /\ ownedByUserId file = "alice".
Proof.
  apply (listFiles_after_saveFile tempSegments tempSegments_nonempty
           tempSegments_plain "image.png" picture "alice" (Some 1000) emptyDisk
           saved saved
           (mkTemporaryFile (Some 1000) "image.png" "alice")
           [mkTemporaryFile (Some 1000) "image.png" "alice"]);
    [reflexivity | reflexivity | reflexivity | reflexivity
    | vm_compute; reflexivity | vm_compute; reflexivity].
Defined.

Lemma saveFile_needs_existing_folder_witness :
  (exists e,
      fst (saveFile tempDirectory ("images" +:+ "/" +:+ "x.png") picture
             (mkUser "alice") (Some 2000) saved) = Throw e)
  /\ files (snd (saveFile tempDirectory ("images" +:+ "/" +:+ "x.png") picture
                   (mkUser "alice") (Some 2000) saved)) = files saved.
Proof.
  apply (saveFile_needs_existing_folder tempSegments tempSegments_nonempty
           tempSegments_plain "images" "x.png" picture "alice" (Some 2000) saved);
    [reflexivity | reflexivity | reflexivity |].
  apply (bool_decide_unpack _). vm_compute. exact I.
Defined.

End TemporaryWitnesses.

(** ** The font that is kept *)

Section FontFacts.

Import RemoveRedundantFontUrls.

Lemma indexOf_range (fontPreference : list string) (format : string) :
  (indexOf fontPreference format = -1 /\ ~ In format fontPreference)
  \/ (0 <= indexOf fontPreference format < Z.of_nat (length fontPreference)
      /\ In format fontPreference).
Proof.
  induction fontPreference as [|candidate rest IH]; [left; split; [reflexivity|tauto]|].
  cbn [indexOf length]. destruct (String.eqb_spec candidate format) as [->|Hne].
  - right. split; [lia|now left].
  - destruct IH as [[-> Hnin]|[Hrange Hin]].
    + left. split; [reflexivity|]. intros [E|Hin]; [congruence|contradiction].
    + right. destruct (Z.eqb_spec (indexOf rest format) (-1)); [lia|].
      split; [lia|now right].
Qed.

Lemma rank_known (fontPreference : list string) (font : Font) :
  rank fontPreference font < Z.of_nat (length fontPreference)
  <-> In (format font) fontPreference.
Proof.
  unfold rank. cbv zeta.
  destruct (indexOf_range fontPreference (format font)) as [[E Hnin]|[Hrange Hin]].
  - rewrite E. cbn. split; [lia|contradiction].
  - destruct (Z.eqb_spec (indexOf fontPreference (format font)) (-1)); [lia|].
    split; [now intros _|lia].
Qed.

Lemma insert_nonempty (fontPreference : list string) (font : Font) (sorted : list Font) :
  insert fontPreference font sorted <> [].
Proof. destruct sorted; cbn; [discriminate|]. now destruct (_ <? 0). Qed.

(** X30: of the fonts of a rule the one kept is the first, in the order of
    the document, of those whose format comes first in the preference list: no
    font before it ranks as good, none after it ranks better; a format that is
    not in the list ranks behind every format that is, so such a font is kept
    only when no font has a listed format. *)
Theorem fontToKeep_is_first_of_the_best
    (fontPreference : list string) (fonts : list Font) (kept : Font) :
  fontToKeep fontPreference fonts = Some kept ->
  (exists before after,
      fonts = before ++ kept :: after
      /\ (forall font, In font before ->
                       rank fontPreference kept < rank fontPreference font)
      /\ (forall font, In font after ->
                       rank fontPreference kept <= rank fontPreference font))
  /\ (forall font, In font fonts -> In (format font) fontPreference ->
                   In (format kept) fontPreference).
Proof.
  intros H.
  assert (exists before after,
             fonts = before ++ kept :: after
             /\ (forall font, In font before ->
                              rank fontPreference kept < rank fontPreference font)
             /\ (forall font, In font after ->
                              rank fontPreference kept <= rank fontPreference font))
    as Hsplit.
  { unfold fontToKeep in H. revert kept H.
    induction fonts as [|font rest IH]; intros kept H; [discriminate|].
    cbn [sort fold_right] in H. fold (sort fontPreference rest) in H.
    destruct (sort fontPreference rest) as [|best sorted] eqn:Hsorted.
    - assert (rest = []) as ->.
      { destruct rest as [|x rest']; [reflexivity|].
        cbn [sort fold_right] in Hsorted.
        now apply insert_nonempty in Hsorted. }
      cbn in H. injection H as <-. exists [], []. repeat split; intros ? [].
    - destruct (IH best eq_refl) as (before & after & -> & Hbefore & Hafter).
      cbn [insert] in H. unfold compare in H.
      destruct (Z.ltb_spec (rank fontPreference best - rank fontPreference font) 0)
        as [Hlt|Hge]; cbn in H; injection H as <-.
      + exists (font :: before), after. repeat split; [|exact Hafter].
        intros f [<-|Hf]; [lia|now apply Hbefore].
      + exists [], (before ++ best :: after). repeat split; [intros ? []|].
        intros f Hf. apply in_app_or in Hf as [Hf|[<-|Hf]].
        * specialize (Hbefore f Hf). lia.
        * lia.
        * specialize (Hafter f Hf). lia. }
  split; [exact Hsplit|].
  destruct Hsplit as (before & after & -> & Hbefore & Hafter).
  intros font Hin Hknown. apply rank_known. apply rank_known in Hknown.
  apply in_app_or in Hin as [Hin|[<-|Hin]].
  - specialize (Hbefore font Hin). lia.
  - exact Hknown.
  - specialize (Hafter font Hin). lia.
Qed.

Lemma fontToKeep_is_first_of_the_best_witness :
  (exists before after,
      scenarioFonts = before ++ mkFont "woff" 1 "url(a.woff) format('woff')," :: after
      /\ (forall font, In font before ->
                       rank defaultFontPreference
                         (mkFont "woff" 1 "url(a.woff) format('woff'),")
                       < rank defaultFontPreference font)
      /\ (forall font, In font after ->
                       rank defaultFontPreference
                         (mkFont "woff" 1 "url(a.woff) format('woff'),")
                       <= rank defaultFontPreference font))
  /\ (forall font, In font scenarioFonts -> In (format font) defaultFontPreference ->
                   In (format (mkFont "woff" 1 "url(a.woff) format('woff'),"))
                      defaultFontPreference).
Proof.
  apply (fontToKeep_is_first_of_the_best defaultFontPreference scenarioFonts
           (mkFont "woff" 1 "url(a.woff) format('woff'),")).
  reflexivity.
Defined.

End FontFacts.

